(** * Cache-aside items service: a shallow embedding and its properties

    The development follows [app/services/cache.py] (the Redis cache client)
    and [app/api/v1/items.py] (the CRUD coordinator over the in-memory
    record store [_items_db]).

    Python values are an inductive type, Python dictionaries are
    insertion-ordered association lists, the remote Redis server is a finite
    map together with a fault schedule, and the asynchronous handlers are
    computations in a state-and-exception monad over the process state. *)

From Stdlib Require Import ZArith List Lia.
From Corelib Require Import PrimFloat.
From stdpp Require Import base option list strings gmap.

Set Warnings "-register-all".

(** ** Python values *)

(** The values that flow through the handlers ([Any] in the source): the
    JSON-shaped ones, and [PyObject] for every other object, which
    [json.dumps] cannot encode. *)
Inductive pyval : Type :=
  | PyNone
  | PyBool (b : bool)
  | PyInt (n : Z)
  | PyFloat (x : float)
  | PyStr (s : string)
  | PyList (l : list pyval)
  | PyDict (d : list (string * pyval))
  | PyObject (repr : string).

(** What a caller can pass where the source says [Any]: a value of the
    tree shape above, or a list or dictionary that contains itself, which
    no finite tree describes and which [json.dumps] refuses with
    [ValueError] (circular reference detected). The handlers only ever pass
    trees: the dictionaries of [model_dump] and what [json.loads] answers. *)
Inductive Any : Type :=
  | Acyclic (v : pyval)
  | Circular.

Coercion Acyclic : pyval >-> Any.

(** Truth value testing, as used by [if cached:] and [if value:]. *)
Definition truthy (v : pyval) : bool :=
  match v with
  | PyNone => false
  | PyBool b => b
  | PyInt n => negb (n =? 0)%Z
  | PyFloat x => negb (PrimFloat.eqb x 0%float)
  | PyStr s => negb (String.eqb s "")
  | PyList l => match l with [] => false | _ => true end
  | PyDict d => match d with [] => false | _ => true end
  | PyObject _ => true
  end.

(** ** Python dictionaries with string keys

    A [dict] keeps its keys in insertion order; assigning to a key that is
    already present replaces the value in place. *)
Section pydict.
Context {V : Type}.

Fixpoint dict_get (k : string) (d : list (string * V)) : option V :=
  match d with
  | [] => None
  | (k', v) :: d' => if String.eqb k k' then Some v else dict_get k d'
  end.

(** [k in d] *)
Definition dict_contains (k : string) (d : list (string * V)) : bool :=
  match dict_get k d with Some _ => true | None => false end.

(** [d[k] = v] *)
Fixpoint dict_set (k : string) (v : V) (d : list (string * V)) : list (string * V) :=
  match d with
  | [] => [(k, v)]
  | (k', v') :: d' =>
      if String.eqb k k' then (k', v) :: d' else (k', v') :: dict_set k v d'
  end.

(** [del d[k]]; the handlers only delete a key they have just found. *)
Definition dict_del (k : string) (d : list (string * V)) : list (string * V) :=
  List.filter (fun kv => negb (String.eqb k kv.1)) d.

(** [list(d.values())] *)
Definition dict_values (d : list (string * V)) : list V := List.map snd d.

(** A dictionary display [{k1: v1, ..., kn: vn}], evaluated left to right. *)
Definition dict_literal (entries : list (string * V)) : list (string * V) :=
  fold_left (fun d kv => dict_set kv.1 kv.2 d) entries [].
End pydict.

(** Python slicing [l[start:stop]] on integers, negative indices included. *)
Definition py_slice {A : Type} (l : list A) (start stop : Z) : list A :=
  let n := Z.of_nat (length l) in
  let clamp i := if (i <? 0)%Z then Z.max (i + n) 0 else Z.min i n in
  let s := clamp start in
  let e := clamp stop in
  firstn (Z.to_nat (e - s)) (skipn (Z.to_nat s) l).

(** ** Exceptions *)

Inductive RedisErrorKind := ConnectionError | TimeoutError | ResponseError.

Inductive exn :=
  | RedisError (k : RedisErrorKind)
  | JSONDecodeError
  | TypeError
  | ValidationError
  | RequestValidationError
  | KeyError (key : string)
  | HTTPException (status_code : Z) (detail : string)
  | ValueError
  | UnboundLocalError
  | CancelledError.

(** [except Exception] catches every class above but
    [asyncio.CancelledError], which derives from [BaseException] only. *)
Definition is_Exception (e : exn) : bool :=
  match e with CancelledError => false | _ => true end.

Definition is_RedisError (e : exn) : bool :=
  match e with RedisError _ => true | _ => false end.
Definition is_JSONDecodeError (e : exn) : bool :=
  match e with JSONDecodeError => true | _ => false end.
Definition is_TypeError (e : exn) : bool :=
  match e with TypeError => true | _ => false end.

Definition HTTP_404_NOT_FOUND : Z := 404.

(** [raise HTTPException(status_code=404, detail=f"Item {item_id} not found")] *)
Definition not_found (item_id : string) : exn :=
  HTTPException HTTP_404_NOT_FOUND ("Item " +:+ item_id +:+ " not found").

(** ** Process state *)

(** The remote Redis server: its keyspace (text values with the expiry they
    were stored with), and a schedule that says for each call of the client
    whether the call fails at the transport level. *)
Record RedisServer := {
  rdata : gmap string (string * option Z);
  rfault : nat -> option RedisErrorKind;
  rtick : nat
}.

Record ConnectionPool := {
  pool_url : string;
  max_connections : Z;
  socket_timeout : Z;
  socket_connect_timeout : Z
}.

Record Redis := { connection_pool : ConnectionPool }.

Record CacheService := {
  _pool : option ConnectionPool;
  _client : option Redis
}.

(** The Prometheus counters the handlers increment. *)
Record Metrics := {
  CACHE_HITS : gmap string nat;
  CACHE_MISSES : gmap string nat;
  ITEMS_CREATED : nat;
  ITEMS_DELETED : nat
}.

(** Ghost record of the order in which a handler touches the record store
    and calls the cache client. *)
Inductive Event :=
  | EvDbWrite (item_id : string) (item : list (string * pyval))
  | EvDbDelete (item_id : string)
  | EvCacheGet (key : string)
  | EvCacheSet (key : string) (value : Any) (ttl : option Z)
  | EvCacheDelete (key : string).

Record World := {
  _items_db : list (string * list (string * pyval));
  _cache_service : option CacheService;
  redis_server : RedisServer;
  metrics : Metrics;
  trace : list Event
}.

Definition set_items_db (db : list (string * list (string * pyval))) (w : World) : World :=
  {| _items_db := db; _cache_service := _cache_service w;
     redis_server := redis_server w; metrics := metrics w; trace := trace w |}.

Definition set_cache_service (c : option CacheService) (w : World) : World :=
  {| _items_db := _items_db w; _cache_service := c;
     redis_server := redis_server w; metrics := metrics w; trace := trace w |}.

Definition set_redis_server (s : RedisServer) (w : World) : World :=
  {| _items_db := _items_db w; _cache_service := _cache_service w;
     redis_server := s; metrics := metrics w; trace := trace w |}.

Definition set_metrics (m : Metrics) (w : World) : World :=
  {| _items_db := _items_db w; _cache_service := _cache_service w;
     redis_server := redis_server w; metrics := m; trace := trace w |}.

Definition add_event (ev : Event) (w : World) : World :=
  {| _items_db := _items_db w; _cache_service := _cache_service w;
     redis_server := redis_server w; metrics := metrics w;
     trace := trace w ++ [ev] |}.

(** ** The state-and-exception monad of the handlers *)

Inductive Res (A : Type) :=
  | Ok (a : A)
  | Raise (e : exn).
Arguments Ok {A} a.
Arguments Raise {A} e.

Definition M (A : Type) : Type := World -> Res A * World.

Definition ret {A} (a : A) : M A := fun w => (Ok a, w).

Definition raise {A} (e : exn) : M A := fun w => (Raise e, w).

Definition bind {A B} (m : M A) (k : A -> M B) : M B :=
  fun w =>
    match m w with
    | (Ok a, w') => k a w'
    | (Raise e, w') => (Raise e, w')
    end.

(** [try: body  except (the classes of handles) as e: handler e] *)
Definition try_except {A} (body : M A) (handles : exn -> bool) (handler : exn -> M A) : M A :=
  fun w =>
    match body w with
    | (Ok a, w') => (Ok a, w')
    | (Raise e, w') => if handles e then handler e w' else (Raise e, w')
    end.

Definition modify (f : World -> World) : M unit := fun w => (Ok tt, f w).

Definition gets {A} (f : World -> A) : M A := fun w => (Ok (f w), w).

Definition emit (ev : Event) : M unit := modify (add_event ev).

Declare Scope py_scope.
Delimit Scope py_scope with py.
Notation "'let*' x ':=' m 'in' k" := (bind m (fun x => k))
  (at level 10, x name, m at level 100, k at level 200) : py_scope.
Notation "'do' m 'then' k" := (bind m (fun _ => k))
  (at level 10, m at level 100, k at level 200) : py_scope.
Local Open Scope py_scope.

(** ** Commands of the Redis client

    Every call of a client method consumes one slot of the fault schedule
    and raises [RedisError] when that slot holds a fault; [rtick] counts
    these calls, not the commands on the wire (the first call on a new
    connection also sends the client's handshake). *)
Definition server_next (data : gmap string (string * option Z)) (w : World) : World :=
  set_redis_server
    {| rdata := data;
       rfault := rfault (redis_server w);
       rtick := S (rtick (redis_server w)) |} w.

Definition redis_command {A} (cmd : gmap string (string * option Z) ->
                                     Res A * gmap string (string * option Z)) : M A :=
  fun w =>
    let s := redis_server w in
    match rfault s (rtick s) with
    | Some k => (Raise (RedisError k), server_next (rdata s) w)
    | None => ((cmd (rdata s)).1, server_next (cmd (rdata s)).2 w)
    end.

Definition redis_ping (client : Redis) : M bool :=
  redis_command (fun data => (Ok true, data)).

(** [GET key]. The keyspace holds text: what this application stores is
    the output of [json.dumps], which is ASCII. Bytes that are not UTF-8,
    which only another program can have written and which the client
    (built with [decode_responses=True]) refuses with [UnicodeDecodeError],
    are outside this keyspace. *)
Definition redis_get (client : Redis) (key : string) : M (option string) :=
  redis_command (fun data => (Ok (fst <$> data !! key), data)).

(** [SETEX key ttl value]; the server rejects an expiry that is not positive. *)
Definition redis_setex (client : Redis) (key : string) (ttl : Z) (value : string) : M bool :=
  redis_command (fun data =>
    if (ttl <=? 0)%Z then (Raise (RedisError ResponseError), data)
    else (Ok true, <[key := (value, Some ttl)]> data)).

Definition redis_set (client : Redis) (key : string) (value : string) : M bool :=
  redis_command (fun data => (Ok true, <[key := (value, None)]> data)).

(** [DEL key] answers the number of keys removed. *)
Definition redis_delete (client : Redis) (key : string) : M Z :=
  redis_command (fun data =>
    (Ok (match data !! key with Some _ => 1%Z | None => 0%Z end), delete key data)).

(** [EXISTS key] answers the number of keys found. *)
Definition redis_exists (client : Redis) (key : string) : M Z :=
  redis_command (fun data =>
    (Ok (match data !! key with Some _ => 1%Z | None => 0%Z end), data)).

(** ** Request and response models of [items.py] *)

Module ItemCreate.
Record t := {
  name : string;
  description : option string;
  price : float;
  quantity : Z;
  tags : list string
}.

Definition model_dump (item : t) : list (string * pyval) :=
  [ ("name", PyStr (name item));
    ("description", match description item with Some s => PyStr s | None => PyNone end);
    ("price", PyFloat (price item));
    ("quantity", PyInt (quantity item));
    ("tags", PyList (List.map PyStr (tags item))) ].
End ItemCreate.

Module ItemUpdate.
(** Every field is optional and defaults to [None]; the outer option
    records whether the request set the field at all, the inner one the
    value it set ([None] for an explicit null). *)
Record t := {
  name : option (option string);
  description : option (option string);
  price : option (option float);
  quantity : option (option Z);
  tags : option (option (list string))
}.

Definition field {A} (k : string) (inj : A -> pyval) (f : option (option A))
  : list (string * pyval) :=
  match f with
  | None => []
  | Some None => [(k, PyNone)]
  | Some (Some a) => [(k, inj a)]
  end.

(** [model_dump(exclude_unset=True)]: the fields the request set, in
    declaration order. *)
Definition model_dump_exclude_unset (item : t) : list (string * pyval) :=
  field "name" PyStr (name item) ++
  field "description" PyStr (description item) ++
  field "price" PyFloat (price item) ++
  field "quantity" PyInt (quantity item) ++
  field "tags" (fun l => PyList (List.map PyStr l)) (tags item).
End ItemUpdate.

Module ItemResponse.
Record t (datetime : Type) := {
  id : string;
  name : string;
  description : option string;
  price : float;
  quantity : Z;
  tags : list string;
  created_at : datetime;
  updated_at : datetime
}.
Arguments id {datetime} _.
Arguments name {datetime} _.
Arguments description {datetime} _.
Arguments price {datetime} _.
Arguments quantity {datetime} _.
Arguments tags {datetime} _.
Arguments created_at {datetime} _.
Arguments updated_at {datetime} _.
End ItemResponse.

Module ItemListResponse.
Record t (datetime : Type) := {
  items : list (ItemResponse.t datetime);
  total : Z;
  page : Z;
  page_size : Z;
  total_pages : Z
}.
Arguments items {datetime} _.
Arguments total {datetime} _.
Arguments page {datetime} _.
Arguments page_size {datetime} _.
Arguments total_pages {datetime} _.
End ItemListResponse.

Record Settings := {
  redis_url : string;
  redis_pool_size : Z;
  redis_timeout : Z
}.

(** Cache settings of [items.py]. *)
Definition CACHE_PREFIX : string := "item:".
Definition CACHE_TTL : Z := 3600.
Definition ITEMS_LIST_KEY : string := "items:list".

Definition _get_cache_key (item_id : string) : string := CACHE_PREFIX +:+ item_id.

(** ** The cache client and the coordinator *)

Section Service.

(** What the code takes from outside the repository: the clock's value
    type with its ISO rendering, the JSON codec on trees (no text stands
    for the [TypeError] of [json.dumps] on an object it cannot encode, no
    value for the [JSONDecodeError] of [json.loads]), the construction of an [ItemResponse] from keyword
    arguments (no response stands for pydantic's [ValidationError]), and
    the settings read from the environment. *)
Variable datetime : Type.
Variable isoformat : datetime -> string.
Variable dumps_text : pyval -> option string.
Variable loads_val : string -> option pyval.
Variable validate_response : list (string * pyval) -> option (ItemResponse.t datetime).
Variable settings : Settings.

(** [json.dumps(value)]: a container that holds itself is refused with
    [ValueError] before anything is encoded. *)
Definition json_dumps (value : Any) : M string :=
  match value with
  | Circular => raise ValueError
  | Acyclic v =>
      match dumps_text v with
      | Some text => ret text
      | None => raise TypeError
      end
  end.

Definition json_loads (text : string) : M pyval :=
  match loads_val text with
  | Some v => ret v
  | None => raise JSONDecodeError
  end.

(** *** [class CacheService]

    The process state holds one [CacheService] object, the one the module
    variable [_cache_service] refers to: the program constructs a
    [CacheService] only in [get_cache_service] and calls the methods on
    what that function answers. A method reads the attributes of the
    [self] it is given; an assignment to an attribute of [self] is a write
    to the object the module variable refers to. While the module variable
    is empty, [self] is some other object, and its attributes are no part
    of the process state. *)
Definition CacheService__init__ : CacheService :=
  {| _pool := None; _client := None |}.

Definition set_self (self : CacheService) : M unit :=
  modify (fun w =>
            match _cache_service w with
            | Some _ => set_cache_service (Some self) w
            | None => w
            end).

Definition ConnectionPool_from_url : ConnectionPool :=
  {| pool_url := redis_url settings;
     max_connections := redis_pool_size settings;
     socket_timeout := redis_timeout settings;
     socket_connect_timeout := redis_timeout settings |}.

Definition CacheService_connect (self : CacheService) : M unit :=
  try_except
    (let pool := ConnectionPool_from_url in
     do set_self {| _pool := Some pool; _client := _client self |} then
     let client := {| connection_pool := pool |} in
     do set_self {| _pool := Some pool; _client := Some client |} then
     do redis_ping client then
     ret tt)
    is_RedisError
    (fun e => raise e).

Definition CacheService_disconnect (self : CacheService) : M unit :=
  do (match _client self with
      | Some _ => set_self {| _pool := _pool self; _client := None |}
      | None => ret tt
      end) then
  match _pool self with
  | Some _ => set_self {| _pool := None; _client := None |}
  | None => ret tt
  end.

Definition CacheService_health_check (self : CacheService) : M bool :=
  match _client self with
  | None => ret false
  | Some client =>
      try_except
        (do redis_ping client then ret true)
        is_RedisError
        (fun _ => ret false)
  end.

(** [get] answers [None] (here [PyNone]) for an absent value. *)
Definition CacheService_get (self : CacheService) (key : string) : M pyval :=
  do emit (EvCacheGet key) then
  match _client self with
  | None => ret PyNone
  | Some client =>
      try_except
        (let* value := redis_get client key in
         match value with
         | Some text =>
             if negb (String.eqb text "") then json_loads text else ret PyNone
         | None => ret PyNone
         end)
        (fun e => is_RedisError e || is_JSONDecodeError e)
        (fun _ => ret PyNone)
  end.

(** [if ttl:] *)
Definition ttl_given (ttl : option Z) : option Z :=
  match ttl with
  | Some t => if (t =? 0)%Z then None else Some t
  | None => None
  end.

Definition CacheService_set (self : CacheService) (key : string) (value : Any)
    (ttl : option Z) : M bool :=
  do emit (EvCacheSet key value ttl) then
  match _client self with
  | None => ret false
  | Some client =>
      try_except
        (let* serialized := json_dumps value in
         do (match ttl_given ttl with
             | Some t => redis_setex client key t serialized
             | None => redis_set client key serialized
             end) then
         ret true)
        (fun e => is_RedisError e || is_TypeError e)
        (fun _ => ret false)
  end.

Definition CacheService_delete (self : CacheService) (key : string) : M bool :=
  do emit (EvCacheDelete key) then
  match _client self with
  | None => ret false
  | Some client =>
      try_except
        (do redis_delete client key then ret true)
        is_RedisError
        (fun _ => ret false)
  end.

Definition CacheService_exists (self : CacheService) (key : string) : M bool :=
  match _client self with
  | None => ret false
  | Some client =>
      try_except
        (let* n := redis_exists client key in ret (negb (n =? 0)%Z))
        is_RedisError
        (fun _ => ret false)
  end.

(** *** The singleton *)

Definition get_cache_service : M CacheService :=
  let* current := gets _cache_service in
  match current with
  | Some service => ret service
  | None =>
      do modify (set_cache_service (Some CacheService__init__)) then
      ret CacheService__init__
  end.

(** The service object the handlers obtain from [get_cache_service]. *)
Definition current_service (w : World) : CacheService :=
  match _cache_service w with
  | Some service => service
  | None => CacheService__init__
  end.

(** [init_cache] answers the singleton, connected. *)
Definition init_cache : M CacheService :=
  let* service := get_cache_service in
  do CacheService_connect service then
  gets current_service.

Definition close_cache : M unit :=
  let* current := gets _cache_service in
  match current with
  | Some service =>
      do CacheService_disconnect service then
      modify (set_cache_service None)
  | None => ret tt
  end.

(** *** Metrics hooks of [app/api/metrics.py] *)

Definition inc (label : string) (counter : gmap string nat) : gmap string nat :=
  <[label := S (default 0%nat (counter !! label))]> counter.

Definition count_cache_hit (operation : string) (w : World) : World :=
  let m := metrics w in
  set_metrics {| CACHE_HITS := inc operation (CACHE_HITS m);
                 CACHE_MISSES := CACHE_MISSES m;
                 ITEMS_CREATED := ITEMS_CREATED m;
                 ITEMS_DELETED := ITEMS_DELETED m |} w.

Definition count_cache_miss (operation : string) (w : World) : World :=
  let m := metrics w in
  set_metrics {| CACHE_HITS := CACHE_HITS m;
                 CACHE_MISSES := inc operation (CACHE_MISSES m);
                 ITEMS_CREATED := ITEMS_CREATED m;
                 ITEMS_DELETED := ITEMS_DELETED m |} w.

Definition count_item_created (w : World) : World :=
  let m := metrics w in
  set_metrics {| CACHE_HITS := CACHE_HITS m;
                 CACHE_MISSES := CACHE_MISSES m;
                 ITEMS_CREATED := S (ITEMS_CREATED m);
                 ITEMS_DELETED := ITEMS_DELETED m |} w.

Definition count_item_deleted (w : World) : World :=
  let m := metrics w in
  set_metrics {| CACHE_HITS := CACHE_HITS m;
                 CACHE_MISSES := CACHE_MISSES m;
                 ITEMS_CREATED := ITEMS_CREATED m;
                 ITEMS_DELETED := S (ITEMS_DELETED m) |} w.

Definition record_cache_hit (operation : string) : M unit :=
  modify (count_cache_hit operation).

Definition record_cache_miss (operation : string) : M unit :=
  modify (count_cache_miss operation).

Definition record_item_created : M unit := modify count_item_created.

Definition record_item_deleted : M unit := modify count_item_deleted.

(** *** The handlers of [app/api/v1/items.py] *)

(** [ItemResponse] called with the entries of [v] as keyword arguments:
    [v] has to be a mapping, and its entries have to validate against the
    response model. *)
Definition ItemResponse_kwargs (v : pyval) : M (ItemResponse.t datetime) :=
  match v with
  | PyDict d =>
      match validate_response d with
      | Some r => ret r
      | None => raise ValidationError
      end
  | _ => raise TypeError
  end.

Definition _get_from_cache (item_id : string) : M pyval :=
  let* cache := get_cache_service in
  let* cached := CacheService_get cache (_get_cache_key item_id) in
  if truthy cached then
    do record_cache_hit "get_item" then
    ret cached
  else
    do record_cache_miss "get_item" then
    ret PyNone.

Definition _set_in_cache (item_id : string) (item : list (string * pyval)) : M unit :=
  let* cache := get_cache_service in
  do CacheService_set cache (_get_cache_key item_id) (PyDict item) (Some CACHE_TTL) then
  ret tt.

Definition _delete_from_cache (item_id : string) : M unit :=
  let* cache := get_cache_service in
  do CacheService_delete cache (_get_cache_key item_id) then
  do CacheService_delete cache ITEMS_LIST_KEY then
  ret tt.

(** [_items_db[item_id] = item_data] *)
Definition db_store (item_id : string) (item_data : list (string * pyval)) : M unit :=
  do modify (fun w => set_items_db (dict_set item_id item_data (_items_db w)) w) then
  emit (EvDbWrite item_id item_data).

(** [del _items_db[item_id]] *)
Definition db_remove (item_id : string) : M unit :=
  do modify (fun w => set_items_db (dict_del item_id (_items_db w)) w) then
  emit (EvDbDelete item_id).

(** The dictionary [create_item] builds for a new item. *)
Definition new_item_data (item_id : string) (now : datetime) (item : ItemCreate.t)
    : list (string * pyval) :=
  dict_literal
    ([("id", PyStr item_id)] ++ ItemCreate.model_dump item ++
     [("created_at", PyStr (isoformat now)); ("updated_at", PyStr (isoformat now))]).

(** [uuid4] and [utcnow] stand for what [uuid.uuid4()] and
    [datetime.utcnow()] answer in this call. *)
Definition create_item (uuid4 : string) (utcnow : datetime) (item : ItemCreate.t)
    : M (ItemResponse.t datetime) :=
  let item_id := uuid4 in
  let now := utcnow in
  let item_data := new_item_data item_id now item in
  do db_store item_id item_data then
  do _set_in_cache item_id item_data then
  let* cache := get_cache_service in
  do CacheService_delete cache ITEMS_LIST_KEY then
  do record_item_created then
  ItemResponse_kwargs (PyDict item_data).

Fixpoint mapM {A B} (f : A -> M B) (l : list A) : M (list B) :=
  match l with
  | [] => ret []
  | a :: l' =>
      let* b := f a in
      let* bs := mapM f l' in
      ret (b :: bs)
  end.

(** [page] and [page_size] are declared [Query(1, ge=1)] and
    [Query(10, ge=1, le=100)]: the framework refuses other values before the
    body runs. *)
Definition list_items (page page_size : Z) : M (ItemListResponse.t datetime) :=
  if negb ((1 <=? page)%Z && (1 <=? page_size)%Z && (page_size <=? 100)%Z) then
    raise RequestValidationError
  else
    let* db := gets _items_db in
    let all_items := dict_values db in
    let total := Z.of_nat (length all_items) in
    let total_pages :=
      if (0 <? total)%Z then ((total + page_size - 1) / page_size)%Z else 1%Z in
    let start := ((page - 1) * page_size)%Z in
    let end_ := (start + page_size)%Z in
    let page_items := py_slice all_items start end_ in
    let* items := mapM (fun item => ItemResponse_kwargs (PyDict item)) page_items in
    ret {| ItemListResponse.items := items;
           ItemListResponse.total := total;
           ItemListResponse.page := page;
           ItemListResponse.page_size := page_size;
           ItemListResponse.total_pages := total_pages |}.

(** [_items_db[item_id]] *)
Definition db_lookup (item_id : string) : M (list (string * pyval)) :=
  let* db := gets _items_db in
  match dict_get item_id db with
  | Some item_data => ret item_data
  | None => raise (KeyError item_id)
  end.

Definition get_item (item_id : string) : M (ItemResponse.t datetime) :=
  let* cached := _get_from_cache item_id in
  if truthy cached then
    ItemResponse_kwargs cached
  else
    let* db := gets _items_db in
    if negb (dict_contains item_id db) then
      raise (not_found item_id)
    else
      let* item_data := db_lookup item_id in
      do _set_in_cache item_id item_data then
      ItemResponse_kwargs (PyDict item_data).

(** [for field, value in update_data.items(): item_data[field] = value] *)
Definition apply_update (update_data item_data : list (string * pyval))
    : list (string * pyval) :=
  fold_left (fun d kv => dict_set kv.1 kv.2 d) update_data item_data.

(** [item_data] is the very dictionary the store holds, so the field
    assignments already change the stored item; the later
    [_items_db[item_id] = item_data] puts the same object back. *)
Definition update_item (item_id : string) (utcnow : datetime) (item : ItemUpdate.t)
    : M (ItemResponse.t datetime) :=
  let* db := gets _items_db in
  if negb (dict_contains item_id db) then
    raise (not_found item_id)
  else
    let* item_data0 := db_lookup item_id in
    let update_data := ItemUpdate.model_dump_exclude_unset item in
    let item_data1 := apply_update update_data item_data0 in
    let item_data := dict_set "updated_at" (PyStr (isoformat utcnow)) item_data1 in
    do db_store item_id item_data then
    do _set_in_cache item_id item_data then
    let* cache := get_cache_service in
    do CacheService_delete cache ITEMS_LIST_KEY then
    ItemResponse_kwargs (PyDict item_data).

Definition delete_item (item_id : string) : M unit :=
  let* db := gets _items_db in
  if negb (dict_contains item_id db) then
    raise (not_found item_id)
  else
    do db_remove item_id then
    do _delete_from_cache item_id then
    do record_item_deleted then
    ret tt.

(** *** Requests *)

Inductive Request :=
  | Create (uuid4 : string) (utcnow : datetime) (item : ItemCreate.t)
  | Read (item_id : string)
  | Update (item_id : string) (utcnow : datetime) (item : ItemUpdate.t)
  | Delete (item_id : string)
  | List (page page_size : Z).

Inductive Reply :=
  | Item (r : ItemResponse.t datetime)
  | ItemList (l : ItemListResponse.t datetime)
  | NoContent.

Definition handle (q : Request) : M Reply :=
  match q with
  | Create uuid4 utcnow item => let* r := create_item uuid4 utcnow item in ret (Item r)
  | Read item_id => let* r := get_item item_id in ret (Item r)
  | Update item_id utcnow item => let* r := update_item item_id utcnow item in ret (Item r)
  | Delete item_id => do delete_item item_id then ret NoContent
  | List page page_size => let* l := list_items page page_size in ret (ItemList l)
  end.

(** A sequence of requests handled one after the other; a request that
    raises is answered with its exception and the next one is handled on the
    state it left. *)
Fixpoint serve (qs : list Request) (w : World) : list (Res Reply) * World :=
  match qs with
  | [] => ([], w)
  | q :: qs' =>
      let '(r, w1) := handle q w in
      let '(rs, w2) := serve qs' w1 in
      (r :: rs, w2)
  end.

(** *** Calls of the cache client and steps of the handlers, named *)

(** The server refuses the next command it receives. *)
Definition transport_fault (w : World) : Prop :=
  rfault (redis_server w) (rtick (redis_server w)) <> None.

(** The text stored under [key], if any, does not decode. *)
Definition undecodable (key : string) (w : World) : Prop :=
  exists text ttl,
    rdata (redis_server w) !! key = Some (text, ttl) /\ loads_val text = None.

(** What a successful [GET key] decodes to. *)
Definition decoded (key : string) (data : gmap string (string * option Z)) : pyval :=
  match data !! key with
  | Some (text, _) =>
      if String.eqb text "" then PyNone
      else match loads_val text with Some v => v | None => PyNone end
  | None => PyNone
  end.

Definition ensure_service (w : World) : World :=
  match _cache_service w with
  | Some _ => w
  | None => set_cache_service (Some CacheService__init__) w
  end.

(** *** A call of the cache client through the singleton

    [cache = await get_cache_service()] followed by one method call: the
    answer of the call and the state it leaves. *)
Definition cache_get_call (key : string) (w : World) : Res pyval * World :=
  CacheService_get (current_service w) key (ensure_service w).

Definition cache_set_call (key : string) (value : pyval) (ttl : option Z) (w : World)
    : Res bool * World :=
  CacheService_set (current_service w) key value ttl (ensure_service w).

Definition cache_delete_call (key : string) (w : World) : Res bool * World :=
  CacheService_delete (current_service w) key (ensure_service w).

(** What a call of the cache client leaves alone: the record store, the
    metrics, the fault schedule and the singleton; the server only moves
    forward in its schedule. *)
Record cache_only (w w' : World) : Prop := {
  co_db : _items_db w' = _items_db w;
  co_metrics : metrics w' = metrics w;
  co_fault : rfault (redis_server w') = rfault (redis_server w);
  co_tick : (rtick (redis_server w) <= rtick (redis_server w'))%nat;
  co_service : current_service w' = current_service w
}.

Definition cache_get_value (key : string) (w : World) : pyval :=
  match (cache_get_call key w).1 with
  | Ok v => v
  | Raise _ => PyNone
  end.

Definition cache_get_world (key : string) (w : World) : World :=
  (cache_get_call key w).2.

Definition cache_set_world (key : string) (value : pyval) (ttl : option Z) (w : World)
    : World :=
  (cache_set_call key value ttl w).2.

Definition cache_delete_world (key : string) (w : World) : World :=
  (cache_delete_call key w).2.

(** [_items_db[item_id] = item_data], with its ghost event. *)
Definition stored (item_id : string) (item_data : list (string * pyval)) (w : World) : World :=
  add_event (EvDbWrite item_id item_data)
    (set_items_db (dict_set item_id item_data (_items_db w)) w).

(** [del _items_db[item_id]], with its ghost event. *)
Definition removed (item_id : string) (w : World) : World :=
  add_event (EvDbDelete item_id) (set_items_db (dict_del item_id (_items_db w)) w).

Definition cached_item (item_id : string) (item : list (string * pyval)) (w : World) : World :=
  cache_set_world (_get_cache_key item_id) (PyDict item) (Some CACHE_TTL) w.

(** The stored dictionary after [update_item]'s assignments. *)
Definition updated_item_data (now : datetime) (item : ItemUpdate.t)
    (item_data : list (string * pyval)) : list (string * pyval) :=
  dict_set "updated_at" (PyStr (isoformat now))
    (apply_update (ItemUpdate.model_dump_exclude_unset item) item_data).

(** The cache side of the state between two points of a run: same fault
    schedule, same singleton, the server further along its schedule. *)
Record drift (w w' : World) : Prop := {
  dr_fault : rfault (redis_server w') = rfault (redis_server w);
  dr_tick : (rtick (redis_server w) <= rtick (redis_server w'))%nat;
  dr_service : current_service w' = current_service w
}.

(** *** The record store on its own

    The five operations as section 4.3 of the specification words them, with
    every cache step left out: what the record store alone determines. *)

Definition entity_reply (entity : list (string * pyval)) : Res (ItemResponse.t datetime) :=
  match validate_response entity with
  | Some r => Ok r
  | None => Raise ValidationError
  end.

Fixpoint entity_replies (entities : list (list (string * pyval)))
    : Res (list (ItemResponse.t datetime)) :=
  match entities with
  | [] => Ok []
  | e :: rest =>
      match entity_reply e with
      | Raise x => Raise x
      | Ok r =>
          match entity_replies rest with
          | Raise x => Raise x
          | Ok rs => Ok (r :: rs)
          end
      end
  end.

(** [ceil(a / b)] for a positive [b]. *)
Definition ceil_div (a b : Z) : Z :=
  if (a mod b =? 0)%Z then (a / b)%Z else (a / b + 1)%Z.

(** The slice of indices [(page-1)*page_size] up to [page*page_size]. *)
Definition page_slice {A} (page page_size : Z) (all : list A) : list A :=
  firstn (Z.to_nat page_size) (skipn (Z.to_nat ((page - 1) * page_size)) all).

Definition store_only_create (uuid4 : string) (now : datetime) (fields : ItemCreate.t)
    (db : list (string * list (string * pyval))) :=
  let entity := new_item_data uuid4 now fields in
  (entity_reply entity, dict_set uuid4 entity db).

Definition store_only_read (item_id : string) (db : list (string * list (string * pyval))) :=
  match dict_get item_id db with
  | None => (Raise (not_found item_id), db)
  | Some entity => (entity_reply entity, db)
  end.

Definition store_only_update (item_id : string) (now : datetime) (partial : ItemUpdate.t)
    (db : list (string * list (string * pyval))) :=
  match dict_get item_id db with
  | None => (Raise (not_found item_id), db)
  | Some entity =>
      let merged := updated_item_data now partial entity in
      (entity_reply merged, dict_set item_id merged db)
  end.

Definition store_only_delete (item_id : string) (db : list (string * list (string * pyval)))
    : Res unit * list (string * list (string * pyval)) :=
  match dict_get item_id db with
  | None => (Raise (not_found item_id), db)
  | Some _ => (Ok tt, dict_del item_id db)
  end.

Definition store_only_list (page page_size : Z) (db : list (string * list (string * pyval)))
    : Res (ItemListResponse.t datetime) :=
  if ((1 <=? page) && (1 <=? page_size) && (page_size <=? 100))%Z then
    let all := dict_values db in
    let total := Z.of_nat (length all) in
    match entity_replies (page_slice page page_size all) with
    | Raise x => Raise x
    | Ok rs =>
        Ok {| ItemListResponse.items := rs;
              ItemListResponse.total := total;
              ItemListResponse.page := page;
              ItemListResponse.page_size := page_size;
              ItemListResponse.total_pages :=
                if (total =? 0)%Z then 1%Z else ceil_div total page_size |}
    end
  else Raise RequestValidationError.

Definition reply_of {A} (f : A -> Reply) (r : Res A) : Res Reply :=
  match r with
  | Ok a => Ok (f a)
  | Raise x => Raise x
  end.

Definition store_only (q : Request) (db : list (string * list (string * pyval)))
    : Res Reply * list (string * list (string * pyval)) :=
  match q with
  | Create uuid4 now fields =>
      let '(r, db') := store_only_create uuid4 now fields db in (reply_of Item r, db')
  | Read item_id =>
      let '(r, db') := store_only_read item_id db in (reply_of Item r, db')
  | Update item_id now partial =>
      let '(r, db') := store_only_update item_id now partial db in (reply_of Item r, db')
  | Delete item_id =>
      let '(r, db') := store_only_delete item_id db in (reply_of (fun _ => NoContent) r, db')
  | List page page_size => (reply_of ItemList (store_only_list page page_size db), db)
  end.

Fixpoint store_only_serve (qs : list Request) (db : list (string * list (string * pyval)))
    : list (Res Reply) * list (string * list (string * pyval)) :=
  match qs with
  | [] => ([], db)
  | q :: qs' =>
      let '(r, db1) := store_only q db in
      let '(rs, db2) := store_only_serve qs' db1 in
      (r :: rs, db2)
  end.

(** *** States of the cache and of the whole service *)

(** The dictionary of a response whose fields are all of their declared
    types, in the key order [create_item] uses. *)
Definition response_dict (r : ItemResponse.t datetime) : list (string * pyval) :=
  [ ("id", PyStr (ItemResponse.id r));
    ("name", PyStr (ItemResponse.name r));
    ("description",
      match ItemResponse.description r with Some s => PyStr s | None => PyNone end);
    ("price", PyFloat (ItemResponse.price r));
    ("quantity", PyInt (ItemResponse.quantity r));
    ("tags", PyList (List.map PyStr (ItemResponse.tags r)));
    ("created_at", PyStr (isoformat (ItemResponse.created_at r)));
    ("updated_at", PyStr (isoformat (ItemResponse.updated_at r))) ].

(** The cache client is connected and the server serves the next [n]
    commands it receives. *)
Definition cache_up (n : nat) (w : World) : Prop :=
  _client (current_service w) <> None /\
  forall i, (i < n)%nat ->
    rfault (redis_server w) (rtick (redis_server w) + i) = None.

(** The cache client is not connected, or the server fails every command it
    will receive from now on. *)
Definition cache_down (w : World) : Prop :=
  _client (current_service w) = None \/
  forall n, (rtick (redis_server w) <= n)%nat -> rfault (redis_server w) n <> None.

(** Every operation the handlers ask of the cache client fails, now and at
    every later point of the run: get answers absent, set and delete answer
    false. *)
Definition cache_fails (w : World) : Prop :=
  forall w', drift w w' ->
    forall key value ttl,
      (cache_get_call key w').1 = Ok PyNone /\
      (cache_set_call key value ttl w').1 = Ok false /\
      (cache_delete_call key w').1 = Ok false.

(** An exception that comes from the cache: a server failure, or a failure
    of the JSON codec. *)
Definition cache_error {A} (r : Res A) : Prop :=
  match r with
  | Raise (RedisError _) | Raise JSONDecodeError | Raise TypeError => True
  | _ => False
  end.

(** Expiry or eviction of one key by the server. *)
Definition expire (key : string) (w : World) : World :=
  set_redis_server
    {| rdata := delete key (rdata (redis_server w));
       rfault := rfault (redis_server w);
       rtick := rtick (redis_server w) |} w.

(** A first start: a fresh process in front of an empty server, with any
    fault schedule. A process that restarts in front of a server which
    still holds the entries of an earlier process does not start here, so
    what is stated for every reachable state is about first starts; the
    agreement of cache and store is stated from any starting state. *)
Definition initial (w : World) : Prop :=
  _items_db w = [] /\ _cache_service w = None /\
  rdata (redis_server w) = ∅ /\ trace w = [].

Inductive step : World -> World -> Prop :=
  | step_handle q w : step w (handle q w).2
  | step_init_cache w : step w (init_cache w).2
  | step_close_cache w : step w (close_cache w).2
  | step_expire key w : step w (expire key w).

Inductive reachable : World -> Prop :=
  | reachable_initial w : initial w -> reachable w
  | reachable_step w w' : reachable w -> step w w' -> reachable w'.

(** Every item the record store holds was written to it, and every text
    the cache holds serializes an item that was written to the store under
    the identifier of the key. *)
Record recorded (w : World) : Prop := {
  rec_store : forall item_id item,
    dict_get item_id (_items_db w) = Some item -> In (EvDbWrite item_id item) (trace w);
  rec_cache : forall key text ttl,
    rdata (redis_server w) !! key = Some (text, ttl) ->
    exists item_id item,
      key = _get_cache_key item_id /\
      dumps_text (PyDict item) = Some text /\
      In (EvDbWrite item_id item) (trace w)
}.

(** ** Properties *)

(** *** Dictionaries *)

Lemma dict_get_set_eq {V} k (v : V) d : dict_get k (dict_set k v d) = Some v.
Proof.
  induction d as [|[k' v'] d IH]; cbn.
  - now rewrite String.eqb_refl.
  - destruct (String.eqb k k') eqn:E; cbn; rewrite E; auto.
Qed.

Lemma dict_get_set_ne {V} k k' (v : V) d :
  k <> k' -> dict_get k' (dict_set k v d) = dict_get k' d.
Proof.
  intros Hne. induction d as [|[k0 v0] d IH]; cbn.
  - apply not_eq_sym, String.eqb_neq in Hne. now rewrite Hne.
  - destruct (String.eqb k k0) eqn:E; cbn.
    + apply String.eqb_eq in E. subst k0.
      apply not_eq_sym, String.eqb_neq in Hne. now rewrite Hne.
    + destruct (String.eqb k' k0); auto.
Qed.

Lemma dict_get_del_eq {V} k (d : list (string * V)) : dict_get k (dict_del k d) = None.
Proof.
  induction d as [|[k' v'] d IH]; cbn; auto.
  destruct (String.eqb k k') eqn:E; cbn; auto. now rewrite E.
Qed.

Lemma dict_get_del_ne {V} k k' (d : list (string * V)) :
  k <> k' -> dict_get k' (dict_del k d) = dict_get k' d.
Proof.
  intros Hne. induction d as [|[k0 v0] d IH]; cbn; auto.
  destruct (String.eqb k k0) eqn:E; cbn.
  - apply String.eqb_eq in E. subst k0.
    apply not_eq_sym, String.eqb_neq in Hne. now rewrite Hne.
  - destruct (String.eqb k' k0); auto.
Qed.

(** A new key goes to the end: the values keep their insertion order. *)
Lemma dict_values_set_new {V} k (v : V) d :
  dict_get k d = None -> dict_values (dict_set k v d) = dict_values d ++ [v].
Proof.
  induction d as [|[k' v'] d IH]; cbn; auto.
  destruct (String.eqb k k'); [discriminate|].
  intros H. cbn. f_equal. now apply IH.
Qed.

(** An assignment to a key that is there keeps every position. *)
Lemma dict_keys_set_old {V} k (v : V) d :
  dict_get k d <> None -> List.map fst (dict_set k v d) = List.map fst d.
Proof.
  induction d as [|[k' v'] d IH]; cbn; [congruence|].
  destruct (String.eqb k k'); cbn; auto.
  intros H. f_equal. now apply IH.
Qed.

(** *** Equations of the monad and of the cache client *)

Lemma bind_Ok {A B} (m : M A) (k : A -> M B) w a w' :
  m w = (Ok a, w') -> bind m k w = k a w'.
Proof. intros H. unfold bind. now rewrite H. Qed.

Lemma bind_Raise {A B} (m : M A) (k : A -> M B) w e w' :
  m w = (Raise e, w') -> bind m k w = (Raise e, w').
Proof. intros H. unfold bind. now rewrite H. Qed.

Lemma CacheService_get_eq self key w :
  CacheService_get self key w =
  match _client self with
  | None => (Ok PyNone, add_event (EvCacheGet key) w)
  | Some _ =>
      (Ok (match rfault (redis_server w) (rtick (redis_server w)) with
           | Some _ => PyNone
           | None => decoded key (rdata (redis_server w))
           end),
       server_next (rdata (redis_server w)) (add_event (EvCacheGet key) w))
  end.
Proof.
  unfold CacheService_get, bind, emit, modify, try_except, redis_get, redis_command, decoded.
  destruct (_client self) as [client|]; [|reflexivity].
  cbn [redis_server add_event].
  destruct (rfault (redis_server w) (rtick (redis_server w))) as [k|]; [reflexivity|].
  cbn [fst snd]. destruct (rdata (redis_server w) !! key) as [[text ttl]|]; cbn; [|reflexivity].
  destruct (String.eqb text ""); cbn; [reflexivity|].
  unfold json_loads. destruct (loads_val text); reflexivity.
Qed.

Lemma CacheService_set_eq self key (value : pyval) ttl w :
  CacheService_set self key value ttl w =
  let w1 := add_event (EvCacheSet key value ttl) w in
  match _client self, dumps_text value with
  | None, _ | _, None => (Ok false, w1)
  | Some _, Some text =>
      let data := rdata (redis_server w) in
      match rfault (redis_server w) (rtick (redis_server w)), ttl_given ttl with
      | Some _, _ => (Ok false, server_next data w1)
      | None, Some t =>
          if (t <=? 0)%Z then (Ok false, server_next data w1)
          else (Ok true, server_next (<[key := (text, Some t)]> data) w1)
      | None, None => (Ok true, server_next (<[key := (text, None)]> data) w1)
      end
  end.
Proof.
  unfold CacheService_set, bind, emit, modify, try_except, json_dumps, ret, raise.
  destruct (_client self) as [client|]; [|reflexivity].
  destruct (dumps_text value) as [text|]; [|reflexivity].
  unfold redis_setex, redis_set, redis_command.
  destruct (ttl_given ttl) as [t|]; cbn [redis_server add_event];
    destruct (rfault (redis_server w) (rtick (redis_server w))) as [k|];
    try reflexivity.
  destruct (t <=? 0)%Z; reflexivity.
Qed.

Lemma CacheService_delete_eq self key w :
  CacheService_delete self key w =
  let w1 := add_event (EvCacheDelete key) w in
  match _client self with
  | None => (Ok false, w1)
  | Some _ =>
      match rfault (redis_server w) (rtick (redis_server w)) with
      | Some _ => (Ok false, server_next (rdata (redis_server w)) w1)
      | None => (Ok true, server_next (delete key (rdata (redis_server w))) w1)
      end
  end.
Proof.
  unfold CacheService_delete, bind, emit, modify, try_except, ret,
    redis_delete, redis_command.
  destruct (_client self) as [client|]; [|reflexivity].
  cbn [redis_server add_event].
  destruct (rfault (redis_server w) (rtick (redis_server w))); reflexivity.
Qed.

Lemma CacheService_exists_eq self key w :
  CacheService_exists self key w =
  match _client self with
  | None => (Ok false, w)
  | Some _ =>
      match rfault (redis_server w) (rtick (redis_server w)) with
      | Some _ => (Ok false, server_next (rdata (redis_server w)) w)
      | None =>
          (Ok (match rdata (redis_server w) !! key with Some _ => true | None => false end),
           server_next (rdata (redis_server w)) w)
      end
  end.
Proof.
  unfold CacheService_exists, bind, try_except, ret, redis_exists, redis_command.
  destruct (_client self) as [client|]; [|reflexivity].
  destruct (rfault (redis_server w) (rtick (redis_server w))); [reflexivity|].
  cbn [fst snd]. destruct (rdata (redis_server w) !! key); reflexivity.
Qed.

Lemma CacheService_health_check_eq self w :
  CacheService_health_check self w =
  match _client self with
  | None => (Ok false, w)
  | Some _ =>
      (Ok (match rfault (redis_server w) (rtick (redis_server w)) with
           | Some _ => false
           | None => true
           end),
       server_next (rdata (redis_server w)) w)
  end.
Proof.
  unfold CacheService_health_check, bind, try_except, ret, redis_ping, redis_command.
  destruct (_client self) as [client|]; [|reflexivity].
  destruct (rfault (redis_server w) (rtick (redis_server w))); reflexivity.
Qed.

Lemma get_cache_service_eq w :
  get_cache_service w = (Ok (current_service w), ensure_service w).
Proof.
  unfold get_cache_service, bind, gets, modify, ret, current_service, ensure_service.
  destruct (_cache_service w); reflexivity.
Qed.

Lemma CacheService_connect_eq self w :
  CacheService_connect self w =
  let pool := ConnectionPool_from_url in
  (match rfault (redis_server w) (rtick (redis_server w)) with
   | None => Ok tt
   | Some k => Raise (RedisError k)
   end,
   server_next (rdata (redis_server w))
     match _cache_service w with
     | Some _ =>
         set_cache_service
           (Some {| _pool := Some pool; _client := Some {| connection_pool := pool |} |}) w
     | None => w
     end).
Proof.
  unfold CacheService_connect, try_except, bind, set_self, modify, redis_ping,
    redis_command, ret, raise.
  destruct (_cache_service w) eqn:E; cbn; rewrite ?E; cbn;
    destruct (rfault (redis_server w) (rtick (redis_server w))); reflexivity.
Qed.

Lemma current_service_ensure w : current_service (ensure_service w) = current_service w.
Proof. unfold current_service, ensure_service. destruct (_cache_service w) eqn:E; cbn; now rewrite ?E. Qed.

Lemma cache_only_refl w : cache_only w w.
Proof. split; auto. Qed.

Lemma cache_only_trans w1 w2 w3 :
  cache_only w1 w2 -> cache_only w2 w3 -> cache_only w1 w3.
Proof.
  intros [] []. split; try congruence. lia.
Qed.

Lemma cache_only_ensure w : cache_only w (ensure_service w).
Proof.
  split; [| | | |now rewrite current_service_ensure];
    unfold ensure_service; destruct (_cache_service w); cbn; auto.
Qed.

Lemma cache_only_event ev w : cache_only w (add_event ev w).
Proof. split; auto. Qed.

Lemma cache_only_command ev data w : cache_only w (server_next data (add_event ev w)).
Proof. split; cbn; auto. Qed.

Lemma cache_get_call_Ok key w :
  exists v, (cache_get_call key w).1 = Ok v.
Proof.
  unfold cache_get_call. rewrite CacheService_get_eq.
  destruct (_client _); cbn; eauto.
Qed.

Lemma cache_set_call_Ok key value ttl w :
  exists b, (cache_set_call key value ttl w).1 = Ok b.
Proof.
  unfold cache_set_call. rewrite CacheService_set_eq. cbv zeta.
  destruct (_client _); [|cbn; eauto].
  destruct (dumps_text value); [|cbn; eauto].
  destruct (rfault _ _); [cbn; eauto|].
  destruct (ttl_given ttl) as [t|]; [|cbn; eauto].
  destruct (t <=? 0)%Z; cbn; eauto.
Qed.

Lemma cache_delete_call_Ok key w :
  exists b, (cache_delete_call key w).1 = Ok b.
Proof.
  unfold cache_delete_call. rewrite CacheService_delete_eq. cbv zeta.
  destruct (_client _); [|cbn; eauto].
  destruct (rfault _ _); cbn; eauto.
Qed.

Lemma cache_get_call_only key w : cache_only w (cache_get_call key w).2.
Proof.
  unfold cache_get_call. rewrite CacheService_get_eq.
  eapply cache_only_trans; [apply cache_only_ensure|].
  destruct (_client _); [apply cache_only_command|apply cache_only_event].
Qed.

Lemma cache_set_call_only key value ttl w : cache_only w (cache_set_call key value ttl w).2.
Proof.
  unfold cache_set_call. rewrite CacheService_set_eq. cbv zeta.
  eapply cache_only_trans; [apply cache_only_ensure|].
  destruct (_client _); [|apply cache_only_event].
  destruct (dumps_text value); [|apply cache_only_event].
  destruct (rfault _ _); [apply cache_only_command|].
  destruct (ttl_given ttl) as [t|]; [|apply cache_only_command].
  destruct (t <=? 0)%Z; apply cache_only_command.
Qed.

Lemma cache_delete_call_only key w : cache_only w (cache_delete_call key w).2.
Proof.
  unfold cache_delete_call. rewrite CacheService_delete_eq. cbv zeta.
  eapply cache_only_trans; [apply cache_only_ensure|].
  destruct (_client _); [|apply cache_only_event].
  destruct (rfault _ _); apply cache_only_command.
Qed.

Lemma trace_ensure w : trace (ensure_service w) = trace w.
Proof. unfold ensure_service. destruct (_cache_service w); reflexivity. Qed.

Lemma cache_get_call_trace key w :
  trace (cache_get_call key w).2 = trace w ++ [EvCacheGet key].
Proof.
  unfold cache_get_call. rewrite CacheService_get_eq.
  destruct (_client _); cbn; now rewrite trace_ensure.
Qed.

Lemma cache_set_call_trace key value ttl w :
  trace (cache_set_call key value ttl w).2 = trace w ++ [EvCacheSet key value ttl].
Proof.
  unfold cache_set_call. rewrite CacheService_set_eq. cbv zeta.
  destruct (_client _); [|cbn; now rewrite trace_ensure].
  destruct (dumps_text value); [|cbn; now rewrite trace_ensure].
  destruct (rfault _ _); [cbn; now rewrite trace_ensure|].
  destruct (ttl_given ttl) as [t|]; [|cbn; now rewrite trace_ensure].
  destruct (t <=? 0)%Z; cbn; now rewrite trace_ensure.
Qed.

Lemma cache_delete_call_trace key w :
  trace (cache_delete_call key w).2 = trace w ++ [EvCacheDelete key].
Proof.
  unfold cache_delete_call. rewrite CacheService_delete_eq. cbv zeta.
  destruct (_client _); [|cbn; now rewrite trace_ensure].
  destruct (rfault _ _); cbn; now rewrite trace_ensure.
Qed.

Lemma cache_get_call_eq key w :
  cache_get_call key w = (Ok (cache_get_value key w), cache_get_world key w).
Proof.
  unfold cache_get_value, cache_get_world.
  destruct (cache_get_call_Ok key w) as [v Hv].
  destruct (cache_get_call key w) as [r w']; cbn in *. now subst.
Qed.

Lemma cache_set_call_eq key value ttl w :
  exists b, cache_set_call key value ttl w = (Ok b, cache_set_world key value ttl w).
Proof.
  unfold cache_set_world.
  destruct (cache_set_call_Ok key value ttl w) as [b Hb]. exists b.
  destruct (cache_set_call key value ttl w) as [r w']; cbn in *. now subst.
Qed.

Lemma cache_delete_call_eq key w :
  exists b, cache_delete_call key w = (Ok b, cache_delete_world key w).
Proof.
  unfold cache_delete_world.
  destruct (cache_delete_call_Ok key w) as [b Hb]. exists b.
  destruct (cache_delete_call key w) as [r w']; cbn in *. now subst.
Qed.

Lemma ensure_service_some w service :
  _cache_service w = Some service -> ensure_service w = w.
Proof. intros H. unfold ensure_service. now rewrite H. Qed.

Lemma service_ensure w : _cache_service (ensure_service w) = Some (current_service w).
Proof. unfold ensure_service, current_service. destruct (_cache_service w) eqn:E; cbn; auto. Qed.

Lemma service_cache_delete_world key w :
  _cache_service (cache_delete_world key w) = Some (current_service w).
Proof.
  unfold cache_delete_world, cache_delete_call. rewrite CacheService_delete_eq. cbv zeta.
  destruct (_client _); [destruct (rfault _ _)|]; cbn; apply service_ensure.
Qed.

(** *** Closed forms of the handlers *)

Lemma _get_from_cache_eq item_id w :
  _get_from_cache item_id w =
  let cached := cache_get_value (_get_cache_key item_id) w in
  let w1 := cache_get_world (_get_cache_key item_id) w in
  if truthy cached then (Ok cached, count_cache_hit "get_item" w1)
  else (Ok PyNone, count_cache_miss "get_item" w1).
Proof.
  unfold _get_from_cache.
  rewrite (bind_Ok _ _ _ _ _ (get_cache_service_eq w)).
  pose proof (cache_get_call_eq (_get_cache_key item_id) w) as Hg.
  unfold cache_get_call in Hg.
  rewrite (bind_Ok _ _ _ _ _ Hg). cbv zeta.
  destruct (truthy _); reflexivity.
Qed.

Lemma _set_in_cache_eq item_id item w :
  _set_in_cache item_id item w = (Ok tt, cached_item item_id item w).
Proof.
  unfold _set_in_cache.
  rewrite (bind_Ok _ _ _ _ _ (get_cache_service_eq w)).
  destruct (cache_set_call_eq (_get_cache_key item_id) (PyDict item) (Some CACHE_TTL) w)
    as [b Hb].
  unfold cache_set_call in Hb.
  now rewrite (bind_Ok _ _ _ _ _ Hb).
Qed.

(** [cache = await get_cache_service(); await cache.delete(key)] in front of
    the rest [k] of a handler. *)
Lemma invalidate_eq {A} key (k : M A) w :
  (let* cache := get_cache_service in do CacheService_delete cache key then k) w =
  k (cache_delete_world key w).
Proof.
  rewrite (bind_Ok _ _ _ _ _ (get_cache_service_eq w)).
  destruct (cache_delete_call_eq key w) as [b Hb].
  unfold cache_delete_call in Hb.
  now rewrite (bind_Ok _ _ _ _ _ Hb).
Qed.

Lemma _delete_from_cache_eq item_id w :
  _delete_from_cache item_id w =
  (Ok tt, cache_delete_world ITEMS_LIST_KEY (cache_delete_world (_get_cache_key item_id) w)).
Proof.
  unfold _delete_from_cache.
  rewrite (bind_Ok _ _ _ _ _ (get_cache_service_eq w)).
  destruct (cache_delete_call_eq (_get_cache_key item_id) w) as [b Hb].
  unfold cache_delete_call in Hb.
  rewrite (bind_Ok _ _ _ _ _ Hb).
  pose proof (service_cache_delete_world (_get_cache_key item_id) w) as Hs.
  assert (Hc : CacheService_delete (current_service w) ITEMS_LIST_KEY
                 (cache_delete_world (_get_cache_key item_id) w)
               = cache_delete_call ITEMS_LIST_KEY
                   (cache_delete_world (_get_cache_key item_id) w)).
  { unfold cache_delete_call. rewrite (ensure_service_some _ _ Hs).
    unfold current_service at 2. now rewrite Hs. }
  destruct (cache_delete_call_eq ITEMS_LIST_KEY
              (cache_delete_world (_get_cache_key item_id) w)) as [b' Hb'].
  rewrite <- Hc in Hb'.
  now rewrite (bind_Ok _ _ _ _ _ Hb').
Qed.

Lemma db_store_eq item_id item_data w :
  db_store item_id item_data w = (Ok tt, stored item_id item_data w).
Proof. reflexivity. Qed.

Lemma db_remove_eq item_id w : db_remove item_id w = (Ok tt, removed item_id w).
Proof. reflexivity. Qed.

Lemma create_item_eq uuid4 utcnow item w :
  create_item uuid4 utcnow item w =
  let item_data := new_item_data uuid4 utcnow item in
  ItemResponse_kwargs (PyDict item_data)
    (count_item_created
       (cache_delete_world ITEMS_LIST_KEY
          (cached_item uuid4 item_data (stored uuid4 item_data w)))).
Proof.
  unfold create_item. cbv zeta.
  rewrite (bind_Ok _ _ _ _ _ (db_store_eq _ _ w)).
  rewrite (bind_Ok _ _ _ _ _ (_set_in_cache_eq _ _ _)).
  rewrite invalidate_eq. reflexivity.
Qed.

Lemma get_item_eq item_id w :
  get_item item_id w =
  let cached := cache_get_value (_get_cache_key item_id) w in
  let w1 := cache_get_world (_get_cache_key item_id) w in
  if truthy cached then
    ItemResponse_kwargs cached (count_cache_hit "get_item" w1)
  else
    let w2 := count_cache_miss "get_item" w1 in
    match dict_get item_id (_items_db w2) with
    | None => (Raise (not_found item_id), w2)
    | Some item_data =>
        ItemResponse_kwargs (PyDict item_data) (cached_item item_id item_data w2)
    end.
Proof.
  unfold get_item. cbv zeta.
  pose proof (_get_from_cache_eq item_id w) as H. cbv zeta in H.
  destruct (truthy (cache_get_value (_get_cache_key item_id) w)) eqn:Ht.
  - rewrite (bind_Ok _ _ _ _ _ H). now rewrite Ht.
  - rewrite (bind_Ok _ _ _ _ _ H). cbn [truthy].
    unfold bind at 1, gets at 1, dict_contains, db_lookup.
    destruct (dict_get item_id _) as [item_data|] eqn:Hg; cbn [negb].
    + unfold bind at 1, bind at 1, gets. rewrite Hg. unfold ret at 1.
      now rewrite (bind_Ok _ _ _ _ _ (_set_in_cache_eq _ _ _)).
    + reflexivity.
Qed.

Lemma update_item_eq item_id utcnow item w :
  update_item item_id utcnow item w =
  match dict_get item_id (_items_db w) with
  | None => (Raise (not_found item_id), w)
  | Some item_data0 =>
      let item_data := updated_item_data utcnow item item_data0 in
      ItemResponse_kwargs (PyDict item_data)
        (cache_delete_world ITEMS_LIST_KEY
           (cached_item item_id item_data (stored item_id item_data w)))
  end.
Proof.
  unfold update_item, dict_contains, db_lookup.
  unfold bind at 1, gets at 1.
  destruct (dict_get item_id (_items_db w)) as [item_data0|] eqn:Hg; cbn [negb];
    [|reflexivity].
  unfold bind at 1, bind at 1, gets. rewrite Hg. unfold ret at 1.
  rewrite (bind_Ok _ _ _ _ _ (db_store_eq _ _ w)).
  rewrite (bind_Ok _ _ _ _ _ (_set_in_cache_eq _ _ _)).
  rewrite invalidate_eq. reflexivity.
Qed.

Lemma delete_item_eq item_id w :
  delete_item item_id w =
  match dict_get item_id (_items_db w) with
  | None => (Raise (not_found item_id), w)
  | Some _ =>
      (Ok tt,
       count_item_deleted
         (cache_delete_world ITEMS_LIST_KEY
            (cache_delete_world (_get_cache_key item_id) (removed item_id w))))
  end.
Proof.
  unfold delete_item, dict_contains.
  unfold bind at 1, gets at 1.
  destruct (dict_get item_id (_items_db w)) as [item_data0|] eqn:Hg; cbn [negb];
    [|reflexivity].
  rewrite (bind_Ok _ _ _ _ _ (db_remove_eq _ w)).
  rewrite (bind_Ok _ _ _ _ _ (_delete_from_cache_eq _ _)).
  reflexivity.
Qed.

(** *** What the handlers' steps leave alone *)

Lemma drift_refl w : drift w w.
Proof. split; auto. Qed.

Lemma drift_trans w1 w2 w3 : drift w1 w2 -> drift w2 w3 -> drift w1 w3.
Proof. intros [] []. split; try congruence. lia. Qed.

Lemma cache_only_drift w w' : cache_only w w' -> drift w w'.
Proof. intros []. split; auto. Qed.

Lemma drift_stored item_id item w : drift w (stored item_id item w).
Proof. split; auto. Qed.

Lemma drift_removed item_id w : drift w (removed item_id w).
Proof. split; auto. Qed.

Lemma drift_count_cache_hit op w : drift w (count_cache_hit op w).
Proof. split; auto. Qed.

Lemma drift_count_cache_miss op w : drift w (count_cache_miss op w).
Proof. split; auto. Qed.

Lemma drift_count_item_created w : drift w (count_item_created w).
Proof. split; auto. Qed.

Lemma drift_count_item_deleted w : drift w (count_item_deleted w).
Proof. split; auto. Qed.

Lemma drift_cache_get_world key w : drift w (cache_get_world key w).
Proof. apply cache_only_drift, cache_get_call_only. Qed.

Lemma drift_cache_set_world key value ttl w : drift w (cache_set_world key value ttl w).
Proof. apply cache_only_drift, cache_set_call_only. Qed.

Lemma drift_cache_delete_world key w : drift w (cache_delete_world key w).
Proof. apply cache_only_drift, cache_delete_call_only. Qed.

Lemma drift_cached_item item_id item w : drift w (cached_item item_id item w).
Proof. apply drift_cache_set_world. Qed.

Create HintDb world discriminated.
#[local] Hint Resolve drift_refl drift_stored drift_removed drift_count_cache_hit
  drift_count_cache_miss drift_count_item_created drift_count_item_deleted
  drift_cache_get_world drift_cache_set_world drift_cache_delete_world
  drift_cached_item : world.

Ltac drift_chain :=
  repeat first
    [ apply drift_refl
    | eapply drift_trans; [|solve [eauto with world]] ].

Lemma db_cache_get_world key w : _items_db (cache_get_world key w) = _items_db w.
Proof. apply (co_db _ _ (cache_get_call_only key w)). Qed.

Lemma db_cache_set_world key value ttl w :
  _items_db (cache_set_world key value ttl w) = _items_db w.
Proof. apply (co_db _ _ (cache_set_call_only key value ttl w)). Qed.

Lemma db_cache_delete_world key w : _items_db (cache_delete_world key w) = _items_db w.
Proof. apply (co_db _ _ (cache_delete_call_only key w)). Qed.

Lemma db_cached_item item_id item w : _items_db (cached_item item_id item w) = _items_db w.
Proof. apply db_cache_set_world. Qed.

Lemma db_stored item_id item w :
  _items_db (stored item_id item w) = dict_set item_id item (_items_db w).
Proof. reflexivity. Qed.

Lemma db_removed item_id w : _items_db (removed item_id w) = dict_del item_id (_items_db w).
Proof. reflexivity. Qed.

Lemma db_count_cache_hit op w : _items_db (count_cache_hit op w) = _items_db w.
Proof. reflexivity. Qed.

Lemma db_count_cache_miss op w : _items_db (count_cache_miss op w) = _items_db w.
Proof. reflexivity. Qed.

Lemma db_count_item_created w : _items_db (count_item_created w) = _items_db w.
Proof. reflexivity. Qed.

Lemma db_count_item_deleted w : _items_db (count_item_deleted w) = _items_db w.
Proof. reflexivity. Qed.

Create Rewrite HintDb db.
#[local] Hint Rewrite db_cache_get_world db_cache_set_world db_cache_delete_world
  db_cached_item db_stored db_removed db_count_cache_hit db_count_cache_miss
  db_count_item_created db_count_item_deleted : db.

Lemma trace_cached_item item_id item w :
  trace (cached_item item_id item w) =
  trace w ++ [EvCacheSet (_get_cache_key item_id) (PyDict item) (Some CACHE_TTL)].
Proof. apply cache_set_call_trace. Qed.

Lemma trace_cache_delete_world key w :
  trace (cache_delete_world key w) = trace w ++ [EvCacheDelete key].
Proof. apply cache_delete_call_trace. Qed.

Lemma trace_cache_get_world key w :
  trace (cache_get_world key w) = trace w ++ [EvCacheGet key].
Proof. apply cache_get_call_trace. Qed.

Lemma trace_stored item_id item w :
  trace (stored item_id item w) = trace w ++ [EvDbWrite item_id item].
Proof. reflexivity. Qed.

Lemma trace_removed item_id w : trace (removed item_id w) = trace w ++ [EvDbDelete item_id].
Proof. reflexivity. Qed.

Lemma trace_count_cache_hit op w : trace (count_cache_hit op w) = trace w.
Proof. reflexivity. Qed.

Lemma trace_count_cache_miss op w : trace (count_cache_miss op w) = trace w.
Proof. reflexivity. Qed.

Lemma trace_count_item_created w : trace (count_item_created w) = trace w.
Proof. reflexivity. Qed.

Lemma trace_count_item_deleted w : trace (count_item_deleted w) = trace w.
Proof. reflexivity. Qed.

Create Rewrite HintDb trace.
#[local] Hint Rewrite trace_cached_item trace_cache_delete_world trace_cache_get_world
  trace_stored trace_removed trace_count_cache_hit trace_count_cache_miss
  trace_count_item_created trace_count_item_deleted : trace.

(** The response constructor never changes the state. *)
Lemma ItemResponse_kwargs_world v w : (ItemResponse_kwargs v w).2 = w.
Proof.
  unfold ItemResponse_kwargs.
  destruct v; try reflexivity. destruct (validate_response d); reflexivity.
Qed.

Lemma ItemResponse_kwargs_result v w w' :
  (ItemResponse_kwargs v w).1 = (ItemResponse_kwargs v w').1.
Proof.
  unfold ItemResponse_kwargs.
  destruct v; try reflexivity. destruct (validate_response d); reflexivity.
Qed.

(** *** The server after a call of the cache client *)

Lemma server_ensure w : redis_server (ensure_service w) = redis_server w.
Proof. unfold ensure_service. destruct (_cache_service w); reflexivity. Qed.

Lemma cache_get_value_eq key w :
  cache_get_value key w =
  match _client (current_service w),
        rfault (redis_server w) (rtick (redis_server w)) with
  | Some _, None => decoded key (rdata (redis_server w))
  | _, _ => PyNone
  end.
Proof.
  unfold cache_get_value, cache_get_call. rewrite CacheService_get_eq, server_ensure.
  destruct (_client _); [destruct (rfault _ _)|]; reflexivity.
Qed.

Lemma rdata_cache_get_world key w :
  rdata (redis_server (cache_get_world key w)) = rdata (redis_server w).
Proof.
  unfold cache_get_world, cache_get_call. rewrite CacheService_get_eq.
  destruct (_client _); cbn; now rewrite server_ensure.
Qed.

Lemma rtick_cache_get_world key w :
  rtick (redis_server (cache_get_world key w)) =
  match _client (current_service w) with
  | Some _ => S (rtick (redis_server w))
  | None => rtick (redis_server w)
  end.
Proof.
  unfold cache_get_world, cache_get_call. rewrite CacheService_get_eq.
  destruct (_client _); cbn; now rewrite server_ensure.
Qed.

Lemma rdata_cache_set_world key value ttl w :
  rdata (redis_server (cache_set_world key value ttl w)) =
  match _client (current_service w), dumps_text value,
        rfault (redis_server w) (rtick (redis_server w)), ttl_given ttl with
  | Some _, Some text, None, Some t =>
      if (t <=? 0)%Z then rdata (redis_server w)
      else <[key := (text, Some t)]> (rdata (redis_server w))
  | Some _, Some text, None, None => <[key := (text, None)]> (rdata (redis_server w))
  | _, _, _, _ => rdata (redis_server w)
  end.
Proof.
  unfold cache_set_world, cache_set_call. rewrite CacheService_set_eq, server_ensure.
  cbv zeta.
  destruct (_client _); [|cbn; now rewrite server_ensure].
  destruct (dumps_text value); [|cbn; now rewrite server_ensure].
  destruct (rfault _ _); [reflexivity|].
  destruct (ttl_given ttl) as [t|]; [|reflexivity].
  destruct (t <=? 0)%Z; reflexivity.
Qed.

Lemma rdata_cache_delete_world key w :
  rdata (redis_server (cache_delete_world key w)) =
  match _client (current_service w),
        rfault (redis_server w) (rtick (redis_server w)) with
  | Some _, None => delete key (rdata (redis_server w))
  | _, _ => rdata (redis_server w)
  end.
Proof.
  unfold cache_delete_world, cache_delete_call.
  rewrite CacheService_delete_eq, server_ensure. cbv zeta.
  destruct (_client _); [|cbn; now rewrite server_ensure].
  destruct (rfault _ _); reflexivity.
Qed.

Lemma rtick_cache_delete_world key w :
  rtick (redis_server (cache_delete_world key w)) =
  match _client (current_service w) with
  | Some _ => S (rtick (redis_server w))
  | None => rtick (redis_server w)
  end.
Proof.
  unfold cache_delete_world, cache_delete_call.
  rewrite CacheService_delete_eq, server_ensure. cbv zeta.
  destruct (_client _); [|cbn; now rewrite server_ensure].
  destruct (rfault _ _); cbn; now rewrite server_ensure.
Qed.

(** A text the cache client has just stored is the serialization of the
    value it was given. *)
Lemma rdata_cache_set_world_inv key value ttl w key' text ttl' :
  rdata (redis_server (cache_set_world key value ttl w)) !! key' = Some (text, ttl') ->
  (key' = key /\ dumps_text value = Some text) \/
  rdata (redis_server w) !! key' = Some (text, ttl').
Proof.
  rewrite rdata_cache_set_world.
  destruct (_client _); [|auto].
  destruct (dumps_text value) as [t0|]; [|auto].
  destruct (rfault _ _); [auto|].
  destruct (ttl_given ttl) as [t|]; [destruct (t <=? 0)%Z; [auto|]|];
    (destruct (decide (key = key')) as [<-|Hne];
     [rewrite lookup_insert_eq; intros [= <- <-]; auto
     |rewrite lookup_insert_ne by done; auto]).
Qed.

Lemma rdata_cache_delete_world_inv key w key' entry :
  rdata (redis_server (cache_delete_world key w)) !! key' = Some entry ->
  rdata (redis_server w) !! key' = Some entry.
Proof.
  rewrite rdata_cache_delete_world.
  destruct (_client _); [|auto]. destruct (rfault _ _); [auto|].
  destruct (decide (key = key')) as [<-|Hne].
  - now rewrite lookup_delete_eq.
  - now rewrite lookup_delete_ne by done.
Qed.

(** No item key is the list key. *)
Lemma item_key_not_list_key item_id : _get_cache_key item_id <> ITEMS_LIST_KEY.
Proof.
  unfold _get_cache_key, CACHE_PREFIX, ITEMS_LIST_KEY. intros H.
  cbv in H. congruence.
Qed.

Lemma _get_cache_key_inj a b : _get_cache_key a = _get_cache_key b -> a = b.
Proof. unfold _get_cache_key, CACHE_PREFIX. intros H. cbv in H. congruence. Qed.

(** *** Calls of the cache client while the cache works *)

Lemma cache_up_now n w :
  cache_up (S n) w ->
  (exists client, _client (current_service w) = Some client) /\
  rfault (redis_server w) (rtick (redis_server w)) = None.
Proof.
  intros [Hc Hf]. split.
  - destruct (_client _); [eauto|congruence].
  - specialize (Hf 0%nat). rewrite Nat.add_0_r in Hf. apply Hf. lia.
Qed.

Lemma cache_up_after n w w' :
  cache_up (S n) w ->
  current_service w' = current_service w ->
  rfault (redis_server w') = rfault (redis_server w) ->
  rtick (redis_server w') = S (rtick (redis_server w)) ->
  cache_up n w'.
Proof.
  intros [Hc Hf] Hs Hr Ht. split; [now rewrite Hs|].
  intros i Hi. rewrite Hr, Ht.
  replace (S (rtick (redis_server w)) + i)%nat with (rtick (redis_server w) + S i)%nat by lia.
  apply Hf. lia.
Qed.

Lemma cache_up_get n key w :
  cache_up (S n) w ->
  cache_get_value key w = decoded key (rdata (redis_server w)) /\
  cache_up n (cache_get_world key w).
Proof.
  intros Hup. destruct (cache_up_now _ _ Hup) as [[client Hc] Hf]. split.
  - now rewrite cache_get_value_eq, Hc, Hf.
  - destruct (drift_cache_get_world key w).
    eapply cache_up_after; eauto. now rewrite rtick_cache_get_world, Hc.
Qed.

Lemma cache_up_set n key value text t w :
  cache_up (S n) w ->
  dumps_text value = Some text ->
  (0 < t)%Z ->
  rdata (redis_server (cache_set_world key value (Some t) w)) =
    <[key := (text, Some t)]> (rdata (redis_server w)).
Proof.
  intros Hup Hd Ht. destruct (cache_up_now _ _ Hup) as [[client Hc] Hf].
  rewrite rdata_cache_set_world, Hc, Hd, Hf. cbn.
  destruct (t =? 0)%Z eqn:E; [lia|].
  destruct (t <=? 0)%Z eqn:E'; [lia|reflexivity].
Qed.

Lemma cache_up_delete n key w :
  cache_up (S n) w ->
  rdata (redis_server (cache_delete_world key w)) = delete key (rdata (redis_server w)) /\
  cache_up n (cache_delete_world key w).
Proof.
  intros Hup. destruct (cache_up_now _ _ Hup) as [[client Hc] Hf]. split.
  - now rewrite rdata_cache_delete_world, Hc, Hf.
  - destruct (drift_cache_delete_world key w).
    eapply cache_up_after; eauto. now rewrite rtick_cache_delete_world, Hc.
Qed.

(** *** Pagination *)

Lemma py_slice_page {A} (l : list A) (page page_size : Z) :
  (1 <= page)%Z -> (1 <= page_size)%Z ->
  py_slice l ((page - 1) * page_size) ((page - 1) * page_size + page_size) =
  page_slice page page_size l.
Proof.
  intros Hp Hs. unfold py_slice, page_slice.
  set (start := ((page - 1) * page_size)%Z).
  assert (Hstart : (0 <= start)%Z) by (unfold start; nia).
  destruct (start <? 0)%Z eqn:E1; [lia|].
  destruct (start + page_size <? 0)%Z eqn:E2; [lia|].
  destruct (Z_lt_le_dec start (Z.of_nat (length l))) as [Hlt|Hge].
  - rewrite (Z.min_l start) by lia.
    destruct (Z_le_gt_dec (start + page_size) (Z.of_nat (length l))) as [Hle|Hgt].
    + rewrite Z.min_l by lia. f_equal. lia.
    + rewrite Z.min_r by lia.
      rewrite !firstn_all2; auto; rewrite length_skipn; lia.
  - rewrite (Z.min_r start) by lia. rewrite Z.min_r by lia.
    rewrite !skipn_all2 by lia. now rewrite !firstn_nil.
Qed.

Lemma ceil_div_floor (a b : Z) :
  (0 <= a)%Z -> (1 <= b)%Z -> ((a + b - 1) / b)%Z = ceil_div a b.
Proof.
  intros Ha Hb. unfold ceil_div.
  pose proof (Z.div_mod a b ltac:(lia)) as Hdm.
  pose proof (Z.mod_pos_bound a b ltac:(lia)) as Hm.
  destruct (a mod b =? 0)%Z eqn:E.
  - apply Z.eqb_eq in E. symmetry.
    apply (Z.div_unique_pos _ _ _ (b - 1)); lia.
  - apply Z.eqb_neq in E. symmetry.
    apply (Z.div_unique_pos _ _ _ (a mod b - 1)); lia.
Qed.

(** [ceil_div a b] is the least number of pages of size [b] that hold [a]
    items. *)
Lemma ceil_div_bounds (a b : Z) :
  (0 < a)%Z -> (1 <= b)%Z ->
  ((ceil_div a b - 1) * b < a <= ceil_div a b * b)%Z.
Proof.
  intros Ha Hb. unfold ceil_div.
  pose proof (Z.div_mod a b ltac:(lia)) as Hdm.
  pose proof (Z.mod_pos_bound a b ltac:(lia)) as Hm.
  destruct (a mod b =? 0)%Z eqn:E.
  - apply Z.eqb_eq in E. nia.
  - apply Z.eqb_neq in E. nia.
Qed.

Lemma mapM_ItemResponse_kwargs l w :
  mapM (fun item => ItemResponse_kwargs (PyDict item)) l w = (entity_replies l, w).
Proof.
  revert w. induction l as [|e l IH]; intros w; cbn; [reflexivity|].
  unfold bind at 1, entity_reply.
  destruct (validate_response e) as [r|]; cbn; [|reflexivity].
  unfold bind at 1. rewrite IH.
  destruct (entity_replies l); reflexivity.
Qed.

Lemma list_items_eq page page_size w :
  list_items page page_size w = (store_only_list page page_size (_items_db w), w).
Proof.
  unfold list_items, store_only_list.
  destruct ((1 <=? page)%Z && (1 <=? page_size)%Z && (page_size <=? 100)%Z) eqn:Hq;
    cbn [negb]; [|reflexivity].
  apply andb_prop in Hq as [Hq H3]. apply andb_prop in Hq as [H1 H2].
  apply Z.leb_le in H1, H2.
  unfold bind at 1, gets at 1. cbv zeta.
  rewrite py_slice_page by lia.
  unfold bind at 1. rewrite mapM_ItemResponse_kwargs.
  destruct (entity_replies _); [|reflexivity].
  unfold ret. do 2 f_equal.
  set (total := Z.of_nat (length (dict_values (_items_db w)))).
  destruct (0 <? total)%Z eqn:E.
  - apply Z.ltb_lt in E. destruct (total =? 0)%Z eqn:E0; [lia|].
    now rewrite ceil_div_floor by lia.
  - apply Z.ltb_ge in E. destruct (total =? 0)%Z eqn:E0; [reflexivity|]. lia.
Qed.

Lemma entity_replies_Forall2 l :
  Forall (fun d => validate_response d <> None) l ->
  exists rs, entity_replies l = Ok rs /\
             Forall2 (fun d r => validate_response d = Some r) l rs.
Proof.
  induction 1 as [|e l He Hl (rs & E & IH)]; cbn.
  - exists []. split; [reflexivity|constructor].
  - unfold entity_reply. destruct (validate_response e) as [r|] eqn:Hv; [|congruence].
    rewrite E. exists (r :: rs). split; [reflexivity|]. now constructor.
Qed.

(** *** The merge of a partial update *)

Lemma dict_get_not_key {V} k (d : list (string * V)) :
  ~ In k (List.map fst d) -> dict_get k d = None.
Proof.
  induction d as [|[k' v'] d IH]; cbn; [reflexivity|].
  intros H. destruct (String.eqb k k') eqn:E.
  - apply String.eqb_eq in E. subst. tauto.
  - apply IH. tauto.
Qed.

Lemma dict_get_apply_update k update_data item_data :
  List.NoDup (List.map fst update_data) ->
  dict_get k (apply_update update_data item_data) =
  match dict_get k update_data with
  | Some v => Some v
  | None => dict_get k item_data
  end.
Proof.
  unfold apply_update. revert item_data.
  induction update_data as [|[k0 v0] u IH]; intros item_data Hnd; cbn; [reflexivity|].
  inversion Hnd as [|? ? Hnotin Hnd']; subst.
  rewrite IH by assumption.
  destruct (String.eqb k k0) eqn:E.
  - apply String.eqb_eq in E. subst k0.
    rewrite (dict_get_not_key _ _ Hnotin). apply dict_get_set_eq.
  - apply String.eqb_neq in E.
    destruct (dict_get k u); [reflexivity|].
    apply dict_get_set_ne. congruence.
Qed.

Lemma model_dump_exclude_unset_NoDup item :
  List.NoDup (List.map fst (ItemUpdate.model_dump_exclude_unset item)).
Proof.
  destruct item as [n d p q t]. unfold ItemUpdate.model_dump_exclude_unset.
  cbn [ItemUpdate.name ItemUpdate.description ItemUpdate.price ItemUpdate.quantity
       ItemUpdate.tags].
  destruct n as [[?|]|], d as [[?|]|], p as [[?|]|], q as [[?|]|], t as [[?|]|];
    cbn; repeat (constructor; [cbn; intuition discriminate|]); constructor.
Qed.

Lemma model_dump_exclude_unset_updated_at item :
  dict_get "updated_at" (ItemUpdate.model_dump_exclude_unset item) = None.
Proof.
  destruct item as [n d p q t]. unfold ItemUpdate.model_dump_exclude_unset.
  cbn [ItemUpdate.name ItemUpdate.description ItemUpdate.price ItemUpdate.quantity
       ItemUpdate.tags].
  destruct n as [[?|]|], d as [[?|]|], p as [[?|]|], q as [[?|]|], t as [[?|]|];
    reflexivity.
Qed.

Lemma ItemResponse_kwargs_dict d w :
  ItemResponse_kwargs (PyDict d) w = (entity_reply d, w).
Proof.
  unfold ItemResponse_kwargs, entity_reply. destruct (validate_response d); reflexivity.
Qed.

Lemma update_item_found item_id utcnow item w item_data0 :
  dict_get item_id (_items_db w) = Some item_data0 ->
  let item_data := updated_item_data utcnow item item_data0 in
  update_item item_id utcnow item w =
  (entity_reply item_data,
   cache_delete_world ITEMS_LIST_KEY
     (cached_item item_id item_data (stored item_id item_data w))).
Proof.
  intros Hg. rewrite update_item_eq, Hg. cbv zeta. apply ItemResponse_kwargs_dict.
Qed.

Lemma create_item_reply uuid4 utcnow item w :
  create_item uuid4 utcnow item w =
  let item_data := new_item_data uuid4 utcnow item in
  (entity_reply item_data,
   count_item_created
     (cache_delete_world ITEMS_LIST_KEY
        (cached_item uuid4 item_data (stored uuid4 item_data w)))).
Proof. rewrite create_item_eq. cbv zeta. apply ItemResponse_kwargs_dict. Qed.

(** *** Runs in front of a failing cache *)

Lemma cache_down_drift w w' : cache_down w -> drift w w' -> cache_down w'.
Proof.
  intros [Hc|Hf] [Hfault Htick Hservice]; [left|right].
  - now rewrite Hservice.
  - intros n Hn. rewrite Hfault. apply Hf. lia.
Qed.

Lemma cache_down_fails w : cache_down w -> cache_fails w.
Proof.
  intros Hdown w' Hdrift key value ttl.
  pose proof (cache_down_drift _ _ Hdown Hdrift) as [Hc|Hf].
  - unfold cache_get_call, cache_set_call, cache_delete_call.
    rewrite CacheService_get_eq, CacheService_set_eq, CacheService_delete_eq, Hc.
    auto.
  - specialize (Hf _ (le_n _)).
    unfold cache_get_call, cache_set_call, cache_delete_call.
    rewrite CacheService_get_eq, CacheService_set_eq, CacheService_delete_eq.
    rewrite !server_ensure. cbv zeta.
    destruct (rfault _ _); [|congruence].
    destruct (_client _); [|auto].
    destruct (dumps_text value); auto.
Qed.

Lemma cache_fails_drift w w' : cache_fails w -> drift w w' -> cache_fails w'.
Proof.
  intros Hf Hd w'' Hd'. apply Hf. eapply drift_trans; eauto.
Qed.

Lemma cache_fails_get key w : cache_fails w -> cache_get_value key w = PyNone.
Proof.
  intros Hf. unfold cache_get_value.
  destruct (Hf w (drift_refl w) key PyNone None) as [-> _]. reflexivity.
Qed.

Lemma bind_ret_reply {A} (m : M A) (f : A -> Reply) w :
  (let* a := m in ret (f a)) w = (reply_of f (m w).1, (m w).2).
Proof. unfold bind, ret. destruct (m w) as [[a|e] w']; reflexivity. Qed.

Lemma handle_eq q w :
  handle q w =
  match q with
  | Create uuid4 utcnow item =>
      (reply_of Item (create_item uuid4 utcnow item w).1, (create_item uuid4 utcnow item w).2)
  | Read item_id => (reply_of Item (get_item item_id w).1, (get_item item_id w).2)
  | Update item_id utcnow item =>
      (reply_of Item (update_item item_id utcnow item w).1,
       (update_item item_id utcnow item w).2)
  | Delete item_id =>
      (reply_of (fun _ => NoContent) (delete_item item_id w).1, (delete_item item_id w).2)
  | List page page_size =>
      (reply_of ItemList (list_items page page_size w).1, (list_items page page_size w).2)
  end.
Proof. destruct q; apply bind_ret_reply. Qed.

(** One request in front of a failing cache: the reply and the new store are
    those of the record store alone. *)
Lemma handle_cache_fails q w :
  cache_fails w ->
  (handle q w).1 = (store_only q (_items_db w)).1 /\
  _items_db (handle q w).2 = (store_only q (_items_db w)).2 /\
  drift w (handle q w).2.
Proof.
  intros Hf. rewrite handle_eq. destruct q as [u t i|k|k t i|k|pg ps]; cbn [store_only].
  - rewrite create_item_reply. cbv zeta. unfold store_only_create. cbn [fst snd].
    autorewrite with db. split; [|split]; [reflexivity..|drift_chain].
  - rewrite get_item_eq. cbv zeta. rewrite (cache_fails_get _ _ Hf). cbn [truthy].
    autorewrite with db. unfold store_only_read.
    destruct (dict_get k (_items_db w)) as [item|].
    + rewrite ItemResponse_kwargs_dict. cbn [fst snd]. autorewrite with db.
      split; [|split]; [reflexivity..|drift_chain].
    + cbn [fst snd]. autorewrite with db. split; [|split]; [reflexivity..|drift_chain].
  - rewrite update_item_eq. unfold store_only_update.
    destruct (dict_get k (_items_db w)) as [item|].
    + cbv zeta. rewrite ItemResponse_kwargs_dict. cbn [fst snd]. autorewrite with db.
      split; [|split]; [reflexivity..|drift_chain].
    + cbn [fst snd]. split; [|split]; [reflexivity..|apply drift_refl].
  - rewrite delete_item_eq. unfold store_only_delete.
    destruct (dict_get k (_items_db w)) as [item|].
    + cbn [fst snd]. autorewrite with db. split; [|split]; [reflexivity..|drift_chain].
    + cbn [fst snd]. split; [|split]; [reflexivity..|apply drift_refl].
  - rewrite list_items_eq. cbn [fst snd]. split; [|split]; [reflexivity..|apply drift_refl].
Qed.

Lemma serve_cache_fails qs w :
  cache_fails w ->
  (serve qs w).1 = (store_only_serve qs (_items_db w)).1 /\
  _items_db (serve qs w).2 = (store_only_serve qs (_items_db w)).2.
Proof.
  revert w. induction qs as [|q qs IH]; intros w Hf; cbn; [auto|].
  destruct (handle_cache_fails q w Hf) as (Hr & Hdb & Hd).
  destruct (handle q w) as [r w1]. cbn [fst snd] in *.
  destruct (store_only q (_items_db w)) as [r' db1]. cbn [fst snd] in *. subst.
  destruct (IH w1 (cache_fails_drift _ _ Hf Hd)) as [Hrs Hdbs].
  destruct (serve qs w1) as [rs w2].
  destruct (store_only_serve qs (_items_db w1)) as [rs' db2]. cbn [fst snd] in *.
  now subst.
Qed.

Lemma entity_reply_no_cache_error e : ~ cache_error (entity_reply e).
Proof. unfold entity_reply. destruct (validate_response e); cbn; auto. Qed.

Lemma store_only_no_cache_error q db : ~ cache_error (store_only q db).1.
Proof.
  destruct q as [u t i|k|k t i|k|pg ps]; cbn.
  - unfold entity_reply. destruct (validate_response _); cbn; auto.
  - unfold store_only_read. destruct (dict_get k db); cbn; [|auto].
    unfold entity_reply. destruct (validate_response _); cbn; auto.
  - unfold store_only_update. destruct (dict_get k db); cbn; [|auto].
    unfold entity_reply. destruct (validate_response _); cbn; auto.
  - unfold store_only_delete. destruct (dict_get k db); cbn; auto.
  - unfold store_only_list.
    destruct ((1 <=? pg)%Z && (1 <=? ps)%Z && (ps <=? 100)%Z); cbn; [|auto].
    assert (H : forall l, match entity_replies l with
                          | Ok _ => True
                          | Raise x => x = ValidationError
                          end).
    { induction l as [|e l IH]; cbn; [auto|].
      unfold entity_reply. destruct (validate_response e); [|reflexivity].
      destruct (entity_replies l); auto. }
    specialize (H (page_slice pg ps (dict_values db))).
    destruct (entity_replies _); cbn; [auto|]. now subst.
Qed.

Lemma store_only_serve_no_cache_error qs db :
  Forall (fun r => ~ cache_error r) (store_only_serve qs db).1.
Proof.
  revert db. induction qs as [|q qs IH]; intros db; cbn; [constructor|].
  pose proof (store_only_no_cache_error q db) as Hq.
  destruct (store_only q db) as [r db1]. specialize (IH db1).
  destruct (store_only_serve qs db1) as [rs db2]. cbn in *. now constructor.
Qed.

Lemma CacheService_disconnect_eq self w :
  _cache_service w = Some self ->
  (CacheService_disconnect self w).1 = Ok tt /\
  _client (current_service (CacheService_disconnect self w).2) = None /\
  _items_db (CacheService_disconnect self w).2 = _items_db w.
Proof.
  intros Hs. unfold CacheService_disconnect, bind, set_self, modify, ret, current_service.
  destruct self as [[pool|] [client|]]; cbn; rewrite ?Hs; auto.
Qed.

Lemma close_cache_eq w :
  (close_cache w).1 = Ok tt /\
  current_service (close_cache w).2 = CacheService__init__ /\
  _items_db (close_cache w).2 = _items_db w.
Proof.
  unfold close_cache, bind, gets, modify, current_service.
  destruct (_cache_service w) as [self|] eqn:Hs; cbn; [|rewrite Hs; auto].
  unfold CacheService_disconnect, bind, set_self, modify, ret.
  destruct self as [[pool|] [client|]]; cbn; rewrite ?Hs; cbn; auto.
Qed.

(** *** The invariant of the reachable states *)

Lemma recorded_frame w w' :
  recorded w ->
  _items_db w' = _items_db w ->
  (exists l, trace w' = trace w ++ l) ->
  (forall key entry, rdata (redis_server w') !! key = Some entry ->
                     rdata (redis_server w) !! key = Some entry) ->
  recorded w'.
Proof.
  intros [Hs Hc] Hdb [l Ht] Hsub. split.
  - intros item_id item Hg. rewrite Ht. apply in_or_app. left.
    apply Hs. now rewrite <- Hdb.
  - intros key text ttl Hk. destruct (Hc _ _ _ (Hsub _ _ Hk)) as (i & it & ? & ? & ?).
    exists i, it. rewrite Ht. repeat split; auto. apply in_or_app. now left.
Qed.

Lemma recorded_stored item_id item w : recorded w -> recorded (stored item_id item w).
Proof.
  intros [Hs Hc]. split.
  - intros i it. rewrite db_stored, trace_stored. intros Hg. apply in_or_app.
    destruct (decide (item_id = i)) as [<-|Hne].
    + rewrite dict_get_set_eq in Hg. injection Hg as <-. right. now left.
    + rewrite dict_get_set_ne in Hg by assumption. left. now apply Hs.
  - intros key text ttl Hk. destruct (Hc _ _ _ Hk) as (i & it & ? & ? & ?).
    exists i, it. rewrite trace_stored. repeat split; auto. apply in_or_app. now left.
Qed.

Lemma recorded_removed item_id w : recorded w -> recorded (removed item_id w).
Proof.
  intros [Hs Hc]. split.
  - intros i it. rewrite db_removed, trace_removed. intros Hg. apply in_or_app. left.
    destruct (decide (item_id = i)) as [<-|Hne].
    + now rewrite dict_get_del_eq in Hg.
    + rewrite dict_get_del_ne in Hg by assumption. now apply Hs.
  - intros key text ttl Hk. destruct (Hc _ _ _ Hk) as (i & it & ? & ? & ?).
    exists i, it. rewrite trace_removed. repeat split; auto. apply in_or_app. now left.
Qed.

Lemma recorded_cached_item item_id item w :
  recorded w -> In (EvDbWrite item_id item) (trace w) ->
  recorded (cached_item item_id item w).
Proof.
  intros [Hs Hc] Hin. split.
  - intros i it. rewrite db_cached_item, trace_cached_item. intros Hg.
    apply in_or_app. left. now apply Hs.
  - intros key text ttl Hk. rewrite trace_cached_item.
    apply rdata_cache_set_world_inv in Hk as [[-> Hd]|Hk].
    + exists item_id, item. repeat split; auto. apply in_or_app. now left.
    + destruct (Hc _ _ _ Hk) as (i & it & ? & ? & ?).
      exists i, it. repeat split; auto. apply in_or_app. now left.
Qed.

Lemma recorded_cache_delete_world key w : recorded w -> recorded (cache_delete_world key w).
Proof.
  intros H. eapply recorded_frame; [exact H|apply db_cache_delete_world| |].
  - eexists. apply trace_cache_delete_world.
  - intros k e. apply rdata_cache_delete_world_inv.
Qed.

Lemma recorded_cache_get_world key w : recorded w -> recorded (cache_get_world key w).
Proof.
  intros H. eapply recorded_frame; [exact H|apply db_cache_get_world| |].
  - eexists. apply trace_cache_get_world.
  - intros k e. now rewrite rdata_cache_get_world.
Qed.

Lemma recorded_same w w' :
  recorded w ->
  _items_db w' = _items_db w -> trace w' = trace w ->
  rdata (redis_server w') = rdata (redis_server w) ->
  recorded w'.
Proof.
  intros H Hdb Ht Hr. eapply recorded_frame; [exact H|exact Hdb| |].
  - exists []. now rewrite app_nil_r.
  - intros k e. now rewrite Hr.
Qed.

Lemma recorded_count_item_created w : recorded w -> recorded (count_item_created w).
Proof. intros H. now apply (recorded_same w). Qed.

Lemma recorded_count_item_deleted w : recorded w -> recorded (count_item_deleted w).
Proof. intros H. now apply (recorded_same w). Qed.

Lemma recorded_count_cache_hit op w : recorded w -> recorded (count_cache_hit op w).
Proof. intros H. now apply (recorded_same w). Qed.

Lemma recorded_count_cache_miss op w : recorded w -> recorded (count_cache_miss op w).
Proof. intros H. now apply (recorded_same w). Qed.

Lemma recorded_handle q w : recorded w -> recorded (handle q w).2.
Proof.
  intros H. rewrite handle_eq. destruct q as [u t i|k|k t i|k|pg ps]; cbn [snd].
  - rewrite create_item_reply. cbv zeta. cbn [snd].
    apply recorded_count_item_created, recorded_cache_delete_world, recorded_cached_item.
    + now apply recorded_stored.
    + rewrite trace_stored. apply in_or_app. right. now left.
  - rewrite get_item_eq. cbv zeta.
    pose proof (recorded_cache_get_world (_get_cache_key k) w H) as Hg.
    destruct (truthy _).
    + rewrite ItemResponse_kwargs_world. now apply recorded_count_cache_hit.
    + assert (Hm : recorded (count_cache_miss "get_item"
                               (cache_get_world (_get_cache_key k) w)))
        by now apply recorded_count_cache_miss.
      destruct (dict_get k _) as [item|] eqn:Hk; cbn [snd]; [|exact Hm].
      rewrite ItemResponse_kwargs_world. apply recorded_cached_item; [exact Hm|].
      now apply (rec_store _ Hm).
  - rewrite update_item_eq. destruct (dict_get k (_items_db w)); [|exact H].
    cbv zeta. rewrite ItemResponse_kwargs_world.
    apply recorded_cache_delete_world, recorded_cached_item.
    + now apply recorded_stored.
    + rewrite trace_stored. apply in_or_app. right. now left.
  - rewrite delete_item_eq. destruct (dict_get k (_items_db w)); [|exact H].
    cbn [snd].
    now apply recorded_count_item_deleted, recorded_cache_delete_world,
      recorded_cache_delete_world, recorded_removed.
  - now rewrite list_items_eq.
Qed.

Lemma init_cache_same w :
  _items_db (init_cache w).2 = _items_db w /\
  trace (init_cache w).2 = trace w /\
  rdata (redis_server (init_cache w).2) = rdata (redis_server w).
Proof.
  unfold init_cache. rewrite (bind_Ok _ _ _ _ _ (get_cache_service_eq w)).
  unfold bind, gets. rewrite CacheService_connect_eq. cbv zeta.
  rewrite server_ensure, service_ensure.
  destruct (rfault _ _); cbn;
    unfold ensure_service; destruct (_cache_service w); cbn; auto.
Qed.

Lemma close_cache_same w :
  _items_db (close_cache w).2 = _items_db w /\
  trace (close_cache w).2 = trace w /\
  rdata (redis_server (close_cache w).2) = rdata (redis_server w).
Proof.
  unfold close_cache, bind, gets, modify.
  destruct (_cache_service w) as [self|] eqn:Hs; cbn; [|auto].
  unfold CacheService_disconnect, bind, set_self, modify, ret.
  destruct self as [[pool|] [client|]]; cbn; rewrite ?Hs; cbn; auto.
Qed.

Lemma recorded_step w w' : recorded w -> step w w' -> recorded w'.
Proof.
  intros H Hstep. destruct Hstep as [q w|w|w|key w].
  - now apply recorded_handle.
  - destruct (init_cache_same w) as (? & ? & ?). now apply (recorded_same w).
  - destruct (close_cache_same w) as (? & ? & ?). now apply (recorded_same w).
  - eapply recorded_frame; [exact H|reflexivity|exists []; now rewrite app_nil_r|].
    intros k e. cbn. destruct (decide (key = k)) as [<-|Hne].
    + now rewrite lookup_delete_eq.
    + now rewrite lookup_delete_ne by done.
Qed.

Lemma recorded_initial w : initial w -> recorded w.
Proof.
  intros (Hdb & _ & Hr & _). split.
  - intros i it. now rewrite Hdb.
  - intros k t ttl. now rewrite Hr, lookup_empty.
Qed.

Lemma reachable_recorded w : reachable w -> recorded w.
Proof.
  induction 1 as [w Hi|w w' _ IH Hs].
  - now apply recorded_initial.
  - eapply recorded_step; eauto.
Qed.

(** ** The claims *)

(** C9, as the code has it. The cache entry of the item with identifier
    [item_id] is written under the key made of the prefix [item:] and the
    identifier, with the fixed expiry of 3600 seconds, and the key the
    handlers invalidate for the list view is the literal [items:list]. *)
Theorem cache_keys (item_id : string) :
  _get_cache_key item_id = "item:" +:+ item_id /\
  ITEMS_LIST_KEY = "items:list" /\
  forall item w,
    exists w',
      _set_in_cache item_id item w = (Ok tt, w') /\
      trace w' = trace w ++ [EvCacheSet ("item:" +:+ item_id) (PyDict item) (Some 3600%Z)].
Proof.
  repeat split.
  intros item w. eexists. split; [apply _set_in_cache_eq|].
  now rewrite trace_cached_item.
Qed.

(** The failures the cache client absorbs. For every key, every tree
    value and every state of the server, each operation (get, set, delete,
    exists, health_check) answers a value; when the client is not
    connected, when the server fails the command (a transport error or a
    timeout), when the stored text does not decode (get) or when the value
    is an object [json.dumps] cannot encode (set), the answer is the
    operation's failure value: absent for get, false for the others. *)
Theorem cache_client_total
    (self : CacheService) (key : string) (value : pyval) (ttl : option Z) (w : World) :
  (exists v w',
      CacheService_get self key w = (Ok v, w') /\
      (_client self = None \/ transport_fault w \/ undecodable key w -> v = PyNone)) /\
  (exists b w',
      CacheService_set self key value ttl w = (Ok b, w') /\
      (_client self = None \/ transport_fault w \/ dumps_text value = None -> b = false)) /\
  (exists b w',
      CacheService_delete self key w = (Ok b, w') /\
      (_client self = None \/ transport_fault w -> b = false)) /\
  (exists b w',
      CacheService_exists self key w = (Ok b, w') /\
      (_client self = None \/ transport_fault w -> b = false)) /\
  (exists b w',
      CacheService_health_check self w = (Ok b, w') /\
      (_client self = None \/ transport_fault w -> b = false)).
Proof.
  unfold transport_fault, undecodable.
  repeat apply conj.
  - rewrite CacheService_get_eq.
    destruct (_client self) as [client|]; [|eauto].
    do 2 eexists. split; [reflexivity|].
    destruct (rfault _ _) as [k|]; [auto|].
    intros [H|[H|(text & t & Hk & Hl)]]; [discriminate|congruence|].
    unfold decoded. rewrite Hk, Hl. now destruct (String.eqb text "").
  - rewrite CacheService_set_eq. cbv zeta.
    destruct (_client self) as [client|]; [|eauto].
    destruct (dumps_text value) as [text|]; [|eauto].
    destruct (rfault _ _) as [k|]; [eauto|].
    destruct (ttl_given ttl) as [t|]; [destruct (t <=? 0)%Z; [eauto|]|];
      (do 2 eexists; split; [reflexivity|]; intros [H|[H|H]]; congruence).
  - rewrite CacheService_delete_eq. cbv zeta.
    destruct (_client self) as [client|]; [|eauto].
    destruct (rfault _ _) as [k|]; [eauto|].
    do 2 eexists; split; [reflexivity|]. intros [H|H]; congruence.
  - rewrite CacheService_exists_eq.
    destruct (_client self) as [client|]; [|eauto].
    destruct (rfault _ _) as [k|]; [eauto|].
    do 2 eexists; split; [reflexivity|]. intros [H|H]; congruence.
  - rewrite CacheService_health_check_eq.
    destruct (_client self) as [client|]; [|eauto].
    do 2 eexists; split; [reflexivity|].
    destruct (rfault _ _) as [k|]; [auto|]. intros [H|H]; congruence.
Qed.

(** C6. Deleting an identifier the record store does not hold fails with
    the 404 exception and changes nothing. Deleting one it holds removes the
    item from the record store, then asks the cache to delete the item's key
    and then the list key, and succeeds whatever the cache answers; when the
    cache works both keys are gone from it. A second deletion of the same
    identifier always fails with the 404 exception. *)
Theorem delete_item_spec (item_id : string) (w : World) :
  (dict_get item_id (_items_db w) = None ->
     delete_item item_id w = (Raise (HTTPException 404 ("Item " +:+ item_id +:+ " not found")), w)) /\
  (dict_get item_id (_items_db w) <> None ->
     exists w',
       delete_item item_id w = (Ok tt, w') /\
       _items_db w' = dict_del item_id (_items_db w) /\
       dict_get item_id (_items_db w') = None /\
       trace w' = trace w ++ [EvDbDelete item_id;
                              EvCacheDelete (_get_cache_key item_id);
                              EvCacheDelete ITEMS_LIST_KEY] /\
       (cache_up 2 w ->
          rdata (redis_server w') !! _get_cache_key item_id = None /\
          rdata (redis_server w') !! ITEMS_LIST_KEY = None)) /\
  (delete_item item_id (delete_item item_id w).2).1 =
    Raise (HTTPException 404 ("Item " +:+ item_id +:+ " not found")).
Proof.
  assert (Hdel : forall w0, dict_get item_id (_items_db w0) <> None ->
            exists w',
              delete_item item_id w0 = (Ok tt, w') /\
              _items_db w' = dict_del item_id (_items_db w0) /\
              trace w' = trace w0 ++ [EvDbDelete item_id;
                                      EvCacheDelete (_get_cache_key item_id);
                                      EvCacheDelete ITEMS_LIST_KEY] /\
              (cache_up 2 w0 ->
                 rdata (redis_server w') !! _get_cache_key item_id = None /\
                 rdata (redis_server w') !! ITEMS_LIST_KEY = None)).
  { intros w0 Hin. rewrite delete_item_eq.
    destruct (dict_get item_id (_items_db w0)); [|congruence].
    eexists. split; [reflexivity|]. split; [|split].
    - now autorewrite with db.
    - autorewrite with trace. now rewrite <- !app_assoc.
    - intros Hup. cbn [redis_server count_item_deleted set_metrics].
      assert (Hup1 : cache_up 2 (removed item_id w0)) by exact Hup.
      destruct (cache_up_delete _ (_get_cache_key item_id) _ Hup1) as [E1 Hup2].
      destruct (cache_up_delete _ ITEMS_LIST_KEY _ Hup2) as [E2 _].
      rewrite E2, E1. split.
      + rewrite lookup_delete_ne by (apply not_eq_sym, item_key_not_list_key).
        apply lookup_delete_eq.
      + apply lookup_delete_eq. }
  split; [|split].
  - intros Hnone. rewrite delete_item_eq, Hnone. reflexivity.
  - intros Hin. destruct (Hdel w Hin) as (w' & E & Hdb & Htr & Hc).
    exists w'. repeat split; auto; try apply Hc; auto.
    rewrite Hdb. apply dict_get_del_eq.
  - destruct (dict_get item_id (_items_db w)) eqn:Hg.
    + destruct (Hdel w) as (w' & E & Hdb & _); [congruence|].
      rewrite E. cbn [snd]. rewrite delete_item_eq, Hdb, dict_get_del_eq. reflexivity.
    + rewrite (delete_item_eq item_id w), Hg. cbn [snd].
      rewrite delete_item_eq, Hg. reflexivity.
Qed.

(** C7. For every page of at least 1, every page size from 1 to 100 and
    every content of the record store whose items on the requested page
    validate against the response model, listing reads all the values of
    the store in insertion order (a new identifier goes last) and answers
    their number as total, the least number of pages that hold them as
    total_pages (1 for an empty store) and the responses of the slice from
    index (page - 1) * page_size up to page * page_size; a page beyond the
    end answers no item, and no error, for every content of the store. *)
Theorem list_items_spec (page page_size : Z) (w : World) :
  (1 <= page)%Z ->
  (1 <= page_size <= 100)%Z ->
  let all := dict_values (_items_db w) in
  let total := Z.of_nat (length all) in
  Forall (fun d => validate_response d <> None)
    (firstn (Z.to_nat page_size) (skipn (Z.to_nat ((page - 1) * page_size)) all)) ->
  exists items total_pages,
    list_items page page_size w =
      (Ok {| ItemListResponse.items := items;
             ItemListResponse.total := total;
             ItemListResponse.page := page;
             ItemListResponse.page_size := page_size;
             ItemListResponse.total_pages := total_pages |}, w) /\
    Forall2 (fun d r => validate_response d = Some r)
      (firstn (Z.to_nat page_size) (skipn (Z.to_nat ((page - 1) * page_size)) all)) items /\
    (total = 0%Z -> total_pages = 1%Z) /\
    ((0 < total)%Z ->
       ((total_pages - 1) * page_size < total <= total_pages * page_size)%Z) /\
    ((total <= (page - 1) * page_size)%Z -> items = []) /\
    (forall item_id item,
       dict_get item_id (_items_db w) = None ->
       dict_values (dict_set item_id item (_items_db w)) = all ++ [item]).
Proof.
  intros Hp [Hs1 Hs2] all total Hslice.
  fold (page_slice page page_size all) in Hslice.
  destruct (entity_replies_Forall2 _ Hslice) as (rs & E & HF).
  exists rs, (if (total =? 0)%Z then 1%Z else ceil_div total page_size).
  split; [|split; [|split; [|split; [|split]]]].
  - rewrite list_items_eq. unfold store_only_list.
    replace ((1 <=? page)%Z && (1 <=? page_size)%Z && (page_size <=? 100)%Z) with true.
    + fold all. now rewrite E.
    + symmetry. apply andb_true_intro. split; [apply andb_true_intro; split|];
        apply Z.leb_le; lia.
  - exact HF.
  - intros H0. now rewrite H0.
  - intros Hpos. destruct (total =? 0)%Z eqn:E0; [lia|].
    apply ceil_div_bounds; lia.
  - intros Hout. unfold page_slice in HF.
    rewrite skipn_all2 in HF by (subst total; lia).
    rewrite firstn_nil in HF. now inversion HF.
  - intros item_id item Hnew. now apply dict_values_set_new.
Qed.

(** C5. Updating a stored item assigns exactly the fields the partial
    update sets, leaves every other field of the stored item as it was, sets
    updated_at to the current time, stores the result under the same
    identifier and answers it; the other items are untouched. In
    particular, after creating name A, price 1, quantity 2, the update that
    sets only price to 5 stores and answers the item with name A, price 5
    and quantity 2. *)
Theorem update_item_merges
    (item_id : string) (utcnow : datetime) (item : ItemUpdate.t) (w : World)
    (old : list (string * pyval)) :
  dict_get item_id (_items_db w) = Some old ->
  let update_data := ItemUpdate.model_dump_exclude_unset item in
  let w' := (update_item item_id utcnow item w).2 in
  (exists new,
      (update_item item_id utcnow item w).1 = entity_reply new /\
      dict_get item_id (_items_db w') = Some new /\
      (forall k v, dict_get k update_data = Some v -> dict_get k new = Some v) /\
      (forall k, dict_get k update_data = None -> k <> "updated_at" ->
                 dict_get k new = dict_get k old) /\
      dict_get "updated_at" new = Some (PyStr (isoformat utcnow)) /\
      (forall other, other <> item_id ->
                     dict_get other (_items_db w') = dict_get other (_items_db w))) /\
  (forall (uuid4 : string) (t0 t1 : datetime) (w0 : World),
      let created :=
        {| ItemCreate.name := "A"; ItemCreate.description := None;
           ItemCreate.price := 1%float; ItemCreate.quantity := 2%Z;
           ItemCreate.tags := [] |} in
      let price_5 :=
        {| ItemUpdate.name := None; ItemUpdate.description := None;
           ItemUpdate.price := Some (Some 5%float); ItemUpdate.quantity := None;
           ItemUpdate.tags := None |} in
      let answer :=
        {| ItemResponse.id := uuid4; ItemResponse.name := "A";
           ItemResponse.description := None; ItemResponse.price := 5%float;
           ItemResponse.quantity := 2%Z; ItemResponse.tags := [];
           ItemResponse.created_at := t0; ItemResponse.updated_at := t1 |} in
      let r := update_item uuid4 t1 price_5 (create_item uuid4 t0 created w0).2 in
      dict_get uuid4 (_items_db r.2) = Some (response_dict answer) /\
      r.1 = entity_reply (response_dict answer) /\
      (validate_response (response_dict answer) = Some answer -> r.1 = Ok answer)).
Proof.
  intros Hold update_data w'. split.
  - exists (updated_item_data utcnow item old).
    pose proof (update_item_found _ utcnow item _ _ Hold) as E. cbv zeta in E.
    subst w'. rewrite E. cbn [fst snd]. autorewrite with db.
    repeat apply conj.
    + reflexivity.
    + apply dict_get_set_eq.
    + intros k v Hk. unfold updated_item_data.
      destruct (String.eqb "updated_at" k) eqn:Ek.
      * apply String.eqb_eq in Ek. subst k. subst update_data.
        now rewrite model_dump_exclude_unset_updated_at in Hk.
      * apply String.eqb_neq in Ek. rewrite dict_get_set_ne by assumption.
        rewrite dict_get_apply_update by apply model_dump_exclude_unset_NoDup.
        fold update_data. now rewrite Hk.
    + intros k Hk Hne. unfold updated_item_data.
      rewrite dict_get_set_ne by congruence.
      rewrite dict_get_apply_update by apply model_dump_exclude_unset_NoDup.
      fold update_data. now rewrite Hk.
    + apply dict_get_set_eq.
    + intros other Hne. apply dict_get_set_ne. congruence.
  - intros uuid4 t0 t1 w0 created price_5 answer r.
    assert (Er : r = (entity_reply (response_dict answer),
                      cache_delete_world ITEMS_LIST_KEY
                        (cached_item uuid4 (response_dict answer)
                           (stored uuid4 (response_dict answer)
                              (create_item uuid4 t0 created w0).2)))).
    { pose proof (update_item_found uuid4 t1 price_5 (create_item uuid4 t0 created w0).2
                    (new_item_data uuid4 t0 created)) as E.
      cbv zeta in E.
      assert (Hd : updated_item_data t1 price_5 (new_item_data uuid4 t0 created)
                   = response_dict answer) by reflexivity.
      rewrite Hd in E. apply E.
      rewrite create_item_reply. cbv zeta. cbn [snd]. autorewrite with db.
      apply dict_get_set_eq. }
    rewrite Er. cbn [fst snd]. autorewrite with db.
    split; [apply dict_get_set_eq|]. split; [reflexivity|].
    intros Hv. unfold entity_reply. now rewrite Hv.
Qed.

(** C1. Reading an item first asks the cache client for the item's key.
    When the answer is a hit (a value that tests true, as every non-empty
    dictionary does), the reply is built from that value alone: the record
    store is neither read nor changed, so the reply is the same whatever the
    store holds under the identifier, be it another value or nothing. When
    the answer is a miss, an identifier the store does not hold fails with
    the 404 exception; one it holds is answered from the store after the
    cache client has been asked to set the item's key to the stored item
    with the expiry of 3600 seconds, which leaves the serialized item under
    that key with that expiry when the cache serves the command. *)
Theorem get_item_cache_aside (item_id : string) (w : World) :
  let key := _get_cache_key item_id in
  let cached := cache_get_value key w in
  let r := get_item item_id w in
  (cache_get_call key w).1 = Ok cached /\
  (cache_up 1 w -> cached = decoded key (rdata (redis_server w))) /\
  (truthy cached = true ->
     r.1 = (ItemResponse_kwargs cached w).1 /\
     _items_db r.2 = _items_db w /\
     trace r.2 = trace w ++ [EvCacheGet key] /\
     rdata (redis_server r.2) = rdata (redis_server w) /\
     forall db, (get_item item_id (set_items_db db w)).1 = r.1) /\
  (truthy cached = false ->
     _items_db r.2 = _items_db w /\
     (dict_get item_id (_items_db w) = None ->
        r.1 = Raise (HTTPException 404 ("Item " +:+ item_id +:+ " not found")) /\
        trace r.2 = trace w ++ [EvCacheGet key]) /\
     (forall item,
        dict_get item_id (_items_db w) = Some item ->
        r.1 = entity_reply item /\
        trace r.2 = trace w ++ [EvCacheGet key; EvCacheSet key (PyDict item) (Some 3600%Z)] /\
        (forall text,
           dumps_text (PyDict item) = Some text ->
           cache_up 1 (cache_get_world key w) ->
           rdata (redis_server r.2) !! key = Some (text, Some 3600%Z)))).
Proof.
  intros key cached r. subst r. rewrite get_item_eq. cbv zeta.
  fold key. fold cached.
  split; [|split; [|split]].
  - unfold cached. now rewrite cache_get_call_eq.
  - intros Hup. apply (cache_up_get 0 key w Hup).
  - intros Ht. rewrite Ht.
    rewrite ItemResponse_kwargs_world.
    split; [apply ItemResponse_kwargs_result|].
    split; [now autorewrite with db|].
    split; [now autorewrite with trace|].
    split; [cbn; apply rdata_cache_get_world|].
    intros db. rewrite get_item_eq. cbv zeta. fold key.
    assert (Hc : cache_get_value key (set_items_db db w) = cached).
    { unfold cached. now rewrite !cache_get_value_eq. }
    rewrite Hc, Ht. apply ItemResponse_kwargs_result.
  - intros Ht. rewrite Ht. autorewrite with db.
    destruct (dict_get item_id (_items_db w)) as [item|] eqn:Hg.
    + rewrite ItemResponse_kwargs_dict. cbn [fst snd].
      split; [now autorewrite with db|]. split; [discriminate|].
      intros item' [= <-]. split; [reflexivity|].
      split; [autorewrite with trace; now rewrite <- app_assoc|].
      intros text Hd Hup. unfold cached_item.
      assert (Hup' : cache_up 1 (count_cache_miss "get_item" (cache_get_world key w)))
        by exact Hup.
      unfold key in *.
      rewrite (cache_up_set 0 _ _ text CACHE_TTL _ Hup' Hd) by reflexivity.
      apply lookup_insert_eq.
    + cbn [fst snd]. split; [now autorewrite with db|].
      split; [|discriminate]. intros _. split; [reflexivity|].
      now autorewrite with trace.
Qed.

(** C2. When every operation of the cache client fails (get answers
    absent, set and delete answer false) throughout a sequence of requests,
    each of Create, Read, Update, Delete and List is answered exactly as the
    record store alone determines, the store ends as it would have without
    any cache, and no reply is an exception that comes from the cache. *)
Theorem cache_failure_tolerance (qs : list Request) (w : World) :
  cache_fails w ->
  (serve qs w).1 = (store_only_serve qs (_items_db w)).1 /\
  _items_db (serve qs w).2 = (store_only_serve qs (_items_db w)).2 /\
  Forall (fun r => ~ cache_error r) (serve qs w).1.
Proof.
  intros Hf. destruct (serve_cache_fails qs w Hf) as [Hr Hdb].
  split; [exact Hr|]. split; [exact Hdb|].
  rewrite Hr. apply store_only_serve_no_cache_error.
Qed.

(** C3. The cache client is not total. [set] lists [RedisError] and
    [TypeError] in its except clause; [json.dumps] refuses a list or
    dictionary that contains itself with [ValueError], which is neither. So
    [set] on such a value, with a client assigned, does not answer False:
    the [ValueError] reaches the caller, before any command is sent to the
    server. Without a client the guard at the top of [set] answers False
    first. *)
Theorem set_propagates_ValueError
    (self : CacheService) (key : string) (ttl : option Z) (w : World) :
  CacheService_set self key Circular ttl w =
    (match _client self with
     | Some _ => Raise ValueError
     | None => Ok false
     end,
     add_event (EvCacheSet key Circular ttl) w) /\
  is_RedisError ValueError || is_TypeError ValueError = false.
Proof.
  split; [|reflexivity].
  unfold CacheService_set, bind, emit, modify, try_except, json_dumps, raise, ret.
  now destruct (_client self).
Qed.

(** C10. A cache service that has not been connected, or that has been
    disconnected or closed, has no client; every operation of a service
    without a client answers its failure value without raising and without
    reaching the server (get answers absent; set, delete, exists and
    health_check answer false); and while the singleton has no client every
    operation of the cache client fails, so that every sequence of requests
    is answered as the record store alone determines. *)
Theorem unconnected_cache
    (self : CacheService) (key : string) (value : pyval) (ttl : option Z) (w : World) :
  _client CacheService__init__ = None /\
  (_cache_service w = Some self ->
     (CacheService_disconnect self w).1 = Ok tt /\
     _client (current_service (CacheService_disconnect self w).2) = None) /\
  ((close_cache w).1 = Ok tt /\
   _client (current_service (close_cache w).2) = None) /\
  (_client self = None ->
     CacheService_get self key w = (Ok PyNone, add_event (EvCacheGet key) w) /\
     CacheService_set self key value ttl w =
       (Ok false, add_event (EvCacheSet key value ttl) w) /\
     CacheService_delete self key w = (Ok false, add_event (EvCacheDelete key) w) /\
     CacheService_exists self key w = (Ok false, w) /\
     CacheService_health_check self w = (Ok false, w)) /\
  (_client (current_service w) = None ->
     cache_fails w /\
     forall qs,
       (serve qs w).1 = (store_only_serve qs (_items_db w)).1 /\
       _items_db (serve qs w).2 = (store_only_serve qs (_items_db w)).2).
Proof.
  split; [reflexivity|]. split; [|split; [|split]].
  - intros Hs. destruct (CacheService_disconnect_eq self w Hs) as (H1 & H2 & _). auto.
  - destruct (close_cache_eq w) as (H1 & H2 & _). split; [exact H1|]. now rewrite H2.
  - intros Hc.
    rewrite CacheService_get_eq, CacheService_set_eq, CacheService_delete_eq,
      CacheService_exists_eq, CacheService_health_check_eq, Hc. auto.
  - intros Hc. assert (Hf : cache_fails w) by (apply cache_down_fails; now left).
    split; [exact Hf|]. intros qs. now apply serve_cache_fails.
Qed.

(** ** More of the code: the life cycle of the cache client *)

(** [lifespan] of [app/main.py], up to its [yield]: a failure of
    [init_cache] is logged and the application starts without it. *)
Definition lifespan_startup : M unit :=
  try_except
    (do init_cache then ret tt)
    is_Exception
    (fun _ => ret tt).

(** [lifespan] after its [yield]. *)
Definition lifespan_shutdown : M unit := close_cache.

(** The server serves the command it receives [i] commands from now. *)
Definition served (i : nat) (w : World) : Prop :=
  rfault (redis_server w) (rtick (redis_server w) + i) = None.

(** The expiry [set] stores a value with. *)
Definition stored_expiry (ttl : option Z) : option Z := ttl_given ttl.

Lemma served_0 w :
  served 0 w -> rfault (redis_server w) (rtick (redis_server w)) = None.
Proof. unfold served. now rewrite Nat.add_0_r. Qed.

Lemma served_next data ev w i :
  served (S i) w -> served i (server_next data (add_event ev w)).
Proof.
  unfold served. cbn. intros H.
  now replace (S (rtick (redis_server w) + i)) with (rtick (redis_server w) + S i)%nat by lia.
Qed.

(** X1. What [set] stores, [get] gives back: with a connected client and a
    server that serves the two commands, a value that encodes to a text
    that decodes to the value is stored under the key (with the given
    expiry, or without expiry when the expiry is absent or 0), [set] answers
    true, the other keys are left as they were, and the next [get] of the
    key answers the value and [exists] answers true. *)
Theorem set_get_round_trip
    (self : CacheService) (key : string) (value : pyval) (ttl : option Z)
    (text : string) (w : World) :
  _client self <> None ->
  served 0 w -> served 1 w ->
  (forall t, ttl = Some t -> (0 <= t)%Z) ->
  dumps_text value = Some text ->
  text <> "" ->
  loads_val text = Some value ->
  let s := CacheService_set self key value ttl w in
  s.1 = Ok true /\
  rdata (redis_server s.2) !! key = Some (text, stored_expiry ttl) /\
  (forall other, other <> key ->
     rdata (redis_server s.2) !! other = rdata (redis_server w) !! other) /\
  (CacheService_get self key s.2).1 = Ok value /\
  (CacheService_exists self key s.2).1 = Ok true.
Proof.
  intros Hc H0 H1 Httl Hd Hne Hl s.
  apply served_0 in H0.
  assert (Hs : s = (Ok true,
                    server_next (<[key := (text, stored_expiry ttl)]> (rdata (redis_server w)))
                      (add_event (EvCacheSet key value ttl) w))).
  { subst s. rewrite CacheService_set_eq. cbv zeta. unfold stored_expiry.
    destruct (_client self); [|congruence]. rewrite Hd, H0.
    destruct (ttl_given ttl) as [t|] eqn:Et; [|reflexivity].
    assert (0 < t)%Z.
    { unfold ttl_given in Et. destruct ttl as [t'|]; [|discriminate].
      destruct (t' =? 0)%Z eqn:E0; [discriminate|]. injection Et as <-.
      specialize (Httl _ eq_refl). lia. }
    destruct (t <=? 0)%Z eqn:E; [lia|reflexivity]. }
  rewrite Hs. cbn [fst snd].
  assert (Hnext : rfault (redis_server w) (S (rtick (redis_server w))) = None).
  { unfold served in H1. now rewrite Nat.add_1_r in H1. }
  split; [reflexivity|]. split; [cbn; apply lookup_insert_eq|].
  split; [intros other Ho; cbn; now rewrite lookup_insert_ne by congruence|].
  rewrite CacheService_get_eq, CacheService_exists_eq.
  destruct (_client self); [|congruence]. cbn. rewrite Hnext.
  unfold decoded. rewrite lookup_insert_eq.
  apply String.eqb_neq in Hne. now rewrite Hne, Hl.
Qed.

(** X2. [delete] answers true whenever the server serves the command,
    whether or not the key was there; afterwards the key is gone, the other
    keys are left as they were, [get] of the key answers absent and
    [exists] answers false. *)
Theorem delete_then_absent (self : CacheService) (key : string) (w : World) :
  _client self <> None ->
  served 0 w -> served 1 w ->
  let d := CacheService_delete self key w in
  d.1 = Ok true /\
  rdata (redis_server d.2) !! key = None /\
  (forall other, other <> key ->
     rdata (redis_server d.2) !! other = rdata (redis_server w) !! other) /\
  (CacheService_get self key d.2).1 = Ok PyNone /\
  (CacheService_exists self key d.2).1 = Ok false.
Proof.
  intros Hc H0 H1 d. apply served_0 in H0.
  assert (Hnext : rfault (redis_server w) (S (rtick (redis_server w))) = None).
  { unfold served in H1. now rewrite Nat.add_1_r in H1. }
  subst d. rewrite CacheService_delete_eq. cbv zeta.
  destruct (_client self) eqn:E; [|congruence]. rewrite H0. cbn [fst snd].
  split; [reflexivity|]. split; [cbn; apply lookup_delete_eq|].
  split; [intros other Ho; cbn; now rewrite lookup_delete_ne by congruence|].
  rewrite CacheService_get_eq, CacheService_exists_eq, E. cbn. rewrite Hnext.
  unfold decoded. now rewrite lookup_delete_eq.
Qed.

(** X3. [connect] pings once and answers what the ping answers: it
    returns when the server serves the ping and raises the [RedisError]
    otherwise; the record store and the keys of the server are untouched.
    On the service [get_cache_service] answers, which is how [init_cache]
    calls it, the pool and the client are assigned before the ping, so the
    singleton is left with both whether or not the ping is served, and
    [init_cache] answers that service or raises the error of the ping.
    While the module variable is empty the object [connect] is called on
    is not the singleton, and the module variable stays empty. *)
Theorem connect_outcome (self : CacheService) (w : World) :
  let c := CacheService_connect self w in
  let pool := ConnectionPool_from_url in
  let connected := {| _pool := Some pool; _client := Some {| connection_pool := pool |} |} in
  c.1 = match rfault (redis_server w) (rtick (redis_server w)) with
        | None => Ok tt
        | Some k => Raise (RedisError k)
        end /\
  _items_db c.2 = _items_db w /\
  rdata (redis_server c.2) = rdata (redis_server w) /\
  rtick (redis_server c.2) = S (rtick (redis_server w)) /\
  (_cache_service w = None -> _cache_service c.2 = None) /\
  (forall w0,
     get_cache_service w0 = (Ok self, w) ->
     _cache_service c.2 = Some connected /\
     init_cache w0 =
       (match c.1 with
        | Ok _ => Ok connected
        | Raise e => Raise e
        end, c.2)).
Proof.
  cbv zeta. rewrite CacheService_connect_eq. cbv zeta. cbn [fst snd].
  split; [reflexivity|].
  split; [now destruct (_cache_service w)|].
  split; [now destruct (_cache_service w)|].
  split; [now destruct (_cache_service w)|]. split.
  - intros Hn. now rewrite Hn.
  - intros w0 Hg. rewrite get_cache_service_eq in Hg.
    injection Hg as Hself Hw.
    assert (Hs : _cache_service w = Some self).
    { rewrite <- Hw, <- Hself. apply service_ensure. }
    rewrite Hs. split; [reflexivity|].
    unfold init_cache. rewrite (bind_Ok _ _ _ _ _ (get_cache_service_eq w0)).
    rewrite Hself, Hw. unfold bind, gets. rewrite CacheService_connect_eq. cbv zeta.
    rewrite Hs.
    destruct (rfault (redis_server w) (rtick (redis_server w))); reflexivity.
Qed.

Lemma close_cache_None w : _cache_service w = None -> close_cache w = (Ok tt, w).
Proof. intros H. unfold close_cache, bind, gets. now rewrite H. Qed.

(** X4. Closing the cache disconnects the singleton and forgets it: it
    never raises and never reaches the server, closing again changes
    nothing, and the next [get_cache_service] makes a new service that has
    neither pool nor client. *)
Theorem close_cache_resets (w : World) :
  let c := close_cache w in
  c.1 = Ok tt /\
  _cache_service c.2 = None /\
  _items_db c.2 = _items_db w /\
  redis_server c.2 = redis_server w /\
  close_cache c.2 = (Ok tt, c.2) /\
  (get_cache_service c.2).1 = Ok {| _pool := None; _client := None |}.
Proof.
  cbv zeta.
  assert (H : (close_cache w).1 = Ok tt /\
              _cache_service (close_cache w).2 = None /\
              _items_db (close_cache w).2 = _items_db w /\
              redis_server (close_cache w).2 = redis_server w).
  { unfold close_cache, bind, gets, modify.
    destruct (_cache_service w) as [self|] eqn:Hs; cbn; [|auto].
    unfold CacheService_disconnect, bind, set_self, modify, ret.
    destruct self as [[pool|] [client|]]; cbn; rewrite ?Hs; cbn; auto. }
  destruct H as (H1 & H2 & H3 & H4).
  repeat (split; [assumption|]). split.
  - now apply close_cache_None.
  - unfold get_cache_service, bind, gets, modify, ret. now rewrite H2.
Qed.

(** X5. The cache service is a singleton: [get_cache_service] creates it
    at most once; a second call answers the same service and leaves the
    state as the first call left it, and no call touches the record store
    or the server. *)
Theorem get_cache_service_singleton (w : World) :
  let g := get_cache_service w in
  exists service,
    g.1 = Ok service /\
    _cache_service g.2 = Some service /\
    get_cache_service g.2 = (Ok service, g.2) /\
    _items_db g.2 = _items_db w /\
    redis_server g.2 = redis_server w /\
    (forall s, _cache_service w = Some s -> service = s /\ g.2 = w).
Proof.
  cbv zeta. rewrite get_cache_service_eq. cbn [fst snd].
  exists (current_service w). split; [reflexivity|].
  split; [apply service_ensure|].
  split.
  - rewrite get_cache_service_eq, current_service_ensure.
    now rewrite (ensure_service_some _ _ (service_ensure w)).
  - split; [apply (co_db _ _ (cache_only_ensure w))|].
    split; [apply server_ensure|].
    intros s Hs. unfold current_service, ensure_service. now rewrite Hs.
Qed.

Lemma init_cache_eq w :
  init_cache w =
  let pool := ConnectionPool_from_url in
  let connected := {| _pool := Some pool; _client := Some {| connection_pool := pool |} |} in
  (match rfault (redis_server w) (rtick (redis_server w)) with
   | None => Ok connected
   | Some k => Raise (RedisError k)
   end,
   set_cache_service (Some connected) (server_next (rdata (redis_server w)) w)).
Proof.
  unfold init_cache. rewrite (bind_Ok _ _ _ _ _ (get_cache_service_eq w)).
  unfold bind, gets. rewrite CacheService_connect_eq. cbv zeta.
  rewrite server_ensure, service_ensure.
  unfold ensure_service, server_next.
  destruct (_cache_service w); cbn;
    destruct (rfault (redis_server w) (rtick (redis_server w))); reflexivity.
Qed.

Lemma lifespan_startup_eq w :
  lifespan_startup w =
  (Ok tt,
   set_cache_service
     (Some {| _pool := Some ConnectionPool_from_url;
              _client := Some {| connection_pool := ConnectionPool_from_url |} |})
     (server_next (rdata (redis_server w)) w)).
Proof.
  unfold lifespan_startup, try_except, bind. rewrite init_cache_eq. cbv zeta.
  destruct (rfault (redis_server w) (rtick (redis_server w))); reflexivity.
Qed.

(** X6. Starting the application never fails on account of the cache:
    [lifespan] absorbs the error of [init_cache]. Afterwards the singleton
    has a client whether or not the ping was served, so the cache works for
    the next commands as soon as the server serves them; shutting down
    leaves no singleton. *)
Theorem lifespan_tolerates_cache (n : nat) (w : World) :
  let s := lifespan_startup w in
  s.1 = Ok tt /\
  _client (current_service s.2) <> None /\
  _items_db s.2 = _items_db w /\
  rdata (redis_server s.2) = rdata (redis_server w) /\
  ((forall i, (i < n)%nat -> served (S i) w) -> cache_up n s.2) /\
  (lifespan_shutdown s.2).1 = Ok tt /\
  _cache_service (lifespan_shutdown s.2).2 = None.
Proof.
  cbv zeta. rewrite lifespan_startup_eq. cbn [fst snd].
  split; [reflexivity|]. split; [discriminate|]. split; [reflexivity|].
  split; [reflexivity|]. split.
  - intros Hn. split; [discriminate|]. intros i Hi. cbn.
    specialize (Hn i Hi). unfold served in Hn.
    now replace (S (rtick (redis_server w) + i)) with (rtick (redis_server w) + S i)%nat
      by lia.
  - unfold lifespan_shutdown, close_cache, bind, gets, modify, CacheService_disconnect,
      set_self, ret. cbn. auto.
Qed.

(** ** More of the code: how the handlers compose *)

Definition is_read (q : Request) : bool :=
  match q with Read _ => true | _ => false end.

(** One request, whatever the cache does: the store ends as the record
    store alone determines, and so does the reply unless the request is a
    Read. *)
Lemma handle_store q w :
  _items_db (handle q w).2 = (store_only q (_items_db w)).2 /\
  (is_read q = false -> (handle q w).1 = (store_only q (_items_db w)).1).
Proof.
  rewrite handle_eq. destruct q as [u t i|k|k t i|k|pg ps]; cbn [store_only is_read].
  - rewrite create_item_reply. cbv zeta. unfold store_only_create. cbn [fst snd].
    autorewrite with db. auto.
  - split; [|discriminate]. cbn [snd]. rewrite get_item_eq. cbv zeta.
    unfold store_only_read.
    destruct (truthy _).
    + rewrite ItemResponse_kwargs_world. autorewrite with db.
      now destruct (dict_get k (_items_db w)).
    + autorewrite with db. destruct (dict_get k (_items_db w)); cbn [snd].
      * rewrite ItemResponse_kwargs_world. now autorewrite with db.
      * now autorewrite with db.
  - rewrite update_item_eq. unfold store_only_update.
    destruct (dict_get k (_items_db w)); [|auto].
    cbv zeta. rewrite ItemResponse_kwargs_dict. cbn [fst snd]. autorewrite with db. auto.
  - rewrite delete_item_eq. unfold store_only_delete.
    destruct (dict_get k (_items_db w)); [|auto].
    cbn [fst snd]. autorewrite with db. auto.
  - rewrite list_items_eq. auto.
Qed.

(** X10. The cache never decides what is stored: after any sequence of
    requests, in front of any cache (connected or not, serving or failing,
    holding anything), the record store is exactly what the requests make of
    it without a cache, and every reply other than that of a Read is the
    reply the record store alone determines. *)
Theorem store_ignores_cache (qs : list Request) (w : World) :
  _items_db (serve qs w).2 = (store_only_serve qs (_items_db w)).2 /\
  (forall i q,
     qs !! i = Some q -> is_read q = false ->
     (serve qs w).1 !! i = (store_only_serve qs (_items_db w)).1 !! i).
Proof.
  revert w. induction qs as [|q qs IH]; intros w; cbn.
  - split; [reflexivity|]. intros i q Hq. now rewrite lookup_nil in Hq.
  - destruct (handle_store q w) as [Hdb Hr].
    destruct (handle q w) as [r w1]. cbn [fst snd] in *.
    destruct (store_only q (_items_db w)) as [r' db1]. cbn [fst snd] in *. subst db1.
    destruct (IH w1) as [Hdbs Hrs].
    destruct (serve qs w1) as [rs w2].
    destruct (store_only_serve qs (_items_db w1)) as [rs' db2]. cbn [fst snd] in *.
    split; [exact Hdbs|].
    intros [|i] q' Hq' Hnr; cbn in *.
    + injection Hq' as <-. now rewrite (Hr Hnr).
    + now apply (Hrs i q').
Qed.

(** *** The server and the singleton across the steps of a handler *)

Lemma service_cache_get_world key w :
  current_service (cache_get_world key w) = current_service w.
Proof. apply (co_service _ _ (cache_get_call_only key w)). Qed.

Lemma service_cache_set_world key value ttl w :
  current_service (cache_set_world key value ttl w) = current_service w.
Proof. apply (co_service _ _ (cache_set_call_only key value ttl w)). Qed.

Lemma service_cache_delete_world' key w :
  current_service (cache_delete_world key w) = current_service w.
Proof. apply (co_service _ _ (cache_delete_call_only key w)). Qed.

Lemma rfault_cache_get_world key w :
  rfault (redis_server (cache_get_world key w)) = rfault (redis_server w).
Proof. apply (co_fault _ _ (cache_get_call_only key w)). Qed.

Lemma rfault_cache_set_world key value ttl w :
  rfault (redis_server (cache_set_world key value ttl w)) = rfault (redis_server w).
Proof. apply (co_fault _ _ (cache_set_call_only key value ttl w)). Qed.

Lemma rfault_cache_delete_world key w :
  rfault (redis_server (cache_delete_world key w)) = rfault (redis_server w).
Proof. apply (co_fault _ _ (cache_delete_call_only key w)). Qed.

Lemma rtick_cache_set_world key value ttl w :
  rtick (redis_server (cache_set_world key value ttl w)) =
  match _client (current_service w), dumps_text value with
  | Some _, Some _ => S (rtick (redis_server w))
  | _, _ => rtick (redis_server w)
  end.
Proof.
  unfold cache_set_world, cache_set_call. rewrite CacheService_set_eq, server_ensure.
  cbv zeta.
  destruct (_client _); [|cbn; now rewrite server_ensure].
  destruct (dumps_text value); [|cbn; now rewrite server_ensure].
  destruct (rfault _ _); [cbn; now rewrite server_ensure|].
  destruct (ttl_given ttl) as [t|]; [destruct (t <=? 0)%Z|]; cbn; now rewrite server_ensure.
Qed.

(** What [get] answers for a key the server holds. *)
Lemma decoded_lookup key data text ttl v :
  data !! key = Some (text, ttl) -> loads_val text = Some v ->
  decoded key data = if String.eqb text "" then PyNone else v.
Proof. intros Hk Hl. unfold decoded. now rewrite Hk, Hl. Qed.

Lemma decoded_absent key data : data !! key = None -> decoded key data = PyNone.
Proof. intros Hk. unfold decoded. now rewrite Hk. Qed.

(** A Read whose cached value is absent or is the stored item answers the
    stored item. *)
Lemma get_item_agrees item_id w item :
  dict_get item_id (_items_db w) = Some item ->
  cache_get_value (_get_cache_key item_id) w = PyNone \/
  cache_get_value (_get_cache_key item_id) w = PyDict item ->
  (get_item item_id w).1 = entity_reply item.
Proof.
  intros Hdb Hc. rewrite get_item_eq. cbv zeta.
  destruct Hc as [-> | ->].
  - cbn [truthy]. autorewrite with db. rewrite Hdb. now rewrite ItemResponse_kwargs_dict.
  - destruct (truthy (PyDict item)).
    + now rewrite ItemResponse_kwargs_dict.
    + autorewrite with db. rewrite Hdb. now rewrite ItemResponse_kwargs_dict.
Qed.

(** A Read with nothing usable in the cache for an identifier the store
    does not hold. *)
Lemma get_item_absent item_id w :
  dict_get item_id (_items_db w) = None ->
  cache_get_value (_get_cache_key item_id) w = PyNone ->
  (get_item item_id w).1 = Raise (not_found item_id).
Proof.
  intros Hdb Hc. rewrite get_item_eq. cbv zeta. rewrite Hc. cbn [truthy].
  autorewrite with db. now rewrite Hdb.
Qed.

(** X11. Read your own update: when the cache write of an Update is served
    (the client is connected, the server serves the command, the item
    encodes to a text that decodes to it), the Read that follows answers the
    updated item, whether or not the server serves the later commands. *)
Theorem read_after_update
    (item_id : string) (utcnow : datetime) (item : ItemUpdate.t) (w : World)
    (old : list (string * pyval)) (text : string) :
  dict_get item_id (_items_db w) = Some old ->
  let new := updated_item_data utcnow item old in
  _client (current_service w) <> None ->
  served 0 w ->
  dumps_text (PyDict new) = Some text ->
  loads_val text = Some (PyDict new) ->
  let u := update_item item_id utcnow item w in
  u.1 = entity_reply new /\
  (get_item item_id u.2).1 = entity_reply new.
Proof.
  intros Hold new Hc H0 Hd Hl u. apply served_0 in H0.
  subst u. rewrite (update_item_found _ utcnow item _ _ Hold). fold new. cbn [fst snd].
  split; [reflexivity|].
  set (w1 := stored item_id new w).
  set (w2 := cached_item item_id new w1).
  set (w3 := cache_delete_world ITEMS_LIST_KEY w2).
  assert (H2 : rdata (redis_server w2) !! _get_cache_key item_id
               = Some (text, Some CACHE_TTL)).
  { subst w2. unfold cached_item. rewrite rdata_cache_set_world.
    change (current_service w1) with (current_service w).
    change (redis_server w1) with (redis_server w).
    destruct (_client (current_service w)); [|congruence].
    rewrite Hd, H0. cbn. apply lookup_insert_eq. }
  assert (H3 : rdata (redis_server w3) !! _get_cache_key item_id
               = Some (text, Some CACHE_TTL)).
  { subst w3. rewrite rdata_cache_delete_world.
    destruct (_client (current_service w2)); [|exact H2].
    destruct (rfault (redis_server w2) (rtick (redis_server w2))); [exact H2|].
    rewrite lookup_delete_ne; [exact H2|]. apply not_eq_sym, item_key_not_list_key. }
  apply get_item_agrees.
  - subst w3 w2 w1. autorewrite with db. apply dict_get_set_eq.
  - rewrite cache_get_value_eq.
    destruct (_client (current_service w3)); [|now left].
    destruct (rfault (redis_server w3) (rtick (redis_server w3))); [now left|].
    rewrite (decoded_lookup _ _ _ _ _ H3 Hl).
    destruct (String.eqb text ""); [now left|now right].
Qed.

(** X12. There is no retry: when the server fails the cache write of an
    Update and serves the two commands after it, the entry the cache held
    stays, and the Read that follows answers that old cached value although
    the record store holds the updated item. *)
Theorem stale_read_after_failed_cache_write
    (item_id : string) (utcnow : datetime) (item : ItemUpdate.t) (w : World)
    (old : list (string * pyval)) (text0 : string) (ttl0 : option Z) (v0 : pyval) :
  dict_get item_id (_items_db w) = Some old ->
  let new := updated_item_data utcnow item old in
  _client (current_service w) <> None ->
  rfault (redis_server w) (rtick (redis_server w)) <> None ->
  served 1 w -> served 2 w ->
  dumps_text (PyDict new) <> None ->
  rdata (redis_server w) !! _get_cache_key item_id = Some (text0, ttl0) ->
  text0 <> "" -> loads_val text0 = Some v0 -> truthy v0 = true ->
  let u := update_item item_id utcnow item w in
  dict_get item_id (_items_db u.2) = Some new /\
  (get_item item_id u.2).1 = (ItemResponse_kwargs v0 w).1.
Proof.
  intros Hold new Hc Hf H1 H2 Hd Hk Hne Hl Ht u.
  subst u. rewrite (update_item_found _ utcnow item _ _ Hold). fold new. cbn [fst snd].
  set (w1 := stored item_id new w).
  set (w2 := cached_item item_id new w1).
  set (w3 := cache_delete_world ITEMS_LIST_KEY w2).
  destruct (_client (current_service w)) as [client|] eqn:Ec; [|congruence].
  destruct (dumps_text (PyDict new)) as [text|] eqn:Ed; [|congruence].
  destruct (rfault (redis_server w) (rtick (redis_server w))) as [k|] eqn:Ef; [|congruence].
  unfold served in H1, H2.
  replace (rtick (redis_server w) + 1)%nat with (S (rtick (redis_server w))) in H1 by lia.
  replace (rtick (redis_server w) + 2)%nat with (S (S (rtick (redis_server w)))) in H2 by lia.
  assert (Hs2 : current_service w2 = current_service w)
    by (subst w2; unfold cached_item; now rewrite service_cache_set_world).
  assert (Hf2 : rfault (redis_server w2) = rfault (redis_server w))
    by (subst w2; unfold cached_item; now rewrite rfault_cache_set_world).
  assert (Ht2 : rtick (redis_server w2) = S (rtick (redis_server w))).
  { subst w2. unfold cached_item. rewrite rtick_cache_set_world.
    change (current_service w1) with (current_service w).
    change (redis_server w1) with (redis_server w). now rewrite Ec, Ed. }
  assert (Hd2 : rdata (redis_server w2) = rdata (redis_server w)).
  { subst w2. unfold cached_item. rewrite rdata_cache_set_world.
    change (current_service w1) with (current_service w).
    change (redis_server w1) with (redis_server w). now rewrite Ec, Ed, Ef. }
  assert (Hd3 : rdata (redis_server w3) !! _get_cache_key item_id = Some (text0, ttl0)).
  { subst w3. rewrite rdata_cache_delete_world, Hs2, Ec, Hf2, Ht2, H1, Hd2.
    rewrite lookup_delete_ne; [exact Hk|]. apply not_eq_sym, item_key_not_list_key. }
  split; [subst w3 w2 w1; autorewrite with db; apply dict_get_set_eq|].
  rewrite get_item_eq. cbv zeta.
  assert (Hv : cache_get_value (_get_cache_key item_id) w3 = v0).
  { rewrite cache_get_value_eq. subst w3.
    rewrite service_cache_delete_world', rfault_cache_delete_world,
      rtick_cache_delete_world, Hs2, Ec, Hf2, Ht2, H2.
    rewrite (decoded_lookup _ _ _ _ _ Hd3 Hl).
    apply String.eqb_neq in Hne. now rewrite Hne. }
  rewrite Hv, Ht. apply ItemResponse_kwargs_result.
Qed.

(** X13. A deleted item can come back from the cache: when the server
    fails the deletion of the item's key and serves the two commands after
    it, the record store no longer holds the item but the Read that follows
    still answers the cached value instead of the 404 exception. *)
Theorem deleted_item_read_from_cache
    (item_id : string) (w : World) (text0 : string) (ttl0 : option Z) (v0 : pyval) :
  dict_get item_id (_items_db w) <> None ->
  _client (current_service w) <> None ->
  rfault (redis_server w) (rtick (redis_server w)) <> None ->
  served 1 w -> served 2 w ->
  rdata (redis_server w) !! _get_cache_key item_id = Some (text0, ttl0) ->
  text0 <> "" -> loads_val text0 = Some v0 -> truthy v0 = true ->
  let d := delete_item item_id w in
  d.1 = Ok tt /\
  dict_get item_id (_items_db d.2) = None /\
  (get_item item_id d.2).1 = (ItemResponse_kwargs v0 w).1.
Proof.
  intros Hin Hc Hf H1 H2 Hk Hne Hl Ht d.
  subst d. rewrite delete_item_eq.
  destruct (dict_get item_id (_items_db w)) as [item|]; [|congruence]. cbn [fst snd].
  set (w1 := removed item_id w).
  set (w2 := cache_delete_world (_get_cache_key item_id) w1).
  set (w3 := cache_delete_world ITEMS_LIST_KEY w2).
  destruct (_client (current_service w)) as [client|] eqn:Ec; [|congruence].
  destruct (rfault (redis_server w) (rtick (redis_server w))) as [k|] eqn:Ef; [|congruence].
  unfold served in H1, H2.
  replace (rtick (redis_server w) + 1)%nat with (S (rtick (redis_server w))) in H1 by lia.
  replace (rtick (redis_server w) + 2)%nat with (S (S (rtick (redis_server w)))) in H2 by lia.
  assert (Hs2 : current_service w2 = current_service w)
    by (subst w2; now rewrite service_cache_delete_world').
  assert (Hf2 : rfault (redis_server w2) = rfault (redis_server w))
    by (subst w2; now rewrite rfault_cache_delete_world).
  assert (Ht2 : rtick (redis_server w2) = S (rtick (redis_server w))).
  { subst w2. rewrite rtick_cache_delete_world.
    change (current_service w1) with (current_service w).
    change (redis_server w1) with (redis_server w). now rewrite Ec. }
  assert (Hd2 : rdata (redis_server w2) = rdata (redis_server w)).
  { subst w2. rewrite rdata_cache_delete_world.
    change (current_service w1) with (current_service w).
    change (redis_server w1) with (redis_server w). now rewrite Ec, Ef. }
  assert (Hd3 : rdata (redis_server w3) !! _get_cache_key item_id = Some (text0, ttl0)).
  { subst w3. rewrite rdata_cache_delete_world, Hs2, Ec, Hf2, Ht2, H1, Hd2.
    rewrite lookup_delete_ne; [exact Hk|]. apply not_eq_sym, item_key_not_list_key. }
  split; [reflexivity|].
  split; [subst w3 w2 w1; autorewrite with db; apply dict_get_del_eq|].
  rewrite get_item_eq. cbv zeta.
  assert (Hv : cache_get_value (_get_cache_key item_id) (count_item_deleted w3) = v0).
  { rewrite cache_get_value_eq.
    change (current_service (count_item_deleted w3)) with (current_service w3).
    change (redis_server (count_item_deleted w3)) with (redis_server w3).
    subst w3.
    rewrite service_cache_delete_world', rfault_cache_delete_world,
      rtick_cache_delete_world, Hs2, Ec, Hf2, Ht2, H2.
    rewrite (decoded_lookup _ _ _ _ _ Hd3 Hl).
    apply String.eqb_neq in Hne. now rewrite Hne. }
  rewrite Hv, Ht. apply ItemResponse_kwargs_result.
Qed.

(** X14. Delete then Read: when the singleton has no client, or the server
    serves the deletion of the item's key, or the cache held nothing under
    that key, the Read that follows a successful Delete fails with the 404
    exception, whatever the server does with the later commands. *)
Theorem read_after_delete (item_id : string) (w : World) :
  dict_get item_id (_items_db w) <> None ->
  _client (current_service w) = None \/
  served 0 w \/
  rdata (redis_server w) !! _get_cache_key item_id = None ->
  let d := delete_item item_id w in
  d.1 = Ok tt /\
  (get_item item_id d.2).1 =
    Raise (HTTPException 404 ("Item " +:+ item_id +:+ " not found")).
Proof.
  intros Hin Hcache d.
  subst d. rewrite delete_item_eq.
  destruct (dict_get item_id (_items_db w)) as [item|]; [|congruence]. cbn [fst snd].
  split; [reflexivity|].
  set (w1 := removed item_id w).
  set (w2 := cache_delete_world (_get_cache_key item_id) w1).
  set (w3 := cache_delete_world ITEMS_LIST_KEY w2).
  apply get_item_absent.
  - subst w3 w2 w1. autorewrite with db. apply dict_get_del_eq.
  - rewrite cache_get_value_eq.
    change (current_service (count_item_deleted w3)) with (current_service w3).
    change (redis_server (count_item_deleted w3)) with (redis_server w3).
    assert (Hs3 : current_service w3 = current_service w).
    { subst w3 w2. now rewrite !service_cache_delete_world'. }
    rewrite Hs3.
    destruct (_client (current_service w)) as [client|] eqn:Ec; [|reflexivity].
    destruct (rfault (redis_server w3) (rtick (redis_server w3))); [reflexivity|].
    apply decoded_absent.
    assert (H2 : rdata (redis_server w2) !! _get_cache_key item_id = None).
    { subst w2. rewrite rdata_cache_delete_world.
      change (current_service w1) with (current_service w).
      change (redis_server w1) with (redis_server w). rewrite Ec.
      destruct Hcache as [Hn|[Hs|Hk]]; [congruence| |].
      - apply served_0 in Hs. rewrite Hs. apply lookup_delete_eq.
      - destruct (rfault _ _); [exact Hk|].
        destruct (decide (_get_cache_key item_id = _get_cache_key item_id)); [|congruence].
        apply lookup_delete_eq. }
    destruct (rdata (redis_server w3) !! _get_cache_key item_id) as [entry|] eqn:E3;
      [|reflexivity].
    subst w3. apply rdata_cache_delete_world_inv in E3. congruence.
Qed.

(** X15. Read-through population: when a Read misses, finds the item in
    the record store, and the cache serves the write (the item is not empty
    and encodes to a non-empty text that decodes to it), the next Read is a
    hit: it answers the same reply, counts one cache hit, and asks the
    cache for nothing but the one get. *)
Theorem second_read_hits
    (item_id : string) (w : World) (item : list (string * pyval)) (text : string) :
  dict_get item_id (_items_db w) = Some item ->
  truthy (cache_get_value (_get_cache_key item_id) w) = false ->
  _client (current_service w) <> None ->
  served 1 w -> served 2 w ->
  item <> [] ->
  dumps_text (PyDict item) = Some text -> text <> "" ->
  loads_val text = Some (PyDict item) ->
  let r1 := get_item item_id w in
  let r2 := get_item item_id r1.2 in
  r1.1 = entity_reply item /\
  r2.1 = entity_reply item /\
  trace r2.2 = trace r1.2 ++ [EvCacheGet (_get_cache_key item_id)] /\
  default 0%nat (CACHE_HITS (metrics r2.2) !! "get_item") =
    S (default 0%nat (CACHE_HITS (metrics r1.2) !! "get_item")) /\
  CACHE_MISSES (metrics r2.2) = CACHE_MISSES (metrics r1.2).
Proof.
  intros Hdb Hmiss Hc H1 H2 Hitem Hd Hne Hl r1 r2.
  assert (Hr1 : r1 = (entity_reply item,
                      cached_item item_id item
                        (count_cache_miss "get_item"
                           (cache_get_world (_get_cache_key item_id) w)))).
  { subst r1. rewrite get_item_eq. cbv zeta. rewrite Hmiss. autorewrite with db.
    rewrite Hdb. apply ItemResponse_kwargs_dict. }
  subst r2. rewrite Hr1. cbn [fst snd]. clear r1 Hr1.
  set (w1 := cache_get_world (_get_cache_key item_id) w).
  set (w2 := count_cache_miss "get_item" w1).
  set (w3 := cached_item item_id item w2).
  destruct (_client (current_service w)) as [client|] eqn:Ec; [|congruence].
  unfold served in H1, H2.
  replace (rtick (redis_server w) + 1)%nat with (S (rtick (redis_server w))) in H1 by lia.
  replace (rtick (redis_server w) + 2)%nat with (S (S (rtick (redis_server w)))) in H2 by lia.
  assert (Hs1 : current_service w2 = current_service w)
    by (subst w2 w1; apply service_cache_get_world).
  assert (Hf1 : rfault (redis_server w2) = rfault (redis_server w))
    by (subst w2 w1; apply rfault_cache_get_world).
  assert (Ht1 : rtick (redis_server w2) = S (rtick (redis_server w))).
  { subst w2 w1. change (redis_server (count_cache_miss _ ?x)) with (redis_server x).
    now rewrite rtick_cache_get_world, Ec. }
  assert (Hd3 : rdata (redis_server w3) !! _get_cache_key item_id
                = Some (text, Some CACHE_TTL)).
  { subst w3. unfold cached_item. rewrite rdata_cache_set_world, Hs1, Ec, Hd, Hf1, Ht1, H1.
    cbn. apply lookup_insert_eq. }
  assert (Hv : cache_get_value (_get_cache_key item_id) w3 = PyDict item).
  { rewrite cache_get_value_eq. subst w3. unfold cached_item.
    rewrite service_cache_set_world, rfault_cache_set_world, rtick_cache_set_world,
      Hs1, Ec, Hd, Hf1, Ht1, H2.
    fold (cached_item item_id item w2).
    rewrite (decoded_lookup _ _ _ _ _ Hd3 Hl).
    apply String.eqb_neq in Hne. now rewrite Hne. }
  assert (Htr : truthy (PyDict item) = true) by (destruct item; [congruence|reflexivity]).
  split; [reflexivity|].
  rewrite get_item_eq. cbv zeta. rewrite Hv, Htr.
  rewrite ItemResponse_kwargs_dict. cbn [fst snd].
  split; [reflexivity|]. split; [now autorewrite with trace|].
  pose proof (co_metrics _ _ (cache_get_call_only (_get_cache_key item_id) w3)) as Hm.
  fold (cache_get_world (_get_cache_key item_id) w3) in Hm.
  cbn [metrics count_cache_hit set_metrics CACHE_HITS CACHE_MISSES]. rewrite Hm.
  split; [|reflexivity].
  unfold inc. now rewrite lookup_insert_eq.
Qed.

(** ** More of the code: invariants of the reachable states *)

(** The keys of a stored item, in the order [create_item] writes them. *)
Definition ITEM_KEYS : list string :=
  ["id"; "name"; "description"; "price"; "quantity"; "tags"; "created_at"; "updated_at"].

Definition item_shape (item_id : string) (item : list (string * pyval)) : Prop :=
  List.map fst item = ITEM_KEYS /\ dict_get "id" item = Some (PyStr item_id).

Lemma dict_get_key {V} k (d : list (string * V)) :
  In k (List.map fst d) -> dict_get k d <> None.
Proof.
  induction d as [|[k' v'] d IH]; cbn; [tauto|].
  intros [->|H].
  - now rewrite String.eqb_refl.
  - destruct (String.eqb k k'); [discriminate|]. now apply IH.
Qed.

Lemma apply_update_keys update_data item_data :
  (forall k, In k (List.map fst update_data) -> In k (List.map fst item_data)) ->
  List.map fst (apply_update update_data item_data) = List.map fst item_data.
Proof.
  unfold apply_update. revert item_data.
  induction update_data as [|[k v] u IH]; intros item_data Hin; cbn; [reflexivity|].
  assert (Hk : List.map fst (dict_set k v item_data) = List.map fst item_data).
  { apply dict_keys_set_old, dict_get_key, Hin. now left. }
  rewrite IH; [exact Hk|]. intros k' Hk'. rewrite Hk. apply Hin. now right.
Qed.

Lemma model_dump_exclude_unset_keys item k :
  In k (List.map fst (ItemUpdate.model_dump_exclude_unset item)) ->
  In k ["name"; "description"; "price"; "quantity"; "tags"].
Proof.
  destruct item as [n d p q t]. unfold ItemUpdate.model_dump_exclude_unset.
  cbn [ItemUpdate.name ItemUpdate.description ItemUpdate.price ItemUpdate.quantity
       ItemUpdate.tags].
  rewrite !List.map_app, !in_app_iff.
  assert (Hf : forall A key (inj : A -> pyval) f,
             In k (List.map fst (ItemUpdate.field key inj f)) -> k = key).
  { intros A key inj [[a|]|]; cbn; intuition. }
  intros [H|[H|[H|[H|H]]]]; apply Hf in H; subst; cbn; auto 10.
Qed.

Lemma updated_item_data_keeps now item old k :
  ~ In k ["name"; "description"; "price"; "quantity"; "tags"; "updated_at"] ->
  dict_get k (updated_item_data now item old) = dict_get k old.
Proof.
  intros Hk. unfold updated_item_data.
  rewrite dict_get_set_ne by (intros <-; apply Hk; cbn; auto 10).
  rewrite dict_get_apply_update by apply model_dump_exclude_unset_NoDup.
  rewrite dict_get_not_key; [reflexivity|].
  intros Hin. apply model_dump_exclude_unset_keys in Hin.
  apply Hk. cbn in *. intuition.
Qed.

Lemma item_shape_new uuid4 now item : item_shape uuid4 (new_item_data uuid4 now item).
Proof. split; reflexivity. Qed.

Lemma item_shape_updated item_id now item old :
  item_shape item_id old -> item_shape item_id (updated_item_data now item old).
Proof.
  intros [Hkeys Hid]. split.
  - unfold updated_item_data.
    assert (Ha : List.map fst (apply_update (ItemUpdate.model_dump_exclude_unset item) old)
                 = ITEM_KEYS).
    { rewrite apply_update_keys; [exact Hkeys|].
      intros k Hk. apply model_dump_exclude_unset_keys in Hk.
      rewrite Hkeys. unfold ITEM_KEYS. cbn in *. intuition. }
    rewrite dict_keys_set_old; [exact Ha|].
    apply dict_get_key. rewrite Ha. unfold ITEM_KEYS. cbn. auto 10.
  - rewrite updated_item_data_keeps; [exact Hid|].
    cbn. intuition discriminate.
Qed.

Definition well_shaped (db : list (string * list (string * pyval))) : Prop :=
  forall item_id item, dict_get item_id db = Some item -> item_shape item_id item.

Lemma well_shaped_store_only q db : well_shaped db -> well_shaped (store_only q db).2.
Proof.
  intros H. destruct q as [u t i|k|k t i|k|pg ps]; cbn.
  - intros id item. destruct (decide (u = id)) as [<-|Hne].
    + rewrite dict_get_set_eq. intros [= <-]. apply item_shape_new.
    + rewrite dict_get_set_ne by assumption. apply H.
  - unfold store_only_read. now destruct (dict_get k db).
  - unfold store_only_update. destruct (dict_get k db) as [old|] eqn:Hk; cbn; [|exact H].
    intros id item. destruct (decide (k = id)) as [<-|Hne].
    + rewrite dict_get_set_eq. intros [= <-]. apply item_shape_updated. now apply H.
    + rewrite dict_get_set_ne by assumption. apply H.
  - unfold store_only_delete. destruct (dict_get k db) as [old|] eqn:Hk; cbn; [|exact H].
    intros id item. destruct (decide (k = id)) as [<-|Hne].
    + now rewrite dict_get_del_eq.
    + rewrite dict_get_del_ne by assumption. apply H.
  - exact H.
Qed.

Lemma reachable_well_shaped w : reachable w -> well_shaped (_items_db w).
Proof.
  induction 1 as [w (Hdb & _)|w w' _ IH Hs].
  - rewrite Hdb. intros id item. discriminate.
  - destruct Hs as [q w|w|w|key w].
    + rewrite (proj1 (handle_store q w)). now apply well_shaped_store_only.
    + now rewrite (proj1 (init_cache_same w)).
    + now rewrite (proj1 (close_cache_same w)).
    + exact IH.
Qed.

(** X16. In every state the service can reach, every stored item has
    exactly the keys id, name, description, price, quantity, tags,
    created_at and updated_at, in that order, and its id is the identifier
    it is stored under; an update never changes the id or created_at of an
    item, whatever fields it sets. *)
Theorem stored_items_keep_shape :
  (forall w, reachable w ->
     forall item_id item,
       dict_get item_id (_items_db w) = Some item ->
       List.map fst item = ITEM_KEYS /\ dict_get "id" item = Some (PyStr item_id)) /\
  (forall utcnow item old,
     dict_get "id" (updated_item_data utcnow item old) = dict_get "id" old /\
     dict_get "created_at" (updated_item_data utcnow item old) =
       dict_get "created_at" old).
Proof.
  split.
  - intros w Hw item_id item Hg. exact (reachable_well_shaped w Hw _ _ Hg).
  - intros now item old.
    split; apply updated_item_data_keeps; cbn; intuition discriminate.
Qed.

(** *** What the cache can hold *)

Lemma rdata_cache_set_world_entry key value ttl w key' text ttl' :
  rdata (redis_server (cache_set_world key value ttl w)) !! key' = Some (text, ttl') ->
  (key' = key /\ ttl' = ttl_given ttl) \/
  rdata (redis_server w) !! key' = Some (text, ttl').
Proof.
  rewrite rdata_cache_set_world.
  destruct (_client _); [|auto].
  destruct (dumps_text value) as [t0|]; [|auto].
  destruct (rfault _ _); [auto|].
  destruct (ttl_given ttl) as [t|]; [destruct (t <=? 0)%Z; [auto|]|];
    (destruct (decide (key = key')) as [<-|Hne];
     [rewrite lookup_insert_eq; intros [= <- <-]; auto
     |rewrite lookup_insert_ne by done; auto]).
Qed.

(** The entries a request leaves in the cache: those that were there, and
    item entries with the fixed expiry. *)
Lemma rdata_handle_entry q w key text ttl :
  rdata (redis_server (handle q w).2) !! key = Some (text, ttl) ->
  rdata (redis_server w) !! key = Some (text, ttl) \/
  (ttl = Some CACHE_TTL /\ exists item_id, key = _get_cache_key item_id).
Proof.
  assert (Hset : forall id item w0,
            rdata (redis_server (cached_item id item w0)) !! key = Some (text, ttl) ->
            rdata (redis_server w0) !! key = Some (text, ttl) \/
            (ttl = Some CACHE_TTL /\ exists item_id, key = _get_cache_key item_id)).
  { intros id item w0 Hk. unfold cached_item in Hk.
    apply rdata_cache_set_world_entry in Hk as [[-> ->]|Hk]; [right|now left].
    split; [reflexivity|]. now exists id. }
  rewrite handle_eq. destruct q as [u t i|k|k t i|k|pg ps]; cbn [snd].
  - rewrite create_item_reply. cbv zeta. cbn [snd].
    change (redis_server (count_item_created ?x)) with (redis_server x).
    intros Hk. apply rdata_cache_delete_world_inv in Hk. apply Hset in Hk. exact Hk.
  - rewrite get_item_eq. cbv zeta. destruct (truthy _).
    + rewrite ItemResponse_kwargs_world.
      change (redis_server (count_cache_hit ?o ?x)) with (redis_server x).
      rewrite rdata_cache_get_world. auto.
    + destruct (dict_get k _); cbn [snd].
      * rewrite ItemResponse_kwargs_world. intros Hk. apply Hset in Hk.
        change (redis_server (count_cache_miss ?o ?x)) with (redis_server x) in Hk.
        now rewrite rdata_cache_get_world in Hk.
      * change (redis_server (count_cache_miss ?o ?x)) with (redis_server x).
        rewrite rdata_cache_get_world. auto.
  - rewrite update_item_eq. destruct (dict_get k (_items_db w)); [|auto].
    cbv zeta. rewrite ItemResponse_kwargs_world.
    intros Hk. apply rdata_cache_delete_world_inv in Hk. apply Hset in Hk. exact Hk.
  - rewrite delete_item_eq. destruct (dict_get k (_items_db w)); [|auto].
    cbn [snd]. change (redis_server (count_item_deleted ?x)) with (redis_server x).
    intros Hk. do 2 apply rdata_cache_delete_world_inv in Hk. now left.
  - rewrite list_items_eq. auto.
Qed.

(** X17. In every state the service can reach, every entry of the cache
    sits under the key of an item and carries the expiry of 3600 seconds;
    in particular the list key is never populated: the handlers only ever
    delete it. *)
Theorem cache_holds_only_expiring_items (w : World) :
  reachable w ->
  (forall key text ttl,
     rdata (redis_server w) !! key = Some (text, ttl) ->
     ttl = Some 3600%Z /\ exists item_id, key = "item:" +:+ item_id) /\
  rdata (redis_server w) !! ITEMS_LIST_KEY = None.
Proof.
  intros Hw.
  assert (H : forall key text ttl,
            rdata (redis_server w) !! key = Some (text, ttl) ->
            ttl = Some CACHE_TTL /\ exists item_id, key = _get_cache_key item_id).
  { induction Hw as [w (_ & _ & Hr & _)|w w' _ IH Hs]; intros key text ttl Hk.
    - now rewrite Hr, lookup_empty in Hk.
    - destruct Hs as [q w|w|w|key0 w].
      + apply rdata_handle_entry in Hk as [Hk|Hk]; [now apply (IH _ _ _ Hk)|exact Hk].
      + rewrite (proj2 (proj2 (init_cache_same w))) in Hk. now apply (IH _ _ _ Hk).
      + rewrite (proj2 (proj2 (close_cache_same w))) in Hk. now apply (IH _ _ _ Hk).
      + cbn in Hk. destruct (decide (key0 = key)) as [<-|Hne].
        * now rewrite lookup_delete_eq in Hk.
        * rewrite lookup_delete_ne in Hk by done. now apply (IH _ _ _ Hk). }
  split; [exact H|].
  destruct (rdata (redis_server w) !! ITEMS_LIST_KEY) as [[text ttl]|] eqn:E; [|reflexivity].
  destruct (H _ _ _ E) as (_ & id & Hid).
  exfalso. exact (item_key_not_list_key id (eq_sym Hid)).
Qed.

(** *** The business counters over a run *)

Definition is_create (q : Request) : bool :=
  match q with Create _ _ _ => true | _ => false end.

(** A Delete request that was answered normally. *)
Definition deleted_ok (qr : Request * Res Reply) : bool :=
  match qr with
  | (Delete _, Ok _) => true
  | _ => false
  end.

(** The cache lookups counted under the label [operation], hits and misses
    together. *)
Definition lookups (operation : string) (m : Metrics) : nat :=
  default 0%nat (CACHE_HITS m !! operation) + default 0%nat (CACHE_MISSES m !! operation).

Lemma metrics_cache_get_world key w : metrics (cache_get_world key w) = metrics w.
Proof. exact (co_metrics _ _ (cache_get_call_only key w)). Qed.

Lemma metrics_cache_set_world key value ttl w :
  metrics (cache_set_world key value ttl w) = metrics w.
Proof. exact (co_metrics _ _ (cache_set_call_only key value ttl w)). Qed.

Lemma metrics_cache_delete_world key w : metrics (cache_delete_world key w) = metrics w.
Proof. exact (co_metrics _ _ (cache_delete_call_only key w)). Qed.

Lemma metrics_cached_item item_id item w : metrics (cached_item item_id item w) = metrics w.
Proof. apply metrics_cache_set_world. Qed.

Lemma metrics_stored item_id item w : metrics (stored item_id item w) = metrics w.
Proof. reflexivity. Qed.

Lemma metrics_removed item_id w : metrics (removed item_id w) = metrics w.
Proof. reflexivity. Qed.

Create Rewrite HintDb mt.

#[local] Hint Rewrite metrics_cache_get_world metrics_cache_set_world
  metrics_cache_delete_world metrics_cached_item metrics_stored metrics_removed
  ItemResponse_kwargs_world : mt.

Ltac counters :=
  unfold lookups, inc; cbn; rewrite ?lookup_insert_eq; cbn; repeat split; lia.

Lemma metrics_handle q w :
  ITEMS_CREATED (metrics (handle q w).2) =
    (ITEMS_CREATED (metrics w) + (if is_create q then 1 else 0))%nat /\
  ITEMS_DELETED (metrics (handle q w).2) =
    (ITEMS_DELETED (metrics w) + (if deleted_ok (q, (handle q w).1) then 1 else 0))%nat /\
  lookups "get_item" (metrics (handle q w).2) =
    (lookups "get_item" (metrics w) + (if is_read q then 1 else 0))%nat.
Proof.
  rewrite handle_eq.
  destruct q as [u t i|k|k t i|k|pg ps]; cbn [fst snd is_create is_read deleted_ok].
  - rewrite create_item_reply. cbv zeta. cbn [fst snd].
    unfold count_item_created at 1 2 3. cbn [metrics set_metrics].
    autorewrite with mt. counters.
  - rewrite get_item_eq. cbv zeta. destruct (truthy _).
    + autorewrite with mt. unfold count_cache_hit. cbn [metrics set_metrics].
      autorewrite with mt. counters.
    + destruct (dict_get k _); cbn [snd]; autorewrite with mt;
        unfold count_cache_miss; cbn [metrics set_metrics];
        autorewrite with mt; counters.
  - rewrite update_item_eq. destruct (dict_get k (_items_db w)); cbn [fst snd].
    + cbv zeta. autorewrite with mt. counters.
    + counters.
  - rewrite delete_item_eq. destruct (dict_get k (_items_db w)); cbn [fst snd reply_of].
    + unfold count_item_deleted at 1 2 3. cbn [metrics set_metrics].
      autorewrite with mt. counters.
    + counters.
  - rewrite list_items_eq. cbn [fst snd]. counters.
Qed.

(** X18. The business counters follow the requests, in front of any cache:
    over any sequence of requests, items_created_total grows by the number
    of create requests, items_deleted_total by the number of delete requests
    that were answered normally (a delete answered 404 is not counted), and
    the cache hits and misses recorded for get_item grow together by the
    number of read requests: every read is counted once, as a hit or as a
    miss. *)
Theorem counters_follow_requests (qs : list Request) (w : World) :
  let m := metrics w in
  let m' := metrics (serve qs w).2 in
  ITEMS_CREATED m' = (ITEMS_CREATED m + length (List.filter is_create qs))%nat /\
  ITEMS_DELETED m' =
    (ITEMS_DELETED m + length (List.filter deleted_ok (combine qs (serve qs w).1)))%nat /\
  lookups "get_item" m' = (lookups "get_item" m + length (List.filter is_read qs))%nat.
Proof.
  cbv zeta. revert w. induction qs as [|q qs IH]; intros w.
  - cbn. repeat split; lia.
  - cbn [serve]. destruct (metrics_handle q w) as (Hc & Hd & Hl).
    destruct (handle q w) as [r w1]. cbn [fst snd] in *.
    destruct (IH w1) as (Hc' & Hd' & Hl').
    destruct (serve qs w1) as [rs w2]. cbn [fst snd] in *.
    rewrite Hc', Hd', Hl', Hc, Hd, Hl. cbn [combine List.filter].
    destruct (is_create q), (deleted_ok (q, r)), (is_read q); cbn [length];
      repeat split; lia.
Qed.

(** *** The pages of a listing *)

(** The items [list_items] answers for a page. *)
Definition page_of (page page_size : Z) (w : World) : list (ItemResponse.t datetime) :=
  match (list_items page page_size w).1 with
  | Ok l => ItemListResponse.items l
  | Raise _ => []
  end.

Lemma entity_replies_ok l rs :
  Forall2 (fun d r => validate_response d = Some r) l rs -> entity_replies l = Ok rs.
Proof.
  induction 1 as [|d r l rs Hv _ IH]; cbn; [reflexivity|].
  unfold entity_reply. now rewrite Hv, IH.
Qed.

Lemma entity_replies_page page page_size l rs :
  Forall2 (fun d r => validate_response d = Some r) l rs ->
  entity_replies (page_slice page page_size l) = Ok (page_slice page page_size rs).
Proof.
  intros H. apply entity_replies_ok. unfold page_slice.
  now apply Forall2_take, Forall2_drop.
Qed.

Lemma concat_pages {A} (n page_size : nat) (l : list A) :
  (length l <= n * page_size)%nat ->
  concat (List.map (fun p => take page_size (drop ((p - 1) * page_size) l)) (seq 1 n)) = l.
Proof.
  revert l. induction n as [|n IH]; intros l Hl.
  - destruct l; [reflexivity|cbn in Hl; lia].
  - cbn [seq List.map concat]. cbn [Nat.sub Nat.mul drop].
    rewrite <- seq_shift, List.map_map.
    rewrite (List.map_ext_in _
               (fun p => take page_size (drop ((p - 1) * page_size) (drop page_size l)))).
    + rewrite IH; [apply take_drop|]. rewrite length_drop. lia.
    + intros p Hp. apply in_seq in Hp. rewrite drop_drop. do 2 f_equal.
      destruct p; [lia|]. cbn. lia.
Qed.

(** X19. The pages of a listing partition the store: for a page size
    between 1 and 100 and a store whose items all validate, every page from
    1 on is answered normally with the same total and the same number of
    pages n, the items of pages 1 to n put one after the other are the
    responses of all stored items in insertion order, each exactly once,
    and every page after n is empty. *)
Theorem pages_partition (page_size : Z) (w : World) :
  (1 <= page_size <= 100)%Z ->
  Forall (fun d => validate_response d <> None) (dict_values (_items_db w)) ->
  exists (n : nat) (all : list (ItemResponse.t datetime)),
    entity_replies (dict_values (_items_db w)) = Ok all /\
    (forall page, (1 <= page)%Z ->
       exists l, list_items page page_size w = (Ok l, w) /\
                 ItemListResponse.total l = Z.of_nat (length all) /\
                 ItemListResponse.total_pages l = Z.of_nat n) /\
    concat (List.map (fun p => page_of (Z.of_nat p) page_size w) (seq 1 n)) = all /\
    (forall page, (Z.of_nat n < page)%Z -> page_of page page_size w = []).
Proof.
  intros Hps Hv.
  destruct (entity_replies_Forall2 _ Hv) as (all & Hall & F2).
  pose proof (Forall2_length _ _ _ F2) as Hlen.
  set (total := Z.of_nat (length (dict_values (_items_db w)))) in *.
  set (pages := if (total =? 0)%Z then 1%Z else ceil_div total page_size).
  assert (Hpages : (1 <= pages /\ total <= pages * page_size)%Z).
  { unfold pages. destruct (total =? 0)%Z eqn:E.
    - apply Z.eqb_eq in E. lia.
    - apply Z.eqb_neq in E.
      pose proof (ceil_div_bounds total page_size) as Hb. unfold total in *. nia. }
  assert (Hlist : forall page, (1 <= page)%Z ->
            list_items page page_size w =
            (Ok {| ItemListResponse.items := page_slice page page_size all;
                   ItemListResponse.total := total;
                   ItemListResponse.page := page;
                   ItemListResponse.page_size := page_size;
                   ItemListResponse.total_pages := pages |}, w)).
  { intros page Hp. rewrite list_items_eq. unfold store_only_list.
    replace ((1 <=? page)%Z && (1 <=? page_size)%Z && (page_size <=? 100)%Z) with true
      by (symmetry; rewrite !andb_true_iff, !Z.leb_le; lia).
    now rewrite (entity_replies_page _ _ _ _ F2). }
  assert (Hof : forall page, (1 <= page)%Z ->
            page_of page page_size w = page_slice page page_size all).
  { intros page Hp. unfold page_of. now rewrite (Hlist page Hp). }
  exists (Z.to_nat pages), all. split; [exact Hall|]. split; [|split].
  - intros page Hp. eexists. split; [apply (Hlist page Hp)|]. cbn.
    split; [unfold total; lia|lia].
  - rewrite (List.map_ext_in _
       (fun p => take (Z.to_nat page_size) (drop ((p - 1) * Z.to_nat page_size) all))).
    + apply concat_pages. unfold total in *. nia.
    + intros p Hp. apply in_seq in Hp. rewrite Hof by lia. unfold page_slice.
      do 2 f_equal.
      replace (Z.of_nat p - 1)%Z with (Z.of_nat (p - 1)) by lia.
      rewrite Z2Nat.inj_mul by lia. now rewrite Nat2Z.id.
  - intros page Hp. rewrite Hof by lia. unfold page_slice.
    rewrite drop_ge; [apply take_nil|]. unfold total in *. nia.
Qed.

(** *** The order of the listing *)

Lemma dict_keys_del {V} k (d : list (string * V)) :
  List.map fst (dict_del k d) =
  List.filter (fun k' => negb (String.eqb k k')) (List.map fst d).
Proof.
  unfold dict_del. induction d as [|[k0 v0] d IH]; cbn; [reflexivity|].
  destruct (String.eqb k k0); cbn; now rewrite IH.
Qed.

Lemma dict_del_absent {V} k (d : list (string * V)) :
  dict_get k d = None -> dict_del k d = d.
Proof.
  unfold dict_del. induction d as [|[k0 v0] d IH]; cbn; [reflexivity|].
  destruct (String.eqb k k0); [discriminate|]. cbn. intros H. now rewrite IH.
Qed.

Lemma db_after q w : _items_db (handle q w).2 = (store_only q (_items_db w)).2.
Proof. exact (proj1 (handle_store q w)). Qed.

(** X20. Requests keep the order of the listing: an item created under an
    identifier the store does not hold goes to the end of the values that
    [list_items] pages through, an update leaves every item at its position,
    whatever fields it sets, and a delete takes out the one identifier and
    leaves the others in their order with their items. *)
Theorem listing_order_kept (w : World) :
  (forall uuid4 utcnow item,
     dict_get uuid4 (_items_db w) = None ->
     dict_values (_items_db (create_item uuid4 utcnow item w).2) =
       dict_values (_items_db w) ++ [new_item_data uuid4 utcnow item]) /\
  (forall item_id utcnow item,
     List.map fst (_items_db (update_item item_id utcnow item w).2) =
       List.map fst (_items_db w)) /\
  (forall item_id,
     List.map fst (_items_db (delete_item item_id w).2) =
       List.filter (fun k => negb (String.eqb item_id k)) (List.map fst (_items_db w)) /\
     forall other, other <> item_id ->
       dict_get other (_items_db (delete_item item_id w).2) =
         dict_get other (_items_db w)).
Proof.
  split; [|split].
  - intros u t i Hfresh.
    pose proof (db_after (Create u t i) w) as H. rewrite handle_eq in H.
    cbn [fst snd store_only] in H. rewrite H. unfold store_only_create. cbn [snd].
    now apply dict_values_set_new.
  - intros k t i.
    pose proof (db_after (Update k t i) w) as H. rewrite handle_eq in H.
    cbn [fst snd store_only] in H. rewrite H. unfold store_only_update.
    destruct (dict_get k (_items_db w)) as [old|] eqn:Hk; cbn [snd]; [|reflexivity].
    apply dict_keys_set_old. congruence.
  - intros k.
    pose proof (db_after (Delete k) w) as H. rewrite handle_eq in H.
    cbn [fst snd store_only] in H. rewrite H. unfold store_only_delete.
    destruct (dict_get k (_items_db w)) as [old|] eqn:Hk; cbn [snd].
    + split; [apply dict_keys_del|]. intros other Hne. apply dict_get_del_ne. congruence.
    + split; [|reflexivity]. rewrite <- dict_keys_del. now rewrite dict_del_absent.
Qed.

(** *** An explicit null in an update *)

Lemma dict_get_In_values {V} k (d : list (string * V)) v :
  dict_get k d = Some v -> In v (dict_values d).
Proof.
  induction d as [|[k0 v0] d IH]; cbn; [discriminate|].
  destruct (String.eqb k k0).
  - intros [= ->]. now left.
  - intros H. right. now apply IH.
Qed.

Lemma entity_replies_invalid l d :
  In d l -> validate_response d = None -> entity_replies l = Raise ValidationError.
Proof.
  intros Hin Hv. induction l as [|e l IH]; [destruct Hin|]. cbn.
  unfold entity_reply at 1. destruct (validate_response e) as [r|] eqn:He; [|reflexivity].
  destruct Hin as [->|Hin]; [congruence|]. now rewrite IH.
Qed.

Lemma updated_item_data_null_name utcnow item old :
  ItemUpdate.name item = Some None ->
  dict_get "name" (updated_item_data utcnow item old) = Some PyNone.
Proof.
  intros Hn. unfold updated_item_data.
  rewrite dict_get_set_ne by discriminate.
  rewrite dict_get_apply_update by apply model_dump_exclude_unset_NoDup.
  unfold ItemUpdate.model_dump_exclude_unset. now rewrite Hn.
Qed.

(** X21. An update that sets name to an explicit null is accepted by
    ItemUpdate and written to the record store before the response is
    built. When ItemResponse refuses a dictionary whose name is None, the
    update itself fails with the validation error after the store is
    changed, the stored item keeps the null, a Read of it with no cache
    client fails with the same error, and so does the listing of a page
    that holds the whole store. *)
Theorem null_update_breaks_item
    (item_id : string) (utcnow : datetime) (item : ItemUpdate.t) (w : World)
    (old : list (string * pyval)) (page_size : Z) :
  dict_get item_id (_items_db w) = Some old ->
  ItemUpdate.name item = Some None ->
  (forall d, dict_get "name" d = Some PyNone -> validate_response d = None) ->
  let u := update_item item_id utcnow item w in
  u.1 = Raise ValidationError /\
  (exists new,
     dict_get item_id (_items_db u.2) = Some new /\
     dict_get "name" new = Some PyNone) /\
  (_client (current_service w) = None ->
   (get_item item_id u.2).1 = Raise ValidationError) /\
  ((1 <= page_size <= 100)%Z ->
   (Z.of_nat (length (_items_db w)) <= page_size)%Z ->
   (list_items 1 page_size u.2).1 = Raise ValidationError).
Proof.
  intros Hold Hnull Hv u. subst u.
  rewrite (update_item_found _ utcnow item _ _ Hold). cbv zeta. cbn [fst snd].
  set (new := updated_item_data utcnow item old).
  assert (Hname : dict_get "name" new = Some PyNone)
    by now apply updated_item_data_null_name.
  assert (Hbad : entity_reply new = Raise ValidationError).
  { unfold entity_reply. now rewrite (Hv new Hname). }
  set (w3 := cache_delete_world ITEMS_LIST_KEY (cached_item item_id new (stored item_id new w))).
  assert (Hdb : _items_db w3 = dict_set item_id new (_items_db w)).
  { subst w3. now autorewrite with db. }
  assert (Hnew : dict_get item_id (_items_db w3) = Some new).
  { rewrite Hdb. apply dict_get_set_eq. }
  split; [exact Hbad|]. split; [|split].
  - exists new. split; [exact Hnew|exact Hname].
  - intros Hc. rewrite (get_item_agrees _ _ _ Hnew); [exact Hbad|].
    left. rewrite cache_get_value_eq. subst w3.
    rewrite service_cache_delete_world'. unfold cached_item.
    rewrite service_cache_set_world.
    change (current_service (stored item_id new w)) with (current_service w).
    now rewrite Hc.
  - intros Hps Hlen. rewrite list_items_eq. cbn [fst]. unfold store_only_list.
    replace ((1 <=? 1)%Z && (1 <=? page_size)%Z && (page_size <=? 100)%Z) with true
      by (symmetry; rewrite !andb_true_iff, !Z.leb_le; lia).
    assert (Hl : length (dict_values (_items_db w3)) = length (_items_db w)).
    { unfold dict_values. rewrite length_map, <- (length_map fst), Hdb.
      rewrite dict_keys_set_old by congruence. apply length_map. }
    assert (Hpage : page_slice 1 page_size (dict_values (_items_db w3))
                    = dict_values (_items_db w3)).
    { unfold page_slice. cbn [Z.sub Z.mul Z.to_nat skipn Z.pos_sub].
      apply firstn_all2. lia. }
    rewrite Hpage.
    now rewrite (entity_replies_invalid _ new (dict_get_In_values _ _ _ Hnew) (Hv new Hname)).
Qed.

(** ** Store and cache: what each holds after an operation *)

(** The values [json.dumps] encodes: everything but objects. *)
Fixpoint json_shaped (v : pyval) : bool :=
  match v with
  | PyList l => forallb json_shaped l
  | PyDict d => forallb (fun kv => json_shaped (snd kv)) d
  | PyObject _ => false
  | _ => true
  end.

(** Every item of the record store is a dictionary [json.dumps] encodes. *)
Definition store_json (w : World) : Prop :=
  forall item_id item,
    dict_get item_id (_items_db w) = Some item -> json_shaped (PyDict item) = true.

(** The cache client is connected and the server serves every command. *)
Definition cache_serves (w : World) : Prop := forall n, cache_up n w.

(** Every item entry of the cache is the serialization of the item the
    record store holds under the same identifier. *)
Definition cache_agrees_with_store (w : World) : Prop :=
  forall item_id text ttl,
    rdata (redis_server w) !! _get_cache_key item_id = Some (text, ttl) ->
    exists item,
      dict_get item_id (_items_db w) = Some item /\
      dumps_text (PyDict item) = Some text.

Lemma json_shaped_dict_set k v d :
  json_shaped (PyDict d) = true -> json_shaped v = true ->
  json_shaped (PyDict (dict_set k v d)) = true.
Proof.
  cbn [json_shaped]. intros Hd Hv.
  induction d as [|[k0 v0] d IH]; cbn [dict_set forallb snd].
  - now rewrite Hv.
  - cbn [forallb snd] in Hd. apply andb_prop in Hd as [H0 Hd].
    destruct (String.eqb k k0); cbn [forallb snd].
    + now rewrite Hv, Hd.
    + now rewrite H0, IH.
Qed.

Lemma json_shaped_apply_update update_data item_data :
  json_shaped (PyDict update_data) = true ->
  json_shaped (PyDict item_data) = true ->
  json_shaped (PyDict (apply_update update_data item_data)) = true.
Proof.
  unfold apply_update. revert item_data.
  induction update_data as [|[k v] u IH]; intros item_data Hu Hd; cbn [fold_left];
    [exact Hd|].
  cbn [json_shaped forallb snd] in Hu. apply andb_prop in Hu as [Hv Hu].
  apply IH; [exact Hu|]. now apply json_shaped_dict_set.
Qed.

Lemma json_shaped_strs l : forallb json_shaped (List.map PyStr l) = true.
Proof. induction l as [|s l IH]; cbn; auto. Qed.

Lemma json_shaped_model_dump_exclude_unset item :
  json_shaped (PyDict (ItemUpdate.model_dump_exclude_unset item)) = true.
Proof.
  destruct item as [n d p q t]. unfold ItemUpdate.model_dump_exclude_unset.
  cbn [ItemUpdate.name ItemUpdate.description ItemUpdate.price ItemUpdate.quantity
       ItemUpdate.tags json_shaped].
  rewrite !forallb_app.
  destruct n as [[?|]|], d as [[?|]|], p as [[?|]|], q as [[?|]|], t as [[?|]|];
    cbn; rewrite ?json_shaped_strs; reflexivity.
Qed.

Lemma json_shaped_new_item_data uuid4 utcnow item :
  json_shaped (PyDict (new_item_data uuid4 utcnow item)) = true.
Proof.
  destruct item as [n d p q t]. cbn. rewrite json_shaped_strs. now destruct d.
Qed.

Lemma json_shaped_updated_item_data utcnow item old :
  json_shaped (PyDict old) = true ->
  json_shaped (PyDict (updated_item_data utcnow item old)) = true.
Proof.
  intros Hold. unfold updated_item_data.
  apply json_shaped_dict_set; [|reflexivity].
  apply json_shaped_apply_update; [apply json_shaped_model_dump_exclude_unset|exact Hold].
Qed.

Lemma store_json_handle q w : store_json w -> store_json (handle q w).2.
Proof.
  unfold store_json. rewrite db_after. intros H.
  destruct q as [u t i|k|k t i|k|pg ps]; cbn [store_only snd].
  - unfold store_only_create. cbn [snd]. intros id item.
    destruct (decide (u = id)) as [<-|Hne].
    + rewrite dict_get_set_eq. intros [= <-]. apply json_shaped_new_item_data.
    + rewrite dict_get_set_ne by assumption. apply H.
  - unfold store_only_read. now destruct (dict_get k (_items_db w)).
  - unfold store_only_update.
    destruct (dict_get k (_items_db w)) as [old|] eqn:Hk; cbn [snd]; [|exact H].
    intros id item. destruct (decide (k = id)) as [<-|Hne].
    + rewrite dict_get_set_eq. intros [= <-].
      apply json_shaped_updated_item_data. now apply (H k).
    + rewrite dict_get_set_ne by assumption. apply H.
  - unfold store_only_delete.
    destruct (dict_get k (_items_db w)) as [old|] eqn:Hk; cbn [snd]; [|exact H].
    intros id item. destruct (decide (k = id)) as [<-|Hne].
    + now rewrite dict_get_del_eq.
    + rewrite dict_get_del_ne by assumption. apply H.
  - exact H.
Qed.

Lemma handle_drift q w : drift w (handle q w).2.
Proof.
  rewrite handle_eq. destruct q as [u t i|k|k t i|k|pg ps]; cbn [snd].
  - rewrite create_item_reply. cbv zeta. cbn [snd]. drift_chain.
  - rewrite get_item_eq. cbv zeta. destruct (truthy _).
    + rewrite ItemResponse_kwargs_world. drift_chain.
    + destruct (dict_get k _); cbn [snd]; rewrite ?ItemResponse_kwargs_world; drift_chain.
  - rewrite update_item_eq. destruct (dict_get k (_items_db w)); cbn [snd];
      [cbv zeta; rewrite ItemResponse_kwargs_world|]; drift_chain.
  - rewrite delete_item_eq. destruct (dict_get k (_items_db w)); cbn [snd]; drift_chain.
  - rewrite list_items_eq. apply drift_refl.
Qed.

Lemma cache_serves_drift w w' : cache_serves w -> drift w w' -> cache_serves w'.
Proof.
  intros Hs [Hf Ht Hc] n. split.
  - rewrite Hc. apply (Hs 0%nat).
  - intros i Hi. rewrite Hf.
    destruct (Hs (S (rtick (redis_server w') + i))) as [_ Hup].
    replace (rtick (redis_server w') + i)%nat
      with (rtick (redis_server w) + (rtick (redis_server w') - rtick (redis_server w) + i))%nat
      by lia.
    apply Hup. lia.
Qed.

Lemma cache_up_stored n item_id item w : cache_up n w -> cache_up n (stored item_id item w).
Proof. intros H. exact H. Qed.

Lemma cache_up_removed n item_id w : cache_up n w -> cache_up n (removed item_id w).
Proof. intros H. exact H. Qed.

(** The cache after the two cache calls of Create and Update, when both
    commands are served. *)
Lemma rdata_set_then_invalidate item_id item text w :
  cache_up 2 w ->
  dumps_text (PyDict item) = Some text ->
  rdata (redis_server (cache_delete_world ITEMS_LIST_KEY (cached_item item_id item w))) =
    delete ITEMS_LIST_KEY
      (<[_get_cache_key item_id := (text, Some CACHE_TTL)]> (rdata (redis_server w))).
Proof.
  intros Hup Hd. destruct (cache_up_now _ _ Hup) as [[client Hc] Hf].
  assert (Hup1 : cache_up 1 (cached_item item_id item w)).
  { destruct (drift_cached_item item_id item w).
    eapply cache_up_after; eauto.
    unfold cached_item. now rewrite rtick_cache_set_world, Hc, Hd. }
  rewrite (proj1 (cache_up_delete _ _ _ Hup1)). f_equal.
  unfold cached_item. apply (cache_up_set 1); [exact Hup|exact Hd|reflexivity].
Qed.

(** The cache after the two cache calls of Delete, when both commands are
    served. *)
Lemma rdata_delete_then_invalidate item_id w :
  cache_up 2 w ->
  rdata (redis_server
           (cache_delete_world ITEMS_LIST_KEY
              (cache_delete_world (_get_cache_key item_id) w))) =
    delete ITEMS_LIST_KEY (delete (_get_cache_key item_id) (rdata (redis_server w))).
Proof.
  intros Hup. destruct (cache_up_delete _ (_get_cache_key item_id) _ Hup) as [Hd Hup1].
  now rewrite (proj1 (cache_up_delete _ _ _ Hup1)), Hd.
Qed.

Lemma agrees_after_write w w' item_id item text :
  cache_agrees_with_store w ->
  _items_db w' = dict_set item_id item (_items_db w) ->
  rdata (redis_server w') =
    delete ITEMS_LIST_KEY
      (<[_get_cache_key item_id := (text, Some CACHE_TTL)]> (rdata (redis_server w))) ->
  dumps_text (PyDict item) = Some text ->
  cache_agrees_with_store w'.
Proof.
  intros Ha Hdb Hr Hd id text' ttl' Hk. rewrite Hr in Hk. rewrite Hdb.
  rewrite lookup_delete_ne in Hk by (apply not_eq_sym, item_key_not_list_key).
  destruct (decide (item_id = id)) as [<-|Hne].
  - rewrite lookup_insert_eq in Hk. injection Hk as <- _.
    exists item. split; [apply dict_get_set_eq|exact Hd].
  - rewrite lookup_insert_ne in Hk by (intros E; apply Hne, _get_cache_key_inj, E).
    rewrite dict_get_set_ne by assumption. now apply (Ha id text' ttl').
Qed.

Lemma agrees_after_populate w w' item_id item text :
  cache_agrees_with_store w ->
  _items_db w' = _items_db w ->
  dict_get item_id (_items_db w) = Some item ->
  rdata (redis_server w') =
    <[_get_cache_key item_id := (text, Some CACHE_TTL)]> (rdata (redis_server w)) ->
  dumps_text (PyDict item) = Some text ->
  cache_agrees_with_store w'.
Proof.
  intros Ha Hdb Hitem Hr Hd id text' ttl' Hk. rewrite Hr in Hk. rewrite Hdb.
  destruct (decide (item_id = id)) as [<-|Hne].
  - rewrite lookup_insert_eq in Hk. injection Hk as <- _.
    exists item. split; [exact Hitem|exact Hd].
  - rewrite lookup_insert_ne in Hk by (intros E; apply Hne, _get_cache_key_inj, E).
    now apply (Ha id text' ttl').
Qed.

Lemma agrees_after_delete w w' item_id :
  cache_agrees_with_store w ->
  _items_db w' = dict_del item_id (_items_db w) ->
  rdata (redis_server w') =
    delete ITEMS_LIST_KEY (delete (_get_cache_key item_id) (rdata (redis_server w))) ->
  cache_agrees_with_store w'.
Proof.
  intros Ha Hdb Hr id text' ttl' Hk. rewrite Hr in Hk. rewrite Hdb.
  rewrite lookup_delete_ne in Hk by (apply not_eq_sym, item_key_not_list_key).
  destruct (decide (item_id = id)) as [<-|Hne].
  - now rewrite lookup_delete_eq in Hk.
  - rewrite lookup_delete_ne in Hk by (intros E; apply Hne, _get_cache_key_inj, E).
    rewrite dict_get_del_ne by assumption. now apply (Ha id text' ttl').
Qed.

Lemma agrees_same w w' :
  cache_agrees_with_store w ->
  _items_db w' = _items_db w ->
  rdata (redis_server w') = rdata (redis_server w) ->
  cache_agrees_with_store w'.
Proof. intros Ha Hdb Hr id text ttl. rewrite Hr, Hdb. apply Ha. Qed.

Lemma encodes d :
  (forall v, json_shaped v = true -> dumps_text v <> None) ->
  json_shaped (PyDict d) = true ->
  exists text, dumps_text (PyDict d) = Some text.
Proof.
  intros Hcodec Hd. specialize (Hcodec _ Hd).
  destruct (dumps_text (PyDict d)) as [text|]; [eauto|congruence].
Qed.

(** One request in front of a cache that serves its commands (a request
    sends the cache two commands at most) keeps the cache in agreement
    with the record store. *)
Lemma agrees_handle q w :
  (forall v, json_shaped v = true -> dumps_text v <> None) ->
  cache_up 2 w -> store_json w -> cache_agrees_with_store w ->
  cache_agrees_with_store (handle q w).2.
Proof.
  intros Hcodec Hs Hj Ha. rewrite handle_eq.
  destruct q as [u t i|k|k t i|k|pg ps]; cbn [snd].
  - rewrite create_item_reply. cbv zeta. cbn [snd].
    destruct (encodes _ Hcodec (json_shaped_new_item_data u t i)) as [text Hd].
    apply (agrees_after_write w _ u (new_item_data u t i) text Ha); [| |exact Hd].
    + now autorewrite with db.
    + change (redis_server (count_item_created ?x)) with (redis_server x).
      rewrite (rdata_set_then_invalidate _ _ text); [reflexivity| |exact Hd].
      apply cache_up_stored, Hs.
  - rewrite get_item_eq. cbv zeta.
    destruct (cache_up_get 1 (_get_cache_key k) w Hs) as [_ Hup1].
    destruct (truthy _).
    + rewrite ItemResponse_kwargs_world. apply (agrees_same w); [exact Ha| |].
      * now autorewrite with db.
      * change (redis_server (count_cache_hit ?o ?x)) with (redis_server x).
        apply rdata_cache_get_world.
    + destruct (dict_get k (_items_db (count_cache_miss _ _))) as [item|] eqn:Hk;
        cbn [snd].
      * rewrite ItemResponse_kwargs_world.
        autorewrite with db in Hk.
        destruct (encodes _ Hcodec (Hj _ _ Hk)) as [text Hd].
        apply (agrees_after_populate w _ k item text Ha); [|exact Hk| |exact Hd].
        -- now autorewrite with db.
        -- unfold cached_item.
           rewrite (cache_up_set 0 _ _ text); [|exact Hup1|exact Hd|reflexivity].
           change (redis_server (count_cache_miss ?o ?x)) with (redis_server x).
           now rewrite rdata_cache_get_world.
      * apply (agrees_same w); [exact Ha| |].
        -- now autorewrite with db.
        -- change (redis_server (count_cache_miss ?o ?x)) with (redis_server x).
           apply rdata_cache_get_world.
  - rewrite update_item_eq.
    destruct (dict_get k (_items_db w)) as [old|] eqn:Hk; cbn [snd]; [|exact Ha].
    cbv zeta. rewrite ItemResponse_kwargs_world.
    destruct (encodes _ Hcodec (json_shaped_updated_item_data t i old (Hj _ _ Hk)))
      as [text Hd].
    apply (agrees_after_write w _ k (updated_item_data t i old) text Ha); [| |exact Hd].
    + now autorewrite with db.
    + rewrite (rdata_set_then_invalidate _ _ text); [reflexivity| |exact Hd].
      apply cache_up_stored, Hs.
  - rewrite delete_item_eq.
    destruct (dict_get k (_items_db w)) as [old|] eqn:Hk; cbn [snd]; [|exact Ha].
    apply (agrees_after_delete w _ k Ha).
    + now autorewrite with db.
    + change (redis_server (count_item_deleted ?x)) with (redis_server x).
      rewrite rdata_delete_then_invalidate; [reflexivity|].
      apply cache_up_removed, Hs.
  - rewrite list_items_eq. exact Ha.
Qed.

(** The steps of a process in front of a cache that answers: a request
    handled while the client is connected and the server serves the two
    commands it may send, connecting the cache, closing it, and the expiry
    of a key. *)
Inductive served_step : World -> World -> Prop :=
  | served_handle q w : cache_up 2 w -> served_step w (handle q w).2
  | served_init_cache w : served_step w (init_cache w).2
  | served_close_cache w : served_step w (close_cache w).2
  | served_expire key w : served_step w (expire key w).

Inductive served_run : World -> World -> Prop :=
  | served_run_refl w : served_run w w
  | served_run_step w w1 w2 : served_run w w1 -> served_step w1 w2 -> served_run w w2.

Lemma agrees_served_step w w' :
  (forall v, json_shaped v = true -> dumps_text v <> None) ->
  served_step w w' ->
  store_json w /\ cache_agrees_with_store w ->
  store_json w' /\ cache_agrees_with_store w'.
Proof.
  intros Hcodec Hstep [Hj Ha]. destruct Hstep as [q w Hs|w|w|key w].
  - split; [now apply store_json_handle|now apply agrees_handle].
  - destruct (init_cache_same w) as (Hdb & _ & Hr). split.
    + unfold store_json. now rewrite Hdb.
    + now apply (agrees_same w).
  - destruct (close_cache_same w) as (Hdb & _ & Hr). split.
    + unfold store_json. now rewrite Hdb.
    + now apply (agrees_same w).
  - split; [exact Hj|]. intros id text ttl Hk. cbn in Hk.
    destruct (decide (key = _get_cache_key id)) as [->|Hne].
    + now rewrite lookup_delete_eq in Hk.
    + rewrite lookup_delete_ne in Hk by assumption. now apply (Ha id text ttl).
Qed.

Lemma agrees_served_run w w' :
  (forall v, json_shaped v = true -> dumps_text v <> None) ->
  served_run w w' ->
  store_json w /\ cache_agrees_with_store w ->
  store_json w' /\ cache_agrees_with_store w'.
Proof.
  intros Hcodec Hrun H. induction Hrun as [w|w w1 w2 _ IH Hstep]; [exact H|].
  exact (agrees_served_step _ _ Hcodec Hstep (IH H)).
Qed.

Lemma agrees_serve qs w :
  (forall v, json_shaped v = true -> dumps_text v <> None) ->
  cache_serves w -> store_json w -> cache_agrees_with_store w ->
  cache_agrees_with_store (serve qs w).2.
Proof.
  intros Hcodec. revert w. induction qs as [|q qs IH]; intros w Hs Hj Ha; [exact Ha|].
  cbn [serve].
  pose proof (agrees_handle q w Hcodec (Hs 2%nat) Hj Ha) as Ha1.
  pose proof (store_json_handle q w Hj) as Hj1.
  pose proof (cache_serves_drift _ _ Hs (handle_drift q w)) as Hs1.
  destruct (handle q w) as [r w1]. cbn [snd] in *.
  specialize (IH w1 Hs1 Hj1 Ha1).
  now destruct (serve qs w1) as [rs w2].
Qed.


Lemma dict_set_new {V} k (v : V) d : dict_get k d = None -> dict_set k v d = d ++ [(k, v)].
Proof.
  induction d as [|[k' v'] d IH]; cbn; [reflexivity|].
  destruct (String.eqb k k'); [discriminate|]. intros H. now rewrite IH.
Qed.


End Service.

(** ** A closed instance

    Timestamps as their ISO text, a validator that accepts exactly the
    declared types, the default settings of [app/core/config.py], and a
    codec that knows one item. *)

Definition iso_text (d : string) : string := d.

Definition get_str (k : string) (d : list (string * pyval)) : option string :=
  match dict_get k d with Some (PyStr s) => Some s | _ => None end.

Definition get_opt_str (k : string) (d : list (string * pyval)) : option (option string) :=
  match dict_get k d with
  | Some (PyStr s) => Some (Some s)
  | Some PyNone => Some None
  | _ => None
  end.

Definition get_float (k : string) (d : list (string * pyval)) : option float :=
  match dict_get k d with Some (PyFloat x) => Some x | _ => None end.

Definition get_int (k : string) (d : list (string * pyval)) : option Z :=
  match dict_get k d with Some (PyInt n) => Some n | _ => None end.

Fixpoint strs (l : list pyval) : option (list string) :=
  match l with
  | [] => Some []
  | PyStr s :: l' => option_map (cons s) (strs l')
  | _ => None
  end.

Definition get_strs (k : string) (d : list (string * pyval)) : option (list string) :=
  match dict_get k d with Some (PyList l) => strs l | _ => None end.

Definition strict_response (d : list (string * pyval)) : option (ItemResponse.t string) :=
  match get_str "id" d, get_str "name" d, get_opt_str "description" d,
        get_float "price" d with
  | Some i, Some n, Some de, Some p =>
      match get_int "quantity" d, get_strs "tags" d, get_str "created_at" d,
            get_str "updated_at" d with
      | Some q, Some t, Some c, Some u =>
          Some {| ItemResponse.id := i; ItemResponse.name := n;
                  ItemResponse.description := de; ItemResponse.price := p;
                  ItemResponse.quantity := q; ItemResponse.tags := t;
                  ItemResponse.created_at := c; ItemResponse.updated_at := u |}
      | _, _, _, _ => None
      end
  | _, _, _, _ => None
  end.

Definition default_settings : Settings :=
  {| redis_url := "redis://localhost:6379/0"; redis_pool_size := 10; redis_timeout := 5 |}.

Definition no_fault : nat -> option RedisErrorKind := fun _ => None.

Definition always_down : nat -> option RedisErrorKind := fun _ => Some ConnectionError.

Definition no_metrics : Metrics :=
  {| CACHE_HITS := ∅; CACHE_MISSES := ∅; ITEMS_CREATED := 0; ITEMS_DELETED := 0 |}.

(** The process right after start, in front of an empty cache. *)
Definition fresh_world (fault : nat -> option RedisErrorKind) : World :=
  {| _items_db := [];
     _cache_service := None;
     redis_server := {| rdata := ∅; rfault := fault; rtick := 0 |};
     metrics := no_metrics;
     trace := [] |}.

Definition widget : ItemCreate.t :=
  {| ItemCreate.name := "Widget";
     ItemCreate.description := Some "A useful widget";
     ItemCreate.price := 29.5%float;
     ItemCreate.quantity := 100;
     ItemCreate.tags := ["electronics"; "gadgets"] |}.

Definition widget_entity : list (string * pyval) :=
  new_item_data string iso_text "id-1" "2024-01-01T00:00:00" widget.

Definition widget_dumps (v : pyval) : option string := Some "widget-json".

Definition widget_loads (text : string) : option pyval :=
  if String.eqb text "widget-json" then Some (PyDict widget_entity) else None.

(** Five items in creation order. *)
Definition five_items : list (string * list (string * pyval)) :=
  List.map (fun i => (i, new_item_data string iso_text i "2024-01-01T00:00:00" widget))
    ["id-1"; "id-2"; "id-3"; "id-4"; "id-5"].

Lemma strs_PyStr l : strs (List.map PyStr l) = Some l.
Proof. induction l as [|s l IH]; cbn; [reflexivity|]. now rewrite IH. Qed.

(** The validator accepts the dictionary of every response and gives the
    response back. *)
Lemma strict_response_dict (r : ItemResponse.t string) :
  strict_response (response_dict string iso_text r) = Some r.
Proof.
  destruct r as [i n de p q t c u]. unfold strict_response, response_dict.
  unfold get_str, get_opt_str, get_float, get_int, get_strs. cbn.
  rewrite strs_PyStr. now destruct de.
Qed.

Lemma initial_fresh_world fault : initial (fresh_world fault).
Proof. repeat split. Qed.

(** The cache connected at start, in front of a server that works. *)
Definition connected_world : World :=
  (init_cache default_settings (fresh_world no_fault)).2.

(** The cache connected, in front of a server that fails every command. *)
Definition down_world : World :=
  let pool := ConnectionPool_from_url default_settings in
  {| _items_db := [];
     _cache_service :=
       Some {| _pool := Some pool; _client := Some {| connection_pool := pool |} |};
     redis_server := {| rdata := ∅; rfault := always_down; rtick := 0 |};
     metrics := no_metrics;
     trace := [] |}.

Definition price_5 : ItemUpdate.t :=
  {| ItemUpdate.name := None; ItemUpdate.description := None;
     ItemUpdate.price := Some (Some 5%float); ItemUpdate.quantity := None;
     ItemUpdate.tags := None |}.

Definition session : list (Request string) :=
  [ Create string "id-1" "2024-01-01T00:00:00" widget;
    Read string "id-1";
    Update string "id-1" "2024-01-02T00:00:00" price_5;
    List string 1 10;
    Delete string "id-1";
    Read string "id-1" ].

(** C9 as worded fails on the code: the key of item 42 is not
    [entity:42], and the list key is not [entities:list]. *)
Lemma cache_keys_not_entity :
  ~ (_get_cache_key "42" = "entity:42" /\ ITEMS_LIST_KEY = "entities:list").
Proof. intros [H _]. vm_compute in H. discriminate H. Qed.

Lemma cache_failure_tolerance_witness :
  cache_fails widget_dumps widget_loads down_world /\
  (serve string iso_text widget_dumps widget_loads strict_response session down_world).1 =
    (store_only_serve string iso_text strict_response session (_items_db down_world)).1 /\
  _items_db
    (serve string iso_text widget_dumps widget_loads strict_response session down_world).2 =
    (store_only_serve string iso_text strict_response session (_items_db down_world)).2 /\
  Forall (fun r => ~ cache_error r)
    (serve string iso_text widget_dumps widget_loads strict_response session down_world).1.
Proof.
  assert (H : cache_fails widget_dumps widget_loads down_world).
  { apply cache_down_fails. right. intros n _. discriminate. }
  split; [exact H|].
  exact (cache_failure_tolerance string iso_text widget_dumps widget_loads
           strict_response session down_world H).
Defined.

Lemma update_item_merges_witness :
  let w := set_items_db [("id-1", widget_entity)] (fresh_world no_fault) in
  dict_get "id-1" (_items_db w) = Some widget_entity /\
  exists new,
    (update_item string iso_text widget_dumps strict_response
       "id-1" "2024-01-02T00:00:00" price_5 w).1 = entity_reply string strict_response new /\
    dict_get "price" new = Some (PyFloat 5%float) /\
    dict_get "name" new = Some (PyStr "Widget") /\
    dict_get "quantity" new = Some (PyInt 100) /\
    dict_get "updated_at" new = Some (PyStr "2024-01-02T00:00:00").
Proof.
  cbv zeta. split; [reflexivity|].
  destruct (update_item_merges string iso_text widget_dumps widget_loads strict_response
              "id-1" "2024-01-02T00:00:00" price_5
              (set_items_db [("id-1", widget_entity)] (fresh_world no_fault))
              widget_entity eq_refl)
    as [(new & Hr & _ & Hset & Hunset & Hupd & _) _].
  exists new. split; [exact Hr|]. split; [now apply Hset|].
  split; [rewrite Hunset; [reflexivity|reflexivity|discriminate]|].
  split; [rewrite Hunset; [reflexivity|reflexivity|discriminate]|].
  exact Hupd.
Defined.

Lemma list_items_spec_witness :
  let w := set_items_db five_items (fresh_world no_fault) in
  (1 <= 1)%Z /\ (1 <= 2 <= 100)%Z /\
  Forall (fun d => strict_response d <> None) (firstn 2 (dict_values (_items_db w))) /\
  exists items,
    list_items string strict_response 1 2 w =
      (Ok {| ItemListResponse.items := items;
             ItemListResponse.total := 5;
             ItemListResponse.page := 1;
             ItemListResponse.page_size := 2;
             ItemListResponse.total_pages := 3 |}, w) /\
    Forall2 (fun d r => strict_response d = Some r)
      (firstn 2 (dict_values five_items)) items.
Proof.
  cbv zeta.
  assert (Hv : Forall (fun d => strict_response d <> None)
                 (firstn 2 (dict_values
                              (_items_db (set_items_db five_items (fresh_world no_fault)))))).
  { repeat constructor; discriminate. }
  split; [lia|]. split; [lia|]. split; [exact Hv|].
  destruct (list_items_spec string strict_response 1 2
              (set_items_db five_items (fresh_world no_fault))
              ltac:(lia) ltac:(lia) Hv)
    as (items & total_pages & E & HF & _ & Hpos & _ & _).
  exists items. split; [|exact HF].
  rewrite E. cbn in Hpos. assert (total_pages = 3%Z) as -> by lia. reflexivity.
Defined.

(** The cache connected and working; it holds the widget under the key of
    [id-1] while the record store holds nothing. *)
Definition stale_world : World :=
  set_redis_server
    {| rdata := {[ "item:id-1" := ("widget-json", Some 3600%Z) ]};
       rfault := no_fault;
       rtick := 1 |}
    connected_world.

Lemma get_item_cache_aside_witness :
  truthy (cache_get_value widget_loads (_get_cache_key "id-1") stale_world) = true /\
  dict_get "id-1" (_items_db stale_world) = None /\
  (get_item string widget_dumps widget_loads strict_response "id-1" stale_world).1 =
    entity_reply string strict_response widget_entity.
Proof.
  assert (Ht : truthy (cache_get_value widget_loads (_get_cache_key "id-1") stale_world)
               = true) by reflexivity.
  split; [exact Ht|]. split; [reflexivity|].
  destruct (get_item_cache_aside string widget_dumps widget_loads strict_response
              "id-1" stale_world) as (_ & _ & Hhit & _).
  destruct (Hhit Ht) as (Hr & _). rewrite Hr. reflexivity.
Defined.

Lemma cache_client_total_witness :
  transport_fault down_world /\
  exists v w',
    CacheService_get widget_loads (current_service down_world) "item:id-1" down_world =
      (Ok v, w') /\ v = PyNone.
Proof.
  assert (Hf : transport_fault down_world) by discriminate.
  split; [exact Hf|].
  destruct (cache_client_total widget_dumps widget_loads (current_service down_world)
              "item:id-1" PyNone None down_world) as ((v & w' & E & Hv) & _).
  exists v, w'. split; [exact E|]. apply Hv. right. now left.
Defined.

Lemma delete_item_spec_witness :
  let w := set_items_db [("id-1", widget_entity)] connected_world in
  dict_get "id-1" (_items_db w) <> None /\
  exists w',
    delete_item "id-1" w = (Ok tt, w') /\
    dict_get "id-1" (_items_db w') = None /\
    (delete_item "id-1" w').1 = Raise (HTTPException 404 "Item id-1 not found").
Proof.
  cbv zeta.
  assert (Hin : dict_get "id-1"
                  (_items_db (set_items_db [("id-1", widget_entity)] connected_world))
                <> None) by discriminate.
  split; [exact Hin|].
  destruct (delete_item_spec "id-1" (set_items_db [("id-1", widget_entity)] connected_world))
    as (_ & Hdel & Htwice).
  destruct (Hdel Hin) as (w' & E & _ & Hgone & _).
  exists w'. split; [exact E|]. split; [exact Hgone|].
  rewrite E in Htwice. exact Htwice.
Defined.

Lemma unconnected_cache_witness :
  _client (current_service (fresh_world no_fault)) = None /\
  (serve string iso_text widget_dumps widget_loads strict_response session
     (fresh_world no_fault)).1 =
  (store_only_serve string iso_text strict_response session []).1.
Proof.
  assert (Hc : _client (current_service (fresh_world no_fault)) = None) by reflexivity.
  split; [exact Hc|].
  destruct (unconnected_cache string iso_text widget_dumps widget_loads strict_response
              CacheService__init__ "item:id-1" PyNone None (fresh_world no_fault))
    as (_ & _ & _ & _ & Hrun).
  destruct (Hrun Hc) as (_ & Hserve). exact (proj1 (Hserve session)).
Defined.

(** ** More of the code: health probes and middlewares

    [app/api/health.py], [app/api/metrics.py] and
    [app/middleware/request_id.py]. The header collection of a request or
    response, the text of an exception, the route template of a request and
    the rendering of a duration come from the framework and are taken as
    given. *)

Section Http.

Variable Headers : Type.
Variable headers_get : Headers -> string -> option string.
Variable headers_set : Headers -> string -> string -> Headers.
Variable exception_text : exn -> string.

Record Response := {
  status_code : Z;
  headers : Headers
}.

(** The [Request] of the framework. *)
Record HttpRequest := {
  method : string;
  url_path : string;
  request_headers : Headers
}.

Variable get_path_template : HttpRequest -> string.
Variable format_ms : float -> string.

(** *** [app/api/health.py] *)

Inductive HealthStatus := HEALTHY | UNHEALTHY | DEGRADED.

Definition HealthStatus_value (s : HealthStatus) : string :=
  match s with
  | HEALTHY => "healthy"
  | UNHEALTHY => "unhealthy"
  | DEGRADED => "degraded"
  end.

Definition health_status (s : HealthStatus) : pyval := PyStr (HealthStatus_value s).

Definition HTTP_503_SERVICE_UNAVAILABLE : Z := 503.

Definition liveness : M (list (string * pyval)) :=
  ret (dict_literal [("status", health_status HEALTHY)]).

(** [check["status"] == status] *)
Definition status_is (s : HealthStatus) (check : list (string * pyval)) : M bool :=
  match dict_get "status" check with
  | Some (PyStr v) => ret (String.eqb v (HealthStatus_value s))
  | Some _ => ret false
  | None => raise (KeyError "status")
  end.

(** [check.get("required", False)] *)
Definition check_required (check : list (string * pyval)) : pyval :=
  match dict_get "required" check with
  | Some v => v
  | None => PyBool false
  end.

(** [any(p(check) for check in checks)] *)
Fixpoint any_check (p : list (string * pyval) -> M bool)
    (checks : list (list (string * pyval))) : M bool :=
  match checks with
  | [] => ret false
  | check :: rest =>
      let* b := p check in
      if b then ret true else any_check p rest
  end.

Definition set_status_code (code : Z) (response : Response) : Response :=
  {| status_code := code; headers := headers response |}.

(** [readiness] answers its dictionary and leaves its verdict in the status
    code of the response object it is given. *)
Definition readiness (response : Response) : M (list (string * pyval) * Response) :=
  let checks0 : list (string * list (string * pyval)) := [] in
  let* checks :=
    try_except
      (let* cache := get_cache_service in
       let* redis_healthy := CacheService_health_check cache in
       ret (dict_set "redis"
              (dict_literal
                 [("status", health_status (if redis_healthy then HEALTHY else UNHEALTHY));
                  ("required", PyBool false)])
              checks0))
      is_Exception
      (fun e =>
         ret (dict_set "redis"
                (dict_literal
                   [("status", health_status UNHEALTHY);
                    ("error", PyStr (exception_text e));
                    ("required", PyBool false)])
                checks0)) in
  let* required_unhealthy :=
    any_check
      (fun check =>
         if truthy (check_required check) then status_is UNHEALTHY check else ret false)
      (dict_values checks) in
  let overall_healthy := negb required_unhealthy in
  let response' :=
    if required_unhealthy then set_status_code HTTP_503_SERVICE_UNAVAILABLE response
    else response in
  let* any_unhealthy := any_check (status_is UNHEALTHY) (dict_values checks) in
  ret (dict_literal
         [("status",
           health_status
             (if negb overall_healthy then UNHEALTHY
              else if any_unhealthy then DEGRADED else HEALTHY));
          ("checks", PyDict (List.map (fun kv => (kv.1, PyDict kv.2)) checks))],
       response').

(** The singleton has a client and the server serves the next command. *)
Definition redis_answers (w : World) : bool :=
  match _client (current_service w),
        rfault (redis_server w) (rtick (redis_server w)) with
  | Some _, None => true
  | _, _ => false
  end.

(** X7. The readiness probe never raises and never changes the status code
    of the response, so it never answers 503: Redis is its only check and is
    not required. Its status is healthy exactly when the singleton has a
    client and the server serves the ping, and degraded otherwise, never
    unhealthy; the record store and the keys of the server are untouched. *)
Theorem readiness_never_unavailable (response : Response) (w : World) :
  exists w',
    readiness response w =
      (Ok ([("status", PyStr (if redis_answers w then "healthy" else "degraded"));
            ("checks",
             PyDict
               [("redis",
                 PyDict [("status",
                          PyStr (if redis_answers w then "healthy" else "unhealthy"));
                         ("required", PyBool false)])])],
           response), w') /\
    _items_db w' = _items_db w /\
    rdata (redis_server w') = rdata (redis_server w).
Proof.
  unfold readiness. unfold bind at 1. unfold try_except.
  rewrite (bind_Ok _ _ _ _ _ (get_cache_service_eq w)).
  unfold redis_answers.
  pose proof (CacheService_health_check_eq (current_service w) (ensure_service w)) as Hh.
  rewrite server_ensure in Hh.
  destruct (_client (current_service w)) as [client|];
    [destruct (rfault (redis_server w) (rtick (redis_server w)))|];
    rewrite (bind_Ok _ _ _ _ _ Hh);
    (eexists; split; [reflexivity|]; cbn;
     split; [apply (co_db _ _ (cache_only_ensure w))|now rewrite ?server_ensure]).
Qed.

(** *** The state of the middlewares

    The request metrics of [app/api/metrics.py] and the context variable of
    [app/middleware/request_id.py], beside the state of the handlers. A
    counter or gauge that has no child for a label set reads 0. *)

Record Registry := {
  REQUEST_COUNT : gmap (string * string * Z) nat;
  REQUEST_LATENCY : gmap (string * string) (list float);
  REQUESTS_IN_PROGRESS : gmap (string * string) Z
}.

Record Server := {
  world : World;
  request_id_ctx : string;
  registry : Registry
}.

(** What the rest of the application does with a request: [call_next]. *)
Definition H (A : Type) : Type := Server -> Res A * Server.

Definition set_registry (r : Registry) (s : Server) : Server :=
  {| world := world s; request_id_ctx := request_id_ctx s; registry := r |}.

Definition set_request_id_ctx (request_id : string) (s : Server) : Server :=
  {| world := world s; request_id_ctx := request_id; registry := registry s |}.

Definition request_count (r : Registry) (labels : string * string * Z) : nat :=
  default 0%nat (REQUEST_COUNT r !! labels).

Definition in_progress (r : Registry) (labels : string * string) : Z :=
  default 0%Z (REQUESTS_IN_PROGRESS r !! labels).

Definition latencies (r : Registry) (labels : string * string) : list float :=
  default [] (REQUEST_LATENCY r !! labels).

(** [REQUESTS_IN_PROGRESS.labels(method=..., endpoint=...).inc()] and [.dec()],
    by the amount [d]. *)
Definition in_progress_add (labels : string * string) (d : Z) (r : Registry) : Registry :=
  {| REQUEST_COUNT := REQUEST_COUNT r;
     REQUEST_LATENCY := REQUEST_LATENCY r;
     REQUESTS_IN_PROGRESS := <[labels := (in_progress r labels + d)%Z]> (REQUESTS_IN_PROGRESS r) |}.

(** [REQUEST_COUNT.labels(method=..., endpoint=..., status_code=...).inc()] *)
Definition count_request (labels : string * string * Z) (r : Registry) : Registry :=
  {| REQUEST_COUNT := <[labels := S (request_count r labels)]> (REQUEST_COUNT r);
     REQUEST_LATENCY := REQUEST_LATENCY r;
     REQUESTS_IN_PROGRESS := REQUESTS_IN_PROGRESS r |}.

(** [REQUEST_LATENCY.labels(method=..., endpoint=...).observe(duration)] *)
Definition observe_latency (labels : string * string) (duration : float) (r : Registry)
    : Registry :=
  {| REQUEST_COUNT := REQUEST_COUNT r;
     REQUEST_LATENCY := <[labels := latencies r labels ++ [duration]]> (REQUEST_LATENCY r);
     REQUESTS_IN_PROGRESS := REQUESTS_IN_PROGRESS r |}.

(** *** [MetricsMiddleware.dispatch]

    [perf_counter_start] and [perf_counter_end] stand for what
    [time.perf_counter()] answers before and after [call_next]. The local
    variable [status_code] is assigned after [call_next] returns, or by the
    [except Exception] clause; an exception that is not an [Exception]
    (a cancellation) passes that clause by and leaves it unbound, and the
    [finally] block then fails with [UnboundLocalError] at the first
    statement that reads it, before anything is recorded. *)
Definition MetricsMiddleware_dispatch (perf_counter_start perf_counter_end : float)
    (request : HttpRequest) (call_next : H Response) : H Response :=
  if String.eqb (url_path request) "/metrics" then call_next
  else
    fun s =>
      let method := method request in
      let path := get_path_template request in
      let s1 := set_registry (in_progress_add (method, path) 1 (registry s)) s in
      let start_time := perf_counter_start in
      let '(r, s2) := call_next s1 in
      let status_code : option Z :=
        match r with
        | Ok response => Some (status_code response)
        | Raise e => if is_Exception e then Some 500%Z else None
        end in
      let duration := PrimFloat.sub perf_counter_end start_time in
      match status_code with
      | None => (Raise UnboundLocalError, s2)
      | Some status_code =>
          (r,
           set_registry
             (in_progress_add (method, path) (-1)
                (observe_latency (method, path) duration
                   (count_request (method, path, status_code) (registry s2))))
             s2)
      end.

(** *** [RequestIDMiddleware.dispatch] *)

Definition HEADER_NAME : string := "X-Request-ID".

Definition get_request_id : H string := fun s => (Ok (request_id_ctx s), s).

(** [request.headers.get(self.HEADER_NAME) or str(uuid.uuid4())] *)
Definition incoming_or_new (uuid4 : string) (request : HttpRequest) : string :=
  match headers_get (request_headers request) HEADER_NAME with
  | Some v => if String.eqb v "" then uuid4 else v
  | None => uuid4
  end.

Definition RequestIDMiddleware_dispatch (uuid4 : string)
    (perf_counter_start perf_counter_end : float)
    (request : HttpRequest) (call_next : H Response) : H Response :=
  fun s =>
    let request_id := incoming_or_new uuid4 request in
    let s1 := set_request_id_ctx request_id s in
    let start_time := perf_counter_start in
    match call_next s1 with
    | (Raise e, s2) => (Raise e, s2)
    | (Ok response, s2) =>
        let duration_ms :=
          PrimFloat.mul (PrimFloat.sub perf_counter_end start_time) 1000%float in
        let h1 := headers_set (headers response) HEADER_NAME request_id in
        let h2 := headers_set h1 "X-Response-Time" (format_ms duration_ms) in
        (Ok {| status_code := status_code response; headers := h2 |}, s2)
    end.

Lemma in_progress_add_lookup labels d r k :
  in_progress (in_progress_add labels d r) k =
  if decide (labels = k) then (in_progress r k + d)%Z else in_progress r k.
Proof.
  unfold in_progress at 1. cbn. destruct (decide (labels = k)) as [<-|Hne].
  - now rewrite lookup_insert_eq.
  - now rewrite lookup_insert_ne.
Qed.

Lemma request_count_count_request labels r k :
  request_count (count_request labels r) k =
  if decide (labels = k) then S (request_count r k) else request_count r k.
Proof.
  unfold request_count at 1. cbn. destruct (decide (labels = k)) as [<-|Hne].
  - now rewrite lookup_insert_eq.
  - now rewrite lookup_insert_ne.
Qed.

Lemma latencies_observe_latency labels duration r k :
  latencies (observe_latency labels duration r) k =
  if decide (labels = k) then latencies r k ++ [duration] else latencies r k.
Proof.
  unfold latencies at 1. cbn. destruct (decide (labels = k)) as [<-|Hne].
  - now rewrite lookup_insert_eq.
  - now rewrite lookup_insert_ne.
Qed.

Lemma registry_set_registry r s : registry (set_registry r s) = r.
Proof. reflexivity. Qed.

Lemma in_progress_observe_latency labels duration r k :
  in_progress (observe_latency labels duration r) k = in_progress r k.
Proof. reflexivity. Qed.

Lemma in_progress_count_request labels r k :
  in_progress (count_request labels r) k = in_progress r k.
Proof. reflexivity. Qed.

(** X8. The request-id middleware takes the identifier from the incoming
    X-Request-ID header, or a new one when the header is missing or empty,
    runs the rest of the application with that identifier as the current
    request id, and answers its response with the same status code and with
    the identifier in the X-Request-ID header (headers giving back what was
    last set under a name); an exception of the rest of the application
    passes through unchanged. *)
Theorem request_id_propagates
    (uuid4 : string) (t0 t1 : float) (request : HttpRequest) (call_next : H Response)
    (s : Server) :
  (forall h k v, headers_get (headers_set h k v) k = Some v) ->
  (forall h v, headers_get (headers_set h "X-Response-Time" v) HEADER_NAME =
               headers_get h HEADER_NAME) ->
  let request_id :=
    match headers_get (request_headers request) HEADER_NAME with
    | None | Some "" => uuid4
    | Some v => v
    end in
  let s1 := set_request_id_ctx request_id s in
  get_request_id s1 = (Ok request_id, s1) /\
  match call_next s1 with
  | (Ok response, s2) =>
      exists response',
        RequestIDMiddleware_dispatch uuid4 t0 t1 request call_next s = (Ok response', s2) /\
        status_code response' = status_code response /\
        headers_get (headers response') HEADER_NAME = Some request_id /\
        headers_get (headers response') "X-Response-Time" =
          Some (format_ms (PrimFloat.mul (PrimFloat.sub t1 t0) 1000%float))
  | (Raise e, s2) =>
      RequestIDMiddleware_dispatch uuid4 t0 t1 request call_next s = (Raise e, s2)
  end.
Proof.
  intros Hset Hother request_id s1.
  assert (Hid : incoming_or_new uuid4 request = request_id).
  { unfold incoming_or_new. subst request_id.
    destruct (headers_get (request_headers request) HEADER_NAME) as [v|]; [|reflexivity].
    destruct v as [|a v]; reflexivity. }
  split; [reflexivity|].
  unfold RequestIDMiddleware_dispatch. rewrite Hid. fold s1.
  destruct (call_next s1) as [[response|e] s2]; [|reflexivity].
  eexists. split; [reflexivity|]. cbn.
  split; [reflexivity|]. split; [now rewrite Hother, Hset|apply Hset].
Qed.

(** X9. The metrics middleware leaves requests for /metrics alone. For any
    other request, provided the rest of the application leaves the three
    request metrics alone: when the application answers a response or
    raises an [Exception], the middleware hands it on unchanged, adds
    exactly one to the request counter of the method, the route and the
    status code (500 for an exception) and to no other counter, records one
    latency observation, and leaves every in-progress gauge at the value it
    had before the request; when the application raises an exception that
    is not an [Exception] (a cancellation), the middleware raises
    [UnboundLocalError] in its place, counts nothing, observes nothing, and
    leaves the in-progress gauge of the route one higher than before. *)
Theorem metrics_middleware_counts
    (t0 t1 : float) (request : HttpRequest) (call_next : H Response) (s : Server) :
  (url_path request = "/metrics" ->
     MetricsMiddleware_dispatch t0 t1 request call_next s = call_next s) /\
  (url_path request <> "/metrics" ->
     let route := (method request, get_path_template request) in
     let s1 := set_registry (in_progress_add route 1 (registry s)) s in
     registry (call_next s1).2 = registry s1 ->
     let d := MetricsMiddleware_dispatch t0 t1 request call_next s in
     let status :=
       match (call_next s1).1 with
       | Ok response => Some (status_code response)
       | Raise e => if is_Exception e then Some 500%Z else None
       end in
     world d.2 = world (call_next s1).2 /\
     request_id_ctx d.2 = request_id_ctx (call_next s1).2 /\
     match status with
     | Some status =>
         d.1 = (call_next s1).1 /\
         (forall labels,
            request_count (registry d.2) labels =
            if decide ((route, status) = labels) then S (request_count (registry s) labels)
            else request_count (registry s) labels) /\
         (forall labels, in_progress (registry d.2) labels = in_progress (registry s) labels) /\
         (forall labels,
            latencies (registry d.2) labels =
            if decide (route = labels)
            then latencies (registry s) labels ++ [PrimFloat.sub t1 t0]
            else latencies (registry s) labels)
     | None =>
         d.1 = Raise UnboundLocalError /\
         (forall labels, request_count (registry d.2) labels = request_count (registry s) labels) /\
         (forall labels,
            in_progress (registry d.2) labels =
            if decide (route = labels) then (in_progress (registry s) labels + 1)%Z
            else in_progress (registry s) labels) /\
         (forall labels, latencies (registry d.2) labels = latencies (registry s) labels)
     end).
Proof.
  split.
  - intros Hp. unfold MetricsMiddleware_dispatch. now rewrite Hp.
  - intros Hp route s1 Hreg d status. subst d.
    unfold MetricsMiddleware_dispatch.
    apply String.eqb_neq in Hp. rewrite Hp. fold route. fold s1.
    subst status. destruct (call_next s1) as [r s2]. cbn [fst snd] in *.
    destruct (match r with
              | Ok response => Some (status_code response)
              | Raise e => if is_Exception e then Some 500%Z else None
              end) as [status|]; cbn [fst snd].
    + split; [reflexivity|]. split; [reflexivity|]. split; [reflexivity|].
      rewrite Hreg. split; [|split].
      * intros labels. cbn [registry set_registry].
        unfold request_count at 1. cbn.
        destruct (decide (_ = labels)) as [<-|Hne].
        -- now rewrite lookup_insert_eq.
        -- now rewrite lookup_insert_ne.
      * intros labels. unfold s1. rewrite !registry_set_registry.
        rewrite in_progress_add_lookup, in_progress_observe_latency,
          in_progress_count_request, in_progress_add_lookup.
        destruct (decide (route = labels)); lia.
      * intros labels. cbn [registry set_registry].
        unfold latencies at 1. cbn.
        destruct (decide (route = labels)) as [<-|Hne].
        -- now rewrite lookup_insert_eq.
        -- now rewrite lookup_insert_ne.
    + split; [reflexivity|]. split; [reflexivity|]. split; [reflexivity|].
      rewrite Hreg. unfold s1. rewrite registry_set_registry.
      split; [reflexivity|]. split; [|reflexivity].
      intros labels. apply in_progress_add_lookup.
Qed.

End Http.

(** ** Closed instances of the further properties *)

(** The record store holds the widget under [id-1]; the cache is connected
    and empty, the server works. *)
Definition widget_world : World :=
  set_items_db [("id-1", widget_entity)] connected_world.

(** The server fails the command it receives at tick 1 and no other. *)
Definition fail_once : nat -> option RedisErrorKind :=
  fun n => if Nat.eqb n 1 then Some TimeoutError else None.

(** The record store and the cache both hold the widget, and the server
    fails the next command. *)
Definition cached_widget_world : World :=
  set_redis_server
    {| rdata := {[ "item:id-1" := ("widget-json", Some 3600%Z) ]};
       rfault := fail_once;
       rtick := 1 |}
    widget_world.

(** The widget after its price is set to 5. *)
Definition widget_5 : list (string * pyval) :=
  updated_item_data string iso_text "2024-02-01T00:00:00" price_5 widget_entity.

Definition widget_5_dumps (v : pyval) : option string := Some "widget-5-json".

Definition widget_5_loads (text : string) : option pyval :=
  if String.eqb text "widget-5-json" then Some (PyDict widget_5) else None.

Lemma reachable_connected_world :
  reachable string iso_text widget_dumps widget_loads strict_response default_settings
    connected_world.
Proof.
  eapply reachable_step; [apply reachable_initial, (initial_fresh_world no_fault)|].
  apply step_init_cache.
Qed.

Lemma set_get_round_trip_witness :
  let self := current_service connected_world in
  let s := CacheService_set widget_dumps self "item:id-1" (PyDict widget_entity)
             (Some 3600%Z) connected_world in
  s.1 = Ok true /\
  rdata (redis_server s.2) !! "item:id-1" = Some ("widget-json", Some 3600%Z) /\
  (CacheService_get widget_loads self "item:id-1" s.2).1 = Ok (PyDict widget_entity).
Proof.
  cbv zeta.
  destruct (set_get_round_trip widget_dumps widget_loads (current_service connected_world)
              "item:id-1" (PyDict widget_entity) (Some 3600%Z) "widget-json"
              connected_world) as (Hs & Hk & _ & Hg & _).
  - discriminate.
  - reflexivity.
  - reflexivity.
  - intros t [= <-]. lia.
  - reflexivity.
  - discriminate.
  - reflexivity.
  - split; [exact Hs|]. split; [exact Hk|exact Hg].
Defined.

Lemma delete_then_absent_witness :
  let self := current_service stale_world in
  let d := CacheService_delete self "item:id-1" stale_world in
  rdata (redis_server stale_world) !! "item:id-1" <> None /\
  d.1 = Ok true /\
  (CacheService_get widget_loads self "item:id-1" d.2).1 = Ok PyNone.
Proof.
  cbv zeta. split; [discriminate|].
  destruct (delete_then_absent widget_loads (current_service stale_world) "item:id-1"
              stale_world) as (Hd & _ & _ & Hg & _).
  - discriminate.
  - reflexivity.
  - reflexivity.
  - split; [exact Hd|exact Hg].
Defined.

Lemma read_after_update_witness :
  let u := update_item string iso_text widget_5_dumps strict_response "id-1"
             "2024-02-01T00:00:00" price_5 widget_world in
  u.1 = entity_reply string strict_response widget_5 /\
  (get_item string widget_5_dumps widget_5_loads strict_response "id-1" u.2).1 =
    entity_reply string strict_response widget_5.
Proof.
  cbv zeta.
  apply (read_after_update string iso_text widget_5_dumps widget_5_loads strict_response
           "id-1" "2024-02-01T00:00:00" price_5 widget_world widget_entity
           "widget-5-json").
  - reflexivity.
  - discriminate.
  - reflexivity.
  - reflexivity.
  - reflexivity.
Defined.

Lemma stale_read_after_failed_cache_write_witness :
  let u := update_item string iso_text widget_dumps strict_response "id-1"
             "2024-02-01T00:00:00" price_5 cached_widget_world in
  dict_get "id-1" (_items_db u.2) = Some widget_5 /\
  (get_item string widget_dumps widget_loads strict_response "id-1" u.2).1 =
    entity_reply string strict_response widget_entity.
Proof.
  cbv zeta.
  destruct (stale_read_after_failed_cache_write string iso_text widget_dumps widget_loads
              strict_response "id-1" "2024-02-01T00:00:00" price_5 cached_widget_world
              widget_entity "widget-json" (Some 3600%Z) (PyDict widget_entity))
    as (Hdb & Hg).
  - reflexivity.
  - discriminate.
  - discriminate.
  - reflexivity.
  - reflexivity.
  - discriminate.
  - reflexivity.
  - discriminate.
  - reflexivity.
  - reflexivity.
  - split; [exact Hdb|]. rewrite Hg. reflexivity.
Defined.

Lemma deleted_item_read_from_cache_witness :
  let d := delete_item "id-1" cached_widget_world in
  d.1 = Ok tt /\
  dict_get "id-1" (_items_db d.2) = None /\
  (get_item string widget_dumps widget_loads strict_response "id-1" d.2).1 =
    entity_reply string strict_response widget_entity.
Proof.
  cbv zeta.
  destruct (deleted_item_read_from_cache string widget_dumps widget_loads strict_response
              "id-1" cached_widget_world "widget-json" (Some 3600%Z) (PyDict widget_entity))
    as (Hd & Hdb & Hg).
  - discriminate.
  - discriminate.
  - discriminate.
  - reflexivity.
  - reflexivity.
  - reflexivity.
  - discriminate.
  - reflexivity.
  - reflexivity.
  - split; [exact Hd|]. split; [exact Hdb|]. rewrite Hg. reflexivity.
Defined.

Lemma read_after_delete_witness :
  let d := delete_item "id-1" widget_world in
  dict_get "id-1" (_items_db widget_world) <> None /\
  served 0 widget_world /\
  d.1 = Ok tt /\
  (get_item string widget_dumps widget_loads strict_response "id-1" d.2).1 =
    Raise (HTTPException 404 "Item id-1 not found").
Proof.
  cbv zeta.
  assert (H1 : dict_get "id-1" (_items_db widget_world) <> None) by discriminate.
  assert (H2 : served 0 widget_world) by reflexivity.
  split; [exact H1|]. split; [exact H2|].
  exact (read_after_delete string widget_dumps widget_loads strict_response "id-1"
           widget_world H1 (or_intror (or_introl H2))).
Defined.

Lemma second_read_hits_witness :
  let r1 := get_item string widget_dumps widget_loads strict_response "id-1" widget_world in
  let r2 := get_item string widget_dumps widget_loads strict_response "id-1" r1.2 in
  r1.1 = entity_reply string strict_response widget_entity /\
  r2.1 = entity_reply string strict_response widget_entity /\
  trace r2.2 = trace r1.2 ++ [EvCacheGet "item:id-1"].
Proof.
  cbv zeta.
  destruct (second_read_hits string widget_dumps widget_loads strict_response "id-1"
              widget_world widget_entity "widget-json") as (H1 & H2 & Ht & _).
  - reflexivity.
  - reflexivity.
  - discriminate.
  - reflexivity.
  - reflexivity.
  - discriminate.
  - reflexivity.
  - discriminate.
  - reflexivity.
  - split; [exact H1|]. split; [exact H2|exact Ht].
Defined.

Lemma cache_holds_only_expiring_items_witness :
  let w := (handle string iso_text widget_dumps widget_loads strict_response
              (Create string "id-1" "2024-01-01T00:00:00" widget) connected_world).2 in
  reachable string iso_text widget_dumps widget_loads strict_response default_settings w /\
  rdata (redis_server w) !! "item:id-1" = Some ("widget-json", Some 3600%Z) /\
  rdata (redis_server w) !! ITEMS_LIST_KEY = None.
Proof.
  cbv zeta.
  assert (Hr : reachable string iso_text widget_dumps widget_loads strict_response
                 default_settings
                 (handle string iso_text widget_dumps widget_loads strict_response
                    (Create string "id-1" "2024-01-01T00:00:00" widget) connected_world).2).
  { eapply reachable_step; [exact reachable_connected_world|apply step_handle]. }
  split; [exact Hr|]. split; [reflexivity|].
  exact (proj2 (cache_holds_only_expiring_items string iso_text widget_dumps widget_loads
                  strict_response default_settings _ Hr)).
Defined.

Lemma pages_partition_witness :
  let w := set_items_db five_items (fresh_world no_fault) in
  Forall (fun d => strict_response d <> None) (dict_values (_items_db w)) /\
  exists all,
    entity_replies string strict_response (dict_values five_items) = Ok all /\
    page_of string strict_response 1 2 w ++ page_of string strict_response 2 2 w ++
      page_of string strict_response 3 2 w = all /\
    page_of string strict_response 4 2 w = [].
Proof.
  cbv zeta.
  assert (Hv : Forall (fun d => strict_response d <> None)
                 (dict_values (_items_db (set_items_db five_items (fresh_world no_fault))))).
  { repeat constructor; discriminate. }
  split; [exact Hv|].
  destruct (pages_partition string strict_response 2
              (set_items_db five_items (fresh_world no_fault)) ltac:(lia) Hv)
    as (n & all & Hall & Hpage & Hcat & Hpast).
  destruct (Hpage 1%Z ltac:(lia)) as (l & El & _ & Hn).
  assert (n = 3%nat) as ->.
  { rewrite list_items_eq in El. cbv in El. injection El as <-. cbn in Hn. lia. }
  exists all. split; [exact Hall|]. split.
  - cbn [seq List.map concat] in Hcat. rewrite app_nil_r in Hcat. exact Hcat.
  - apply Hpast. lia.
Defined.

(** An update that sets the name to null and nothing else. *)
Definition name_null : ItemUpdate.t :=
  {| ItemUpdate.name := Some None; ItemUpdate.description := None;
     ItemUpdate.price := None; ItemUpdate.quantity := None;
     ItemUpdate.tags := None |}.

Lemma strict_response_null_name d :
  dict_get "name" d = Some PyNone -> strict_response d = None.
Proof.
  intros H. unfold strict_response. unfold get_str at 2. rewrite H.
  now destruct (get_str "id" d).
Qed.

Lemma null_update_breaks_item_witness :
  let w := set_items_db [("id-1", widget_entity)] (fresh_world no_fault) in
  let u := update_item string iso_text widget_dumps strict_response "id-1"
             "2024-02-01T00:00:00" name_null w in
  (get_item string widget_dumps widget_loads strict_response "id-1" w).1 =
    entity_reply string strict_response widget_entity /\
  u.1 = Raise ValidationError /\
  (get_item string widget_dumps widget_loads strict_response "id-1" u.2).1 =
    Raise ValidationError /\
  (list_items string strict_response 1 10 u.2).1 = Raise ValidationError.
Proof.
  cbv zeta. split; [reflexivity|].
  destruct (null_update_breaks_item string iso_text widget_dumps widget_loads
              strict_response "id-1" "2024-02-01T00:00:00" name_null
              (set_items_db [("id-1", widget_entity)] (fresh_world no_fault))
              widget_entity 10%Z)
    as (Hu & _ & Hg & Hl).
  - reflexivity.
  - reflexivity.
  - exact strict_response_null_name.
  - split; [exact Hu|]. split; [apply Hg; reflexivity|].
    apply Hl; [lia|cbn; lia].
Defined.

Lemma lifespan_tolerates_cache_witness :
  let s := lifespan_startup default_settings (fresh_world no_fault) in
  s.1 = Ok tt /\ cache_up 3 s.2 /\
  (lifespan_startup default_settings (fresh_world always_down)).1 = Ok tt.
Proof.
  cbv zeta.
  destruct (lifespan_tolerates_cache default_settings 3 (fresh_world no_fault))
    as (Hs & _ & _ & _ & Hup & _).
  split; [exact Hs|]. split; [apply Hup; intros i _; reflexivity|].
  exact (proj1 (lifespan_tolerates_cache default_settings 0 (fresh_world always_down))).
Defined.

Lemma stored_items_keep_shape_witness :
  let w := (handle string iso_text widget_dumps widget_loads strict_response
              (Create string "id-1" "2024-01-01T00:00:00" widget) connected_world).2 in
  dict_get "id-1" (_items_db w) = Some widget_entity /\
  List.map fst widget_entity = ITEM_KEYS /\
  dict_get "id" widget_entity = Some (PyStr "id-1").
Proof.
  cbv zeta.
  assert (Hg : dict_get "id-1"
                 (_items_db
                    (handle string iso_text widget_dumps widget_loads strict_response
                       (Create string "id-1" "2024-01-01T00:00:00" widget)
                       connected_world).2) = Some widget_entity) by reflexivity.
  split; [exact Hg|].
  refine (proj1 (stored_items_keep_shape string iso_text widget_dumps widget_loads
                   strict_response default_settings) _ _ "id-1" widget_entity Hg).
  eapply reachable_step; [exact reachable_connected_world|apply step_handle].
Defined.

(** *** The middlewares on a request *)

(** Headers as an association list. *)
Definition list_headers_get (h : list (string * string)) (k : string) : option string :=
  dict_get k h.

Definition list_headers_set (h : list (string * string)) (k v : string)
    : list (string * string) :=
  dict_set k v h.

Definition two_decimals (duration_ms : float) : string := "12.00ms".

Definition route_of (request : HttpRequest (list (string * string))) : string :=
  url_path _ request.

Definition list_request : HttpRequest (list (string * string)) :=
  {| method := "GET"; url_path := "/api/v1/items";
     request_headers := [("X-Request-ID", "abc-123")] |}.

Definition idle_server : Server :=
  {| world := connected_world;
     request_id_ctx := "";
     registry := {| REQUEST_COUNT := ∅; REQUEST_LATENCY := ∅; REQUESTS_IN_PROGRESS := ∅ |} |}.

(** The rest of the application answers 200 with no header. *)
Definition answer_200 : H (Response (list (string * string))) :=
  fun s => (Ok {| status_code := 200%Z; headers := [] |}, s).

Lemma request_id_propagates_witness :
  exists response' s2,
    RequestIDMiddleware_dispatch _ list_headers_get list_headers_set two_decimals
      "new-uuid" 1%float 2%float list_request answer_200 idle_server = (Ok response', s2) /\
    list_headers_get (headers _ response') "X-Request-ID" = Some "abc-123" /\
    get_request_id s2 = (Ok "abc-123", s2).
Proof.
  destruct (request_id_propagates _ list_headers_get list_headers_set two_decimals
              "new-uuid" 1%float 2%float list_request answer_200 idle_server)
    as (Hctx & response' & Hd & _ & Hid & _).
  - intros h k v. apply dict_get_set_eq.
  - intros h v. apply dict_get_set_ne. discriminate.
  - exists response', (set_request_id_ctx "abc-123" idle_server).
    split; [exact Hd|]. split; [exact Hid|exact Hctx].
Defined.

(** The rest of the application is cancelled while it handles the
    request. *)
Definition cancelled : H (Response (list (string * string))) :=
  fun s => (Raise CancelledError, s).

Lemma metrics_middleware_counts_witness :
  let d := MetricsMiddleware_dispatch _ route_of 1%float 2%float list_request answer_200
             idle_server in
  let c := MetricsMiddleware_dispatch _ route_of 1%float 2%float list_request cancelled
             idle_server in
  request_count (registry d.2) ("GET", "/api/v1/items", 200%Z) = 1%nat /\
  in_progress (registry d.2) ("GET", "/api/v1/items") = 0%Z /\
  c.1 = Raise UnboundLocalError /\
  in_progress (registry c.2) ("GET", "/api/v1/items") = 1%Z.
Proof.
  cbv zeta.
  destruct (proj2 (metrics_middleware_counts _ route_of 1%float 2%float list_request
                     answer_200 idle_server))
    as (_ & _ & _ & Hc & Hp & _); [discriminate|reflexivity|].
  destruct (proj2 (metrics_middleware_counts _ route_of 1%float 2%float list_request
                     cancelled idle_server))
    as (_ & _ & Hr & _ & Hg & _); [discriminate|reflexivity|].
  split; [rewrite Hc; reflexivity|]. split; [rewrite Hp; reflexivity|].
  split; [exact Hr|]. rewrite Hg. reflexivity.
Defined.

(** ** Closed instances for the ordering of store and cache *)

Definition gadget : ItemCreate.t :=
  {| ItemCreate.name := "Gadget";
     ItemCreate.description := None;
     ItemCreate.price := 5%float;
     ItemCreate.quantity := 1;
     ItemCreate.tags := [] |}.

(** The gadget, created under the identifier of the widget. *)
Definition gadget_entity : list (string * pyval) :=
  new_item_data string iso_text "id-1" "2024-03-01T00:00:00" gadget.

(** A stand-in for the JSON codec that tells the items of the examples
    apart by their name. *)
Definition name_of (v : pyval) : string :=
  match v with
  | PyDict d => match dict_get "name" d with Some (PyStr n) => n | _ => "" end
  | _ => ""
  end.

Definition by_name_dumps (v : pyval) : option string := Some ("json:" +:+ name_of v).

Definition by_name_loads (text : string) : option pyval :=
  if String.eqb text "json:Widget" then Some (PyDict widget_entity)
  else if String.eqb text "json:Gadget" then Some (PyDict gadget_entity)
  else None.

(** The server fails the command it receives at tick [k] and no other. *)
Definition fail_at (k : nat) : nat -> option RedisErrorKind :=
  fun n => if Nat.eqb n k then Some TimeoutError else None.

(** The application started in front of an empty server, the cache
    connected (tick 0), and the widget created under [id-1] (ticks 1 and
    2); the server fails the command of tick 3. *)
Definition widget_created : World :=
  (handle string iso_text by_name_dumps by_name_loads strict_response
     (Create string "id-1" "2024-01-01T00:00:00" widget)
     (init_cache default_settings (fresh_world (fail_at 3))).2).2.

Lemma reachable_widget_created :
  reachable string iso_text by_name_dumps by_name_loads strict_response default_settings
    widget_created.
Proof.
  eapply reachable_step; [|apply step_handle].
  eapply reachable_step; [apply reachable_initial, initial_fresh_world|].
  apply step_init_cache.
Qed.





Lemma list_items_fails_on_stored_null :
  let w0 := fresh_world no_fault in
  let w1 := (handle string iso_text widget_dumps widget_loads strict_response
               (Create string "id-1" "2024-01-01T00:00:00" widget) w0).2 in
  let w2 := (handle string iso_text widget_dumps widget_loads strict_response
               (Update string "id-1" "2024-02-01T00:00:00" name_null) w1).2 in
  length (_items_db w2) = 1%nat /\
  (list_items string strict_response 1 10 w1).1 <> Raise ValidationError /\
  (list_items string strict_response 1 10 w2).1 = Raise ValidationError.
Proof.
  cbv zeta. split; [reflexivity|]. split; [discriminate|reflexivity].
Qed.

Lemma connect_outcome_witness :
  let w0 := fresh_world always_down in
  let g := get_cache_service w0 in
  let c := CacheService_connect default_settings CacheService__init__ g.2 in
  g = (Ok CacheService__init__, g.2) /\
  c.1 = Raise (RedisError ConnectionError) /\
  _client (current_service c.2) <> None /\
  (init_cache default_settings w0).1 = Raise (RedisError ConnectionError).
Proof.
  cbv zeta.
  assert (Hg : get_cache_service (fresh_world always_down)
               = (Ok CacheService__init__, (get_cache_service (fresh_world always_down)).2))
    by reflexivity.
  destruct (connect_outcome default_settings CacheService__init__
              (get_cache_service (fresh_world always_down)).2)
    as (Hc & _ & _ & _ & _ & Hs).
  destruct (Hs _ Hg) as [Hsvc Hinit].
  split; [exact Hg|]. split; [exact Hc|].
  split; [unfold current_service; rewrite Hsvc; discriminate|].
  rewrite Hinit. reflexivity.
Defined.
